(** * Organizer pool allocator of [GoogleCalendarService]

    A shallow embedding of the organizer-allocation part of
    [src/example-code.ts]: the pool state kept per category in the cache
    ([cacheOrganizerAndAttendee], [fetchCurrentOrganizer]), the availability
    decision ([isOrganizerAvailable], [isBlockedTimeFinished]), suspension
    ([blockOrganizer]) and the selection made by [createEvent]
    ([fetchAvailableOrganizers]).

    The [async] methods are functions in a small state-and-exception monad
    over the cache; the clock ([new Date()]) and the calendar provider are
    explicit arguments. *)

From stdpp Require Import base option list gmap strings.
From Stdlib Require Import ZArith Lia.

Local Open Scope Z_scope.

(** ** JavaScript strings *)

Module JS.

(** [pat] is a prefix of [s]. *)
Fixpoint startsWith (s pat : string) {struct pat} : bool :=
  match pat with
  | EmptyString => true
  | String a pat' =>
      match s with
      | EmptyString => false
      | String b s' => bool_decide (a = b) && startsWith s' pat'
      end
  end.

(** [String.prototype.includes]: [pat] occurs somewhere in [s]. *)
Fixpoint includes (s pat : string) : bool :=
  startsWith s pat ||
  match s with
  | EmptyString => false
  | String _ s' => includes s' pat
  end.

(** A value of TypeScript type [string] that may also be [null] or
    [undefined] at run time (default parameters, optional chaining). *)
Inductive str : Type :=
| undefined
| null
| Str (s : string).

#[global] Instance str_eq_dec : EqDecision str.
Proof. solve_decision. Defined.

(** Truthiness: [undefined], [null] and the empty string are falsy. *)
Definition truthy (v : str) : bool :=
  match v with
  | Str s => negb (bool_decide (s = ""))
  | _ => false
  end.

(** The text a template literal puts for the value. *)
Definition toString (v : str) : string :=
  match v with
  | undefined => "undefined"
  | null => "null"
  | Str s => s
  end.

(** A [Set] of strings, kept in insertion order as [Array.from] lists it. *)
Definition Set_add (s : list string) (x : string) : list string :=
  if bool_decide (x ∈ s) then s else s ++ [x].

(** [new Set(array)]. *)
Definition Set_new (l : list string) : list string := foldl Set_add [] l.

End JS.

(** ** Data *)

(** The enum is declared outside [src/]; the service only singles out
    [STUDENT], and one constructor stands for its other members. *)
Inductive AttendeeType : Type := STUDENT | OTHER.

#[global] Instance AttendeeType_eq_dec : EqDecision AttendeeType.
Proof. solve_decision. Defined.

(** The product type of a training or program, as far as the service
    distinguishes it. The enum is declared outside [src/]; one constructor
    stands for its members other than [PRAKERJA]. A training or a program
    that may be missing ([null] or [undefined]) is an
    [option ProductType]: of its fields only [productType] decides
    anything here. *)
Inductive ProductType : Type := PRAKERJA | OTHER_PRODUCT.

#[global] Instance ProductType_eq_dec : EqDecision ProductType.
Proof. solve_decision. Defined.

(** An attendee, with the two fields the service reads. *)
Record GoogleCalendarAttendeeDto : Type := {
  email : string;
  type : AttendeeType
}.

(** Modelled from the spec: the class is declared outside [src/]. Section 3
    gives a pool state an organizer and the attendee addresses counted for
    it; [fromPayload organizer uniqueAttendees] is taken to store its two
    arguments in the fields of the same names, which are the ones the
    service reads back. A field that is [undefined] is left out by
    [JSON.stringify] and reads back as [undefined]. *)
Record GoogleCalendarCacheValueDto : Type := fromPayload {
  organizer : JS.str;
  uniqueAttendees : option (list string)   (* [None] is [undefined] *)
}.

(** A text held by the cache, by what [JSON.parse] makes of it. The service
    writes two kinds of text, [JSON.stringify] of a pool state and of a
    [Date]; any text outside the JSON grammar is [NotJson], and comes with
    the message of the [SyntaxError] the engine throws on it. The wording of
    that message is the engine's, and may quote the text: nothing is assumed
    about it. Texts that parse to a JSON value of another shape are not
    represented. *)
Inductive CacheText : Type :=
| NotJson (raw : string) (message : string)  (* [JSON.parse] throws on it *)
| DtoJson (v : GoogleCalendarCacheValueDto)  (* a serialized pool state *)
| DateJson (t : Z).                          (* a serialized [Date], [t] its [getTime()] *)

(** What [JSON.parse] returns for the texts above: the plain object of a
    pool state, or the ISO string of a [Date]. *)
Inductive JsonValue : Type :=
| JDto (v : GoogleCalendarCacheValueDto)
| JDateString (t : Z).

Record CacheEntry : Type := {
  value : CacheText;
  ttl : Z                                    (* seconds, as given to [put] *)
}.

Abbreviation Cache := (gmap string CacheEntry).

Inductive Error : Type :=
| SyntaxError (message : string)             (* [JSON.parse] *)
| TypeError                                  (* property read on [undefined] *)
| ProviderError (message : string)           (* thrown by the calendar client *)
| HttpException (message : string).

Inductive Outcome (A : Type) : Type :=
| Returned (a : A)
| Thrown (e : Error).
Arguments Returned {A} a.
Arguments Thrown {A} e.

(** ** The monad of the [async] methods

    A computation runs on a cache and leaves a cache, also when it throws:
    what was written before the exception stays written. *)

Definition Async (A : Type) : Type := Cache → Outcome A * Cache.

#[global] Instance Async_ret : MRet Async := λ A a c, (Returned a, c).

Definition throw {A} (e : Error) : Async A := λ c, (Thrown e, c).

#[global] Instance Async_bind : MBind Async := λ A B k m c,
  match m c with
  | (Returned a, c') => k a c'
  | (Thrown e, c') => (Thrown e, c')
  end.

Definition try_catch {A} (m : Async A) (handler : Error → Async A) : Async A :=
  λ c, match m c with
       | (Returned a, c') => (Returned a, c')
       | (Thrown e, c') => handler e c'
       end.

Definition when (b : bool) (m : Async ()) : Async () :=
  if b then m else mret ().

(** ** The cache service *)

Module RskCacheService.

(** Modelled from the spec: the cache service is declared outside [src/];
    section 6 gives [get(key) → bytes|absent], [put(key, bytes, ttlSeconds)]
    and [delete(key)]. An absent key reads as [null] ([None] here), which
    is what lets [cacheOrganizerAndAttendee] start from an empty cache.
    Expiry is the store's own business and no operation here performs it. *)
Definition get (key : string) : Async (option CacheText) :=
  λ c, (Returned (value <$> c !! key), c).

Definition put (key : string) (v : CacheText) (ttlSeconds : Z) : Async () :=
  λ c, (Returned (), <[key := {| value := v; ttl := ttlSeconds |}]> c).

Definition delete (key : string) : Async () :=
  λ c, (Returned (), base.delete key c).

End RskCacheService.

(** ** Configuration and keys *)

Record Config : Type := {
  prakerjaOrganizers : list string;          (* GCAL_PRAKERJA_ORGS, split on commas *)
  nonPrakerjaOrganizers : list string;       (* GCAL_NON_PRAKERJA_ORGS *)
  externalAttendeesLimit : Z                 (* GCAL_EXT_ATTENDEE_LIMIT, 2000 by default *)
}.

Definition gcalMainKey : string := "google-calendar".
Definition gcalBlockKey : string := "google-calendar-blocked-organizer".

(** [`${this.gcalMainKey}-${keyType}`] *)
Definition poolKey (isPrakerja : bool) : string :=
  gcalMainKey +:+ "-" +:+ (if isPrakerja then "prakerja" else "non-prakerja").

(** [`${this.gcalBlockKey}:${organizer}`] *)
Definition blockKey (organizer : JS.str) : string :=
  gcalBlockKey +:+ ":" +:+ JS.toString organizer.

(** The literal the service tests addresses against. *)
Definition rskDomain : string := "sempurna.com".

(** ** Serialization *)

(** What the service hands to [serializeCacheValue]. *)
Inductive CacheData : Type :=
| PoolData (v : GoogleCalendarCacheValueDto)
| DateData (t : Z).

(** [JSON.stringify(data)] *)
Definition serializeCacheValue (data : CacheData) : CacheText :=
  match data with
  | PoolData v => DtoJson v
  | DateData t => DateJson t
  end.

(** [JSON.parse(cacheValue)], with no handler around it. The result [None]
    is [null]: [JSON.parse(null)] parses the text [null]. *)
Definition deserializeCacheValue (cacheValue : option CacheText) : Async (option JsonValue) :=
  match cacheValue with
  | None => mret None
  | Some (NotJson _ message) => throw (SyntaxError message)
  | Some (DtoJson v) => mret (Some (JDto v))
  | Some (DateJson t) => mret (Some (JDateString t))
  end.

(** [if (cacheValue)] on what [get] returned: [null] and the empty text are
    falsy. *)
Definition text_truthy (cacheValue : option CacheText) : bool :=
  match cacheValue with
  | None => false
  | Some (NotJson raw _) => negb (bool_decide (raw = ""))
  | Some _ => true
  end.

(** ** Property reads on parsed values *)

(** [v.organizer]: a string has no such property. *)
Definition organizer_of (v : JsonValue) : JS.str :=
  match v with
  | JDto d => organizer d
  | JDateString _ => JS.undefined
  end.

(** [v.uniqueAttendees] *)
Definition uniqueAttendees_of (v : JsonValue) : option (list string) :=
  match v with
  | JDto d => uniqueAttendees d
  | JDateString _ => None
  end.

(** [a.length]: reading a property of [undefined] throws. *)
Definition length_of (a : option (list string)) : Async Z :=
  match a with
  | Some l => mret (Z.of_nat (length l))
  | None => throw TypeError
  end.

(** [v?.organizer] *)
Definition optional_organizer (v : option JsonValue) : JS.str :=
  match v with
  | Some v => organizer_of v
  | None => JS.undefined
  end.

(** [a == b] on values that are strings, [null] or [undefined]. *)
Definition looseEq (a b : JS.str) : bool :=
  match a, b with
  | JS.Str x, JS.Str y => bool_decide (x = y)
  | JS.Str _, _ | _, JS.Str _ => false
  | _, _ => true
  end.

(** A parameter declared [organizer: string = null]: [undefined] takes the
    default. *)
Definition orNull (v : JS.str) : JS.str :=
  match v with
  | JS.undefined => JS.null
  | _ => v
  end.

(** ** Dates *)

(** [new Date(value)] on a parsed value; [None] is an invalid date. An ISO
    string gives its instant back, a plain object gives an invalid date,
    [null] gives the epoch. *)
Definition Date_new (v : option JsonValue) : option Z :=
  match v with
  | Some (JDateString t) => Some t
  | Some (JDto _) => None
  | None => Some 0
  end.

Definition twentyFourHoursInMilliseconds : Z := 24 * 60 * 60 * 1000.

(** [isBlockedTimeFinished(blockedDate)] at clock reading [dateNow], both in
    milliseconds. With an invalid date the difference is [NaN] and the
    comparison is false. *)
Definition isBlockedTimeFinished (dateNow : Z) (blockedDate : option Z) : bool :=
  match blockedDate with
  | Some t =>
      let timeDifference := dateNow - t in
      if timeDifference >? twentyFourHoursInMilliseconds then true else false
  | None => false
  end.

(** ** The calendar provider *)

(** What [googleCalendar.events.insert] does for [createEvent]: it answers
    with a status or throws an error with a message. *)
Inductive ProviderReply : Type :=
| Responds (status : Z)
| Rejects (message : string).

(** What [createEvent] returns, for the part the pool decides. *)
Record GoogleCalendarResultDto : Type := {
  response_status : Z;
  result_organizer : JS.str
}.

(** [error.message.includes(text)]. The message of a [TypeError] names the
    property read and the value it was read on; the reads that can fail in
    this file are of [length], [some], [email] and [name], so the message
    contains none of the texts the service looks for. *)
Definition message_includes (e : Error) (text : string) : bool :=
  match e with
  | SyntaxError m | ProviderError m | HttpException m => JS.includes m text
  | TypeError => false
  end.

(** [training?.productType === ProductType.PRAKERJA
     || program?.productType === ProductType.PRAKERJA] *)
Definition isPrakerja_of (training program : option ProductType) : bool :=
  bool_decide (training = Some PRAKERJA) || bool_decide (program = Some PRAKERJA).

(** [encryptTrainingOrProgram(training, program)], for what can make it
    fail: the read [training ? training.title : program.name] throws when
    neither a training nor a program is given. [CryptUtil.encryptData] is
    declared outside [src/]; it is taken to return, like the rest of the
    link formatting that section 1 of the specification sets aside as
    glue. *)
Definition encryptTrainingOrProgram (training program : option ProductType) : Async () :=
  match training, program with
  | None, None => throw TypeError
  | _, _ => mret ()
  end.

(** [descriptionConstructor], for what can make it fail: the call of
    [encryptTrainingOrProgram]. Formatting the dates and the text does not
    throw, and the text carries no pool state. *)
Definition descriptionConstructor (training program : option ProductType) : Async () :=
  encryptTrainingOrProgram training program.

(** ** The service *)

Section GoogleCalendarService.

Variable cfg : Config.

(** [!attendee.email.includes('sempurna.com')] *)
Definition isExternal (address : string) : bool :=
  negb (JS.includes address rskDomain).

(** The body of the [forEach] in [cacheOrganizerAndAttendee]. *)
Definition addAttendee (uniqueAttendeesSet : list string)
    (attendee : GoogleCalendarAttendeeDto) : list string :=
  if isExternal (email attendee)
  then JS.Set_add uniqueAttendeesSet (email attendee)
  else uniqueAttendeesSet.

(** The [for ... of] loop of the branch without cached data. *)
Fixpoint newAttendees (attendees : list GoogleCalendarAttendeeDto) : list string :=
  match attendees with
  | [] => []
  | att :: rest =>
      if isExternal (email att)
      then email att :: newAttendees rest
      else newAttendees rest
  end.

Definition oneMonthInMilliSeconds : Z := 30 * 24 * 60 * 60.

Definition cacheOrganizerAndAttendee (attendees : list GoogleCalendarAttendeeDto)
    (organizerReq : JS.str) (isPrakerja : bool) : Async JS.str :=
  let organizerReq := orNull organizerReq in
  let cacheKey := poolKey isPrakerja in
  data ← RskCacheService.get cacheKey;
  deserializedData ← deserializeCacheValue data;
  state ← match deserializedData with
          | Some parsed =>
              let organizer := organizer_of parsed in
              let uniqueAttendees := uniqueAttendees_of parsed in
              if JS.truthy organizer && looseEq organizer organizerReq then
                len ← length_of uniqueAttendees;
                if len <? externalAttendeesLimit cfg then
                  let uniqueAttendeesSet := JS.Set_new (default [] uniqueAttendees) in
                  mret (organizer, Some (foldl addAttendee uniqueAttendeesSet attendees))
                else mret (organizer, uniqueAttendees)
              else mret (organizer, uniqueAttendees)
          | None => mret (organizerReq, Some (newAttendees attendees))
          end;
  let cacheData := fromPayload state.1 state.2 in
  let cacheValue := serializeCacheValue (PoolData cacheData) in
  RskCacheService.put cacheKey cacheValue oneMonthInMilliSeconds;;
  mret state.1.

Definition fetchCurrentOrganizer (isPrakerja : bool) : Async (option JsonValue) :=
  let cachekey := poolKey isPrakerja in
  googleCalendarCacheValue ← RskCacheService.get cachekey;
  if text_truthy googleCalendarCacheValue
  then deserializeCacheValue googleCalendarCacheValue
  else mret None.

(** [current && current.organizer === organizer
     && current.uniqueAttendees.length >= this.externalAttendeesLimit] *)
Definition shouldBlockCurrentOrganizer (current : option JsonValue)
    (organizer : JS.str) : Async bool :=
  match current with
  | Some parsed =>
      if bool_decide (organizer_of parsed = organizer) then
        len ← length_of (uniqueAttendees_of parsed);
        mret (len >=? externalAttendeesLimit cfg)
      else mret false
  | None => mret false
  end.

Definition blockOrganizer (dateNow : Z) (organizer : JS.str) : Async () :=
  let key := blockKey organizer in
  let value := serializeCacheValue (DateData dateNow) in
  let ttl := 24 * 60 * 60 in
  RskCacheService.put key value ttl;;
  currentPrakerja ← fetchCurrentOrganizer true;
  let currentOrganizerPrakerja := optional_organizer currentPrakerja in
  currentNonPrakerja ← fetchCurrentOrganizer false;
  let currentOrganizerNonPrakerja := optional_organizer currentNonPrakerja in
  if JS.truthy currentOrganizerPrakerja
     && bool_decide (organizer = currentOrganizerPrakerja) then
    RskCacheService.delete (gcalMainKey +:+ "-prakerja")
  else if JS.truthy currentOrganizerNonPrakerja
          && bool_decide (organizer = currentOrganizerNonPrakerja) then
    RskCacheService.delete (gcalMainKey +:+ "-non-prakerja")
  else mret ().

Definition isOrganizerAvailable (dateNow : Z) (organizer : JS.str) : Async bool :=
  currentOrganizerPrakerja ← fetchCurrentOrganizer true;
  currentOrganizerNonPrakerja ← fetchCurrentOrganizer false;
  shouldBlockCurrentOrganizerPrakerja ←
    shouldBlockCurrentOrganizer currentOrganizerPrakerja organizer;
  shouldBlockCurrentOrganizerNonPrakerja ←
    shouldBlockCurrentOrganizer currentOrganizerNonPrakerja organizer;
  if shouldBlockCurrentOrganizerPrakerja || shouldBlockCurrentOrganizerNonPrakerja then
    when (negb shouldBlockCurrentOrganizerPrakerja) (blockOrganizer dateNow organizer);;
    when (negb shouldBlockCurrentOrganizerNonPrakerja) (blockOrganizer dateNow organizer);;
    mret false
  else
    let key := blockKey organizer in
    cacheValue ← RskCacheService.get key;
    if text_truthy cacheValue then
      blockedDateStr ← deserializeCacheValue cacheValue;
      let blockedDate := Date_new blockedDateStr in
      if isBlockedTimeFinished dateNow blockedDate then
        RskCacheService.delete key;;
        mret true
      else mret false
    else mret true.

(** The [for await] loop of [fetchAvailableOrganizers]. *)
Fixpoint availableOrganizers_loop (dateNow : Z) (organizers : list string)
    (availableOrganizers : list string) : Async (list string) :=
  match organizers with
  | [] => mret availableOrganizers
  | org :: rest =>
      isAvailable ← isOrganizerAvailable dateNow (JS.Str org);
      availableOrganizers_loop dateNow rest
        (if (isAvailable : bool) then availableOrganizers ++ [org] else availableOrganizers)
  end.

Definition fetchAvailableOrganizers (dateNow : Z) (isPrakerja : bool)
    (organizers : option (list string)) : Async (list string) :=
  let organizers :=
    match organizers with
    | Some given => given
    | None => if isPrakerja then prakerjaOrganizers cfg else nonPrakerjaOrganizers cfg
    end in
  availableOrganizers_loop dateNow organizers [].

(** Lines 165 to 178 of [createEvent]: the organizer the event is created
    under. *)
Definition createEvent_organizer (dateNow : Z) (organizer : JS.str)
    (isPrakerja : bool) : Async JS.str :=
  current ← fetchCurrentOrganizer isPrakerja;
  let currentOrganizerCached := optional_organizer current in
  isAvailable ← isOrganizerAvailable dateNow currentOrganizerCached;
  if negb (JS.truthy organizer) then
    if JS.truthy currentOrganizerCached && isAvailable then
      mret currentOrganizerCached
    else
      organizers ← fetchAvailableOrganizers dateNow isPrakerja None;
      match organizers with
      | first :: _ => if JS.truthy (JS.Str first) then mret (JS.Str first) else mret organizer
      | [] => mret organizer
      end
  else mret organizer.

(** The [catch] block of [createEvent], with the value [organizer] has
    when the error arrives. Falling off its end returns [undefined]. *)
Definition createEvent_catch (dateNow : Z) (organizer : JS.str) (error : Error)
    : Async (option GoogleCalendarResultDto) :=
  if message_includes error "Calendar usage limit" then
    blockOrganizer dateNow organizer;;
    throw (HttpException "Calendar usage limit")
  else mret None.

(** Lines 179 to 206 of [createEvent], the rest of its [try] block:
    [events_insert] stands for [authorize] followed by [events.insert].
    The tracker call and the emitted event carry no pool state; of the
    emit only the read [studentAttendee.email] is kept, which throws when
    no attendee is a student. The tracker's read of
    [training ? training.title : program.name] cannot throw here: the
    description built before the [try] block has made the same read. *)
Definition createEvent_insert (events_insert : JS.str → ProviderReply)
    (attendees : list GoogleCalendarAttendeeDto) (isPrakerja : bool)
    (organizer : JS.str) : Async (option GoogleCalendarResultDto) :=
  let studentAttendee := find (λ attendee, bool_decide (type attendee = STUDENT)) attendees in
  status ← match events_insert organizer with
           | Responds status => mret status
           | Rejects message => throw (ProviderError message)
           end;
  organizer ← (if bool_decide (status = 200)
               then cacheOrganizerAndAttendee attendees organizer isPrakerja
               else mret organizer);
  match studentAttendee with
  | Some _ => mret (Some {| response_status := status; result_organizer := organizer |})
  | None => throw TypeError
  end.

(** The [try] statement of [createEvent], lines 164 to 213, with the
    value [isPrakerja] gets on line 165. The [catch] block sees the
    organizer of the moment the error arrives: the requested one while the
    organizer is being chosen, the chosen one afterwards. *)
Definition createEvent_try (events_insert : JS.str → ProviderReply) (dateNow : Z)
    (attendees : list GoogleCalendarAttendeeDto) (isPrakerja : bool)
    (organizer : JS.str) : Async (option GoogleCalendarResultDto) :=
  chosen ← try_catch (chosen ← createEvent_organizer dateNow organizer isPrakerja;
                      mret (inl chosen))
                     (λ error, result ← createEvent_catch dateNow organizer error;
                               mret (inr result));
  match chosen with
  | inr result => mret result
  | inl organizer =>
      try_catch (createEvent_insert events_insert attendees isPrakerja organizer)
                (createEvent_catch dateNow organizer)
  end.

(** [createEvent(createCalendar, organizer)]. [attendees], [training] and
    [program] are the fields of [createCalendar] that the pool part reads.
    The description is built on lines 136 to 145, before the [try] block:
    a request with neither training nor program fails there, and no
    handler is around it. *)
Definition createEvent (events_insert : JS.str → ProviderReply) (dateNow : Z)
    (attendees : list GoogleCalendarAttendeeDto) (training program : option ProductType)
    (organizer : JS.str) : Async (option GoogleCalendarResultDto) :=
  let organizer := orNull organizer in
  descriptionConstructor training program;;
  createEvent_try events_insert dateNow attendees (isPrakerja_of training program) organizer.

End GoogleCalendarService.

(** ** Reading the cache in specifications *)

(** The pool state persisted for a category, when the entry holds one. *)
Definition poolState (isPrakerja : bool) (c : Cache) : option GoogleCalendarCacheValueDto :=
  match value <$> c !! poolKey isPrakerja with
  | Some (DtoJson v) => Some v
  | _ => None
  end.

(** The instant of the suspension recorded for an organizer, when there is
    one. *)
Definition suspendedAt (organizer : JS.str) (c : Cache) : option Z :=
  match value <$> c !! blockKey organizer with
  | Some (DateJson t) => Some t
  | _ => None
  end.

(** The category's entry is absent or holds a pool state with its list of
    attendees. *)
Definition poolReadable (isPrakerja : bool) (c : Cache) : Prop :=
  match value <$> c !! poolKey isPrakerja with
  | None => True
  | Some (DtoJson v) => is_Some (uniqueAttendees v)
  | Some _ => False
  end.

(** The message of the parse error a category's entry gives rise to: the
    entry holds a non-empty text that is not JSON. *)
Definition poolParseError (isPrakerja : bool) (c : Cache) : option string :=
  match value <$> c !! poolKey isPrakerja with
  | Some (NotJson raw message) => if bool_decide (raw = "") then None else Some message
  | _ => None
  end.

(** [message] is the message of the parse error of one of the two
    categories' entries. *)
Definition isPoolParseError (c : Cache) (message : string) : Prop :=
  ∃ isPrakerja, poolParseError isPrakerja c = Some message.

(** Step 1 of the availability decision: the category's state names this
    organizer and its attendee count has reached the limit. *)
Definition quotaExhausted (cfg : Config) (organizer : JS.str) (isPrakerja : bool)
    (c : Cache) : bool :=
  match poolState isPrakerja c with
  | Some v =>
      bool_decide (organizer_of (JDto v) = organizer)
      && (Z.of_nat (length (default [] (uniqueAttendees v))) >=? externalAttendeesLimit cfg)
  | None => false
  end.

(** The organizer a category's state names as current. *)
Definition currentOrganizer (isPrakerja : bool) (c : Cache) : JS.str :=
  match poolState isPrakerja c with
  | Some v => organizer v
  | None => JS.undefined
  end.

(** [pat] is a suffix of [s]. *)
Definition endsWith (s pat : string) : bool :=
  (fix go (s : string) : bool :=
     bool_decide (s = pat) ||
     match s with
     | EmptyString => false
     | String _ s' => go s'
     end) s.

(** The address ends in [@sempurna.com], written exactly so. *)
Definition endsWithOrgLiteral (address : string) : bool :=
  endsWith address ("@" +:+ rskDomain).

(** No persisted pool state lists an address that ends in the literal. *)
Definition noOrgLiteralAttendee (c : Cache) : Prop :=
  ∀ isPrakerja v l address,
    poolState isPrakerja c = Some v →
    uniqueAttendees v = Some l →
    address ∈ l →
    endsWithOrgLiteral address = false.

(** A letter in lower case; host names do not distinguish case. *)
Definition toLowerCase_ascii (a : Ascii.ascii) : Ascii.ascii :=
  let n := Ascii.N_of_ascii a in
  if (65 <=? n)%N && (n <=? 90)%N then Ascii.ascii_of_N (n + 32) else a.

Fixpoint toLowerCase (s : string) : string :=
  match s with
  | EmptyString => EmptyString
  | String a s' => String (toLowerCase_ascii a) (toLowerCase s')
  end.

(** The domain part of an address: the text after its last [@]. *)
Fixpoint domainPart (address : string) : option string :=
  match address with
  | EmptyString => None
  | String a rest =>
      match domainPart rest with
      | Some domain => Some domain
      | None => if bool_decide (String a EmptyString = "@") then Some rest else None
      end
  end.

(** An address of the organization's own domain: its domain part is
    [sempurna.com], in whatever case it is written. *)
Definition belongsToOrgDomain (address : string) : bool :=
  match domainPart address with
  | Some domain => bool_decide (toLowerCase domain = rskDomain)
  | None => false
  end.

(** No persisted pool state lists an address of the organization's domain. *)
Definition noOrgDomainAttendee (c : Cache) : Prop :=
  ∀ isPrakerja v l address,
    poolState isPrakerja c = Some v →
    uniqueAttendees v = Some l →
    address ∈ l →
    belongsToOrgDomain address = false.

(** One [recordAssignment] request. *)
Record Assignment : Type := {
  assigned_attendees : list GoogleCalendarAttendeeDto;
  assigned_organizer : JS.str;
  assigned_isPrakerja : bool
}.

(** The cache after a sequence of [cacheOrganizerAndAttendee] calls. *)
Definition recordAssignments (cfg : Config) (calls : list Assignment) (c : Cache) : Cache :=
  foldl (λ c call,
           (cacheOrganizerAndAttendee cfg (assigned_attendees call)
              (assigned_organizer call) (assigned_isPrakerja call) c).2)
        c calls.

(** The iteration of section 4.2, step 3, as the specification words it:
    go through the candidates in declared order and return the first one
    for which [isAvailable] is true. *)
Fixpoint spec_firstAvailable (cfg : Config) (dateNow : Z) (candidates : list string)
    : Async (option string) :=
  match candidates with
  | [] => mret None
  | candidate :: rest =>
      isAvailable ← isOrganizerAvailable cfg dateNow (JS.Str candidate);
      if (isAvailable : bool) then mret (Some candidate)
      else spec_firstAvailable cfg dateNow rest
  end.

(** The configured candidate list of a category. *)
Definition candidates (cfg : Config) (isPrakerja : bool) : list string :=
  if isPrakerja then prakerjaOrganizers cfg else nonPrakerjaOrganizers cfg.

(** The cache after [put] of a pool state under the category's key. *)
Definition persisted (isPrakerja : bool) (v : GoogleCalendarCacheValueDto) (c : Cache) : Cache :=
  <[poolKey isPrakerja := {| value := DtoJson v; ttl := oneMonthInMilliSeconds |}]> c.

(** The cache [blockOrganizer] leaves when both categories can be read: the
    record is written, then the first category (prakerja before
    non-prakerja) whose current organizer is the suspended one loses its
    entry. *)
Definition blocked (dateNow : Z) (organizer : JS.str) (c : Cache) : Cache :=
  let c' := <[blockKey organizer := {| value := DateJson dateNow; ttl := 24 * 60 * 60 |}]> c in
  if JS.truthy (currentOrganizer true c)
     && bool_decide (organizer = currentOrganizer true c)
  then delete (poolKey true) c'
  else if JS.truthy (currentOrganizer false c)
          && bool_decide (organizer = currentOrganizer false c)
  then delete (poolKey false) c'
  else c'.

(** The outcome the specification gives [recordAssignment] when it replaces
    the state: the entry afterwards names the requested organizer and lists
    exactly the external addresses of the batch. *)
Definition replacedWholesale (cfg : Config) (attendees : list GoogleCalendarAttendeeDto)
    (organizerReq : JS.str) (isPrakerja : bool) (c : Cache) : Prop :=
  ∃ l,
    poolState isPrakerja (cacheOrganizerAndAttendee cfg attendees organizerReq isPrakerja c).2
    = Some (fromPayload (orNull organizerReq) (Some l))
    ∧ ∀ a, a ∈ l ↔ a ∈ email <$> attendees ∧ isExternal a = true.

(** The outcome the claim gives [recordAssignment] when the stored
    organizer is the requested one and the stored list is shorter than the
    limit: the persisted list holds the stored addresses and every external
    address of the batch. *)
Definition mergedWholeBatch (cfg : Config) (attendees : list GoogleCalendarAttendeeDto)
    (organizerReq : JS.str) (isPrakerja : bool) (c : Cache) : Prop :=
  ∀ v l,
    poolState isPrakerja c = Some v →
    uniqueAttendees v = Some l →
    organizer v = orNull organizerReq →
    Z.of_nat (length l) < externalAttendeesLimit cfg →
    ∃ merged,
      poolState isPrakerja (cacheOrganizerAndAttendee cfg attendees organizerReq isPrakerja c).2
      = Some (fromPayload (organizer v) (Some merged))
      ∧ ∀ a, a ∈ merged ↔ a ∈ l ∨ (a ∈ email <$> attendees ∧ isExternal a = true).

(** ** Sample data *)

Definition sampleConfig : Config := {|
  prakerjaOrganizers := ["a@pool.id"; "b@pool.id"; "c@pool.id"];
  nonPrakerjaOrganizers := ["d@pool.id"];
  externalAttendeesLimit := 2
|}.

Definition student (address : string) : GoogleCalendarAttendeeDto :=
  {| email := address; type := STUDENT |}.

Definition poolEntry (organizerName : string) (attendees : list string) : CacheEntry :=
  {| value := DtoJson (fromPayload (JS.Str organizerName) (Some attendees));
     ttl := oneMonthInMilliSeconds |}.

Definition blockEntry (t : Z) : CacheEntry :=
  {| value := DateJson t; ttl := 24 * 60 * 60 |}.

(** Organizer a is current for prakerja with one attendee counted. *)
Definition cacheWithA : Cache := {[ poolKey true := poolEntry "a@pool.id" ["x@gmail.com"] ]}.

(** Organizer a is current for prakerja and has reached the limit of 2. *)
Definition cacheWithFullA : Cache :=
  {[ poolKey true := poolEntry "a@pool.id" ["x@gmail.com"; "y@gmail.com"] ]}.

(** Organizer a is current in both categories and at the limit in both. *)
Definition cacheWithFullAInBoth : Cache :=
  <[poolKey false := poolEntry "a@pool.id" ["x@gmail.com"; "y@gmail.com"]]> cacheWithFullA.

(** Two events created under organizer a, one per category, each with two
    external attendees. *)
Definition callsFillingBoth : list Assignment := [
  {| assigned_attendees := [student "x@gmail.com"; student "y@gmail.com"];
     assigned_organizer := JS.Str "a@pool.id"; assigned_isPrakerja := true |};
  {| assigned_attendees := [student "x@gmail.com"; student "y@gmail.com"];
     assigned_organizer := JS.Str "a@pool.id"; assigned_isPrakerja := false |}
].

(** Organizer a is current in both categories, below the limit. *)
Definition cacheWithAInBoth : Cache :=
  <[poolKey false := poolEntry "a@pool.id" ["z@gmail.com"]]> cacheWithA.

(** The prakerja state names no organizer and counts one attendee: what a
    first assignment made without an organizer leaves. *)
Definition cacheWithNoOrganizer : Cache :=
  {[ poolKey true := {| value := DtoJson (fromPayload JS.null (Some ["x@gmail.com"]));
                        ttl := oneMonthInMilliSeconds |} ]}.

(** One recorded assignment whose attendees include an address of the
    organization written in capitals. *)
Definition callWithCapitals : list Assignment := [
  {| assigned_attendees := [student "amy@SEMPURNA.COM"; student "staff@sempurna.com"];
     assigned_organizer := JS.Str "a@pool.id"; assigned_isPrakerja := true |}
].

(** Organizer a was suspended at instant 1000. *)
Definition cacheWithASuspended : Cache := {[ blockKey (JS.Str "a@pool.id") := blockEntry 1000 ]}.

(** Three recorded assignments, each with an address of the organization
    among the attendees. *)
Definition sampleCalls : list Assignment := [
  {| assigned_attendees := [student "x@gmail.com"; student "staff@sempurna.com"];
     assigned_organizer := JS.Str "a@pool.id"; assigned_isPrakerja := true |};
  {| assigned_attendees := [student "boss@sempurna.com"; student "y@gmail.com"];
     assigned_organizer := JS.Str "a@pool.id"; assigned_isPrakerja := true |};
  {| assigned_attendees := [student "hr@sempurna.com"];
     assigned_organizer := JS.Str "d@pool.id"; assigned_isPrakerja := false |}
].

(** The outcome the specification gives [suspend]: every category whose
    state names the organizer as current has lost its entry. *)
Definition deletesEveryMatch (dateNow : Z) (organizer : JS.str) (c : Cache) : Prop :=
  ∀ isPrakerja,
    currentOrganizer isPrakerja c = organizer →
    (blockOrganizer dateNow organizer c).2 !! poolKey isPrakerja = None.

(** The three prakerja candidates were suspended at instant 1000; no
    category has a state. *)
Definition cacheAllSuspended : Cache :=
  <[blockKey (JS.Str "a@pool.id") := blockEntry 1000]>
    (<[blockKey (JS.Str "b@pool.id") := blockEntry 1000]>
       (<[blockKey (JS.Str "c@pool.id") := blockEntry 1000]> ∅)).

(** Candidates a and b are suspended, c is not. *)
Definition cacheOnlyCFree : Cache :=
  <[blockKey (JS.Str "a@pool.id") := blockEntry 1000]>
    (<[blockKey (JS.Str "b@pool.id") := blockEntry 1000]> ∅).

(** The prakerja entry holds a text that is not JSON. *)
Definition cacheWithMalformedPool : Cache :=
  {[ poolKey true := {| value := NotJson "{" "Unexpected end of JSON input";
                        ttl := oneMonthInMilliSeconds |} ]}.

(** The double quote. *)
Definition doubleQuote : string :=
  String (Ascii.Ascii false true false false false true false false) EmptyString.

(** The prakerja entry holds the text [Calendar usage limit], which is not
    JSON; the message is the one current V8 gives, which quotes a text this
    short in full. *)
Definition cacheWithQuotedLimit : Cache :=
  {[ poolKey true :=
       {| value := NotJson "Calendar usage limit"
                     ("Unexpected token 'C', " +:+ doubleQuote +:+ "Calendar usage limit"
                      +:+ doubleQuote +:+ " is not valid JSON");
          ttl := oneMonthInMilliSeconds |} ]}.

(** A provider that accepts the insert only when no organizer is given. *)
Definition acceptsNoOrganizer (organizer : JS.str) : ProviderReply :=
  if bool_decide (organizer = JS.null) then Responds 200 else Rejects "unexpected organizer".

(** The outcome the specification gives the selection when nobody is
    available: the condition is signalled to the caller. *)
Definition signalsNoOrganizer (cfg : Config) (events_insert : JS.str → ProviderReply)
    (dateNow : Z) (attendees : list GoogleCalendarAttendeeDto)
    (training program : option ProductType) (organizer : JS.str) (c : Cache) : Prop :=
  ∃ e c',
    createEvent cfg events_insert dateNow attendees training program organizer c
    = (Thrown e, c').

(** The outcome the specification gives a read of malformed data: the same
    as with the entry absent. *)
Definition readsAsAbsent (cfg : Config) (dateNow : Z) (isPrakerja : bool) (c : Cache) : Prop :=
  let absent := delete (poolKey isPrakerja) c in
  (fetchCurrentOrganizer isPrakerja c).1 = (fetchCurrentOrganizer isPrakerja absent).1
  ∧ (∀ attendees organizer,
       (cacheOrganizerAndAttendee cfg attendees organizer isPrakerja c).1
       = (cacheOrganizerAndAttendee cfg attendees organizer isPrakerja absent).1)
  ∧ (∀ organizer,
       (isOrganizerAvailable cfg dateNow organizer c).1
       = (isOrganizerAvailable cfg dateNow organizer absent).1).

(** ** Further methods of the service *)

(** What [googleCalendar.events.get] does for [updateEventAttendee]: it
    answers with the event, whose [attendees] may be missing, or throws. *)
Inductive EventReply : Type :=
| Found (attendees : option (list GoogleCalendarAttendeeDto))
| NotFound (message : string).

(** The [message] argument of [GoogleCalendarUpdateResultDto.fromPayload]:
    [null], a literal, or the message of the error caught. *)
Inductive ResultMessage : Type :=
| noMessage
| messageText (text : string)
| messageOf (error : Error).

(** What [updateEventAttendee] returns. The class is declared outside
    [src/]; [fromPayload] is given a success flag and a message. *)
Record GoogleCalendarUpdateResultDto : Type := updateResult {
  success : bool;
  message : ResultMessage
}.

(** [error.message] *)
Definition error_message (e : Error) : ResultMessage :=
  match e with
  | SyntaxError m | ProviderError m | HttpException m => messageText m
  | TypeError => messageOf e
  end.

(** The filter of [updateEventAttendee]: the new attendees whose address no
    attendee of the event has. *)
Definition filteredNewAttendees (oldAttendees newAttendees : list GoogleCalendarAttendeeDto)
    : list GoogleCalendarAttendeeDto :=
  filter (λ attendee,
            ¬ Exists (λ oldAttendee, email oldAttendee = email attendee) oldAttendees)
         newAttendees.

Section FurtherMethods.

Variable cfg : Config.

(** [fetchCacheData(sufixKey)]: the entry is parsed whatever it holds. *)
Definition fetchCacheData (sufixKey : string) : Async (option JsonValue) :=
  let cacheKey := gcalMainKey +:+ "-" +:+ sufixKey in
  data ← RskCacheService.get cacheKey;
  deserializeCacheValue data.

(** The [catch] block of [updateEventAttendee]. *)
Definition updateEventAttendee_catch (dateNow : Z) (organizer : JS.str) (error : Error)
    : Async GoogleCalendarUpdateResultDto :=
  if message_includes error "Calendar usage limit" then
    blockOrganizer dateNow organizer;;
    mret (updateResult false (messageText "Calendar usage limit"))
  else mret (updateResult false (error_message error)).

(** The [try] block of [updateEventAttendee]. [events_get] and
    [events_update] stand for [authorize] followed by the provider call.
    The tracker call reads [training ? training.title : program.name],
    which throws when neither is given; the emitted event reads
    [studentAttendee.email]. *)
Definition updateEventAttendee_try
    (events_get : JS.str → string → EventReply)
    (events_update : JS.str → string → list GoogleCalendarAttendeeDto → ProviderReply)
    (eventId : string) (newAttendees : list GoogleCalendarAttendeeDto)
    (training program : option ProductType) (organizer : JS.str)
    : Async GoogleCalendarUpdateResultDto :=
  event_attendees ← match events_get organizer eventId with
                    | Found attendees => mret attendees
                    | NotFound message => throw (ProviderError message)
                    end;
  match newAttendees with
  | [] => mret ()
  | _ :: _ =>
      oldAttendees ← match event_attendees with
                     | Some attendees => mret attendees
                     | None => throw TypeError
                     end;
      let filtered := filteredNewAttendees oldAttendees newAttendees in
      match filtered with
      | [] => mret ()
      | _ :: _ =>
          status ← match events_update organizer eventId (oldAttendees ++ filtered) with
                   | Responds status => mret status
                   | Rejects message => throw (ProviderError message)
                   end;
          let studentAttendee :=
            find (λ attendee, bool_decide (type attendee = STUDENT)) newAttendees in
          match studentAttendee with
          | Some _ => mret ()
          | None => throw TypeError
          end;;
          if bool_decide (status = 200) then
            match training, program with
            | None, None => throw TypeError
            | _, _ => mret ()
            end;;
            let isPrakerja :=
              bool_decide (training = Some PRAKERJA) || bool_decide (program = Some PRAKERJA) in
            cacheOrganizerAndAttendee cfg newAttendees organizer isPrakerja;;
            mret ()
          else mret ()
      end
  end;;
  mret (updateResult true noMessage).

Definition updateEventAttendee
    (events_get : JS.str → string → EventReply)
    (events_update : JS.str → string → list GoogleCalendarAttendeeDto → ProviderReply)
    (dateNow : Z) (eventId : string) (newAttendees : list GoogleCalendarAttendeeDto)
    (training program : option ProductType) (organizer : JS.str)
    : Async GoogleCalendarUpdateResultDto :=
  let organizer := orNull organizer in
  try_catch
    (updateEventAttendee_try events_get events_update eventId newAttendees
       training program organizer)
    (updateEventAttendee_catch dateNow organizer).

End FurtherMethods.

(** ** Caches the service can read *)

(** Every entry under a category's key holds a pool state with its list, and
    every entry under an organizer's suspension key holds a date: the two
    kinds of text the service writes, each under its own key. *)
Definition wellFormed (c : Cache) : Prop :=
  poolReadable true c ∧ poolReadable false c
  ∧ ∀ organizer e, c !! blockKey organizer = Some e → ∃ t, value e = DateJson t.

(** How a cache may differ after a run: keys in [written] may hold anything,
    keys in [deleted] may have lost their entry, every other key is as it
    was. *)
Definition changes (written deleted : string → Prop) (c c' : Cache) : Prop :=
  ∀ key, c' !! key = c !! key ∨ written key ∨ (deleted key ∧ c' !! key = None).

(** A computation that changes the cache within these bounds, whether it
    returns or throws. *)
Definition Changes {A} (written deleted : string → Prop) (m : Async A) : Prop :=
  ∀ c, changes written deleted c (m c).2.

(** A computation that leaves a cache the service can read when it starts
    from one, whether it returns or throws. *)
Definition KeepsWellFormed {A} (m : Async A) : Prop :=
  ∀ c, wellFormed c → wellFormed (m c).2.

Definition isPoolKey (key : string) : Prop := ∃ isPrakerja, key = poolKey isPrakerja.

(** An organizer that can be used right away: quota-exhausted in neither
    category and without a suspension record. *)
Definition usable_now (cfg : Config) (name : string) (c : Cache) : Prop :=
  quotaExhausted cfg (JS.Str name) true c = false
  ∧ quotaExhausted cfg (JS.Str name) false c = false
  ∧ suspendedAt (JS.Str name) c = None.

(** Every persisted list is at most one batch of [batch] attendees past the
    last length below the limit. *)
Definition overshootBounded (cfg : Config) (batch : nat) (c : Cache) : Prop :=
  ∀ isPrakerja v l,
    poolState isPrakerja c = Some v →
    uniqueAttendees v = Some l →
    Z.of_nat (length l) ≤ Z.max 0 (externalAttendeesLimit cfg - 1) + Z.of_nat batch.

(** ** Requests *)

(** A call of one of the service's methods that use the cache. *)
Inductive Request : Type :=
| CacheOrganizerAndAttendee (attendees : list GoogleCalendarAttendeeDto)
    (organizerReq : JS.str) (isPrakerja : bool)
| FetchCurrentOrganizer (isPrakerja : bool)
| FetchAvailableOrganizers (dateNow : Z) (isPrakerja : bool) (organizers : option (list string))
| IsOrganizerAvailable (dateNow : Z) (organizer : JS.str)
| BlockOrganizer (dateNow : Z) (organizer : JS.str)
| CreateEvent (events_insert : JS.str → ProviderReply) (dateNow : Z)
    (attendees : list GoogleCalendarAttendeeDto) (training program : option ProductType)
    (organizer : JS.str)
| UpdateEventAttendee (events_get : JS.str → string → EventReply)
    (events_update : JS.str → string → list GoogleCalendarAttendeeDto → ProviderReply)
    (dateNow : Z) (eventId : string) (newAttendees : list GoogleCalendarAttendeeDto)
    (training program : option ProductType) (organizer : JS.str).

(** The error a computation throws, if any. *)
Definition thrown {A} (r : Outcome A * Cache) : option Error :=
  match r.1 with
  | Returned _ => None
  | Thrown e => Some e
  end.

(** Serving a request: the error thrown, if any, and the cache left. *)
Definition serve (cfg : Config) (request : Request) (c : Cache) : option Error * Cache :=
  match request with
  | CacheOrganizerAndAttendee attendees organizerReq isPrakerja =>
      let r := cacheOrganizerAndAttendee cfg attendees organizerReq isPrakerja c in
      (thrown r, r.2)
  | FetchCurrentOrganizer isPrakerja =>
      let r := fetchCurrentOrganizer isPrakerja c in (thrown r, r.2)
  | FetchAvailableOrganizers dateNow isPrakerja organizers =>
      let r := fetchAvailableOrganizers cfg dateNow isPrakerja organizers c in (thrown r, r.2)
  | IsOrganizerAvailable dateNow organizer =>
      let r := isOrganizerAvailable cfg dateNow organizer c in (thrown r, r.2)
  | BlockOrganizer dateNow organizer =>
      let r := blockOrganizer dateNow organizer c in (thrown r, r.2)
  | CreateEvent events_insert dateNow attendees training program organizer =>
      let r := createEvent cfg events_insert dateNow attendees training program organizer c in
      (thrown r, r.2)
  | UpdateEventAttendee events_get events_update dateNow eventId newAttendees
      training program organizer =>
      let r := updateEventAttendee cfg events_get events_update dateNow eventId newAttendees
                 training program organizer c in
      (thrown r, r.2)
  end.

(** The caches and errors along a sequence of requests. *)
Fixpoint serveAll (cfg : Config) (requests : list Request) (c : Cache)
    : list (option Error) * Cache :=
  match requests with
  | [] => ([], c)
  | request :: rest =>
      let r := serve cfg request c in
      let rs := serveAll cfg rest r.2 in
      (r.1 :: rs.1, rs.2)
  end.

(** The errors a request may end in on a cache the service can read: an
    event request that names neither a training nor a program is rejected
    with a [TypeError], any other event request throws nothing or the usage
    limit exception, and the other methods throw nothing. *)
Definition expectedError (request : Request) (error : option Error) : Prop :=
  match request with
  | CreateEvent _ _ _ None None _ => error = Some TypeError
  | CreateEvent _ _ _ _ _ _ =>
      error = None ∨ error = Some (HttpException "Calendar usage limit")
  | _ => error = None
  end.

(** A provider that answers every insert with status 200. *)
Definition alwaysInserts (organizer : JS.str) : ProviderReply := Responds 200.

(** A provider that rejects every insert with the usage limit message. *)
Definition usageLimitReached (organizer : JS.str) : ProviderReply :=
  Rejects "Calendar usage limits exceeded.".

(** A day of requests: three events for prakerja, availability checks, a
    provider rejection, a suspension, a later check and an event request
    that names neither a training nor a program. *)
Definition sampleRequests : list Request := [
  CreateEvent alwaysInserts 1000 [student "x@gmail.com"; student "y@gmail.com"]
    (Some PRAKERJA) None JS.null;
  CreateEvent alwaysInserts 2000 [student "z@gmail.com"] None (Some PRAKERJA) JS.null;
  IsOrganizerAvailable 3000 (JS.Str "a@pool.id");
  CreateEvent usageLimitReached 4000 [student "w@gmail.com"] (Some PRAKERJA) None JS.null;
  FetchAvailableOrganizers 5000 true None;
  CacheOrganizerAndAttendee [student "v@gmail.com"] (JS.Str "c@pool.id") false;
  BlockOrganizer 6000 (JS.Str "c@pool.id");
  IsOrganizerAvailable 90000000 (JS.Str "a@pool.id");
  FetchCurrentOrganizer false;
  CreateEvent alwaysInserts 90001000 [student "u@gmail.com"] None None JS.null
].

(** * Properties *)

(** Unfolds the monad and the cache service. *)
Ltac run :=
  unfold mbind, Async_bind, mret, Async_ret, throw, try_catch, when,
    RskCacheService.get, RskCacheService.put, RskCacheService.delete.

(** ** Strings and sets *)

Lemma startsWith_refl s : JS.startsWith s s = true.
Proof.
  induction s as [|a s IH]; simpl; [done|].
  rewrite bool_decide_eq_true_2 by done. exact IH.
Qed.

Lemma startsWith_app s rest : JS.startsWith (s +:+ rest) s = true.
Proof.
  induction s as [|a s IH]; simpl; [done|].
  rewrite bool_decide_eq_true_2 by done. exact IH.
Qed.

Lemma includes_refl s : JS.includes s s = true.
Proof.
  assert (H : JS.includes s s = JS.startsWith s s ||
                match s with EmptyString => false | String _ s' => JS.includes s' s end)
    by (by destruct s).
  rewrite H, startsWith_refl. done.
Qed.

Lemma includes_cons a s pat : JS.includes s pat = true → JS.includes (String a s) pat = true.
Proof. intros H. simpl. rewrite H. apply orb_true_r. Qed.

(** [includes] is substring containment. *)
Lemma includes_app l pat r : JS.includes (l +:+ pat +:+ r) pat = true.
Proof.
  induction l as [|a l IH]; simpl.
  - destruct (pat +:+ r) eqn:E; simpl.
    + destruct pat; [done|discriminate].
    + rewrite <- E, startsWith_app. done.
  - rewrite IH. apply orb_true_r.
Qed.

Lemma includes_spec s pat :
  JS.includes s pat = true → ∃ l r, s = l +:+ pat +:+ r.
Proof.
  assert (Hsw : ∀ s pat, JS.startsWith s pat = true → ∃ r, s = pat +:+ r).
  { clear. intros s pat; revert s. induction pat as [|a pat IH]; intros s H; simpl in *.
    - by exists s.
    - destruct s as [|b s]; [done|].
      apply andb_true_iff in H as [Hab H]. apply bool_decide_eq_true in Hab as ->.
      destruct (IH _ H) as [r ->]. by exists r. }
  induction s as [|a s IH]; simpl; intros H.
  - rewrite orb_false_r in H. destruct (Hsw _ _ H) as [r Hr]. by exists "", r.
  - apply orb_true_iff in H as [H|H].
    + destruct (Hsw _ _ H) as [r Hr]. by exists "", r.
    + destruct (IH H) as (l & r & ->). by exists (String a l), r.
Qed.

Lemma endsWith_includes address domain :
  endsWith address ("@" +:+ domain) = true → JS.includes address domain = true.
Proof.
  unfold endsWith. induction address as [|a s IH]; intros H.
  - apply orb_true_iff in H as [H|H]; [|done].
    apply bool_decide_eq_true in H. simpl in H. done.
  - apply orb_true_iff in H as [H|H].
    + apply bool_decide_eq_true in H. simpl in H. injection H as -> ->.
      apply includes_cons, includes_refl.
    + apply includes_cons, IH, H.
Qed.

Lemma endsWithOrgLiteral_includes address :
  endsWithOrgLiteral address = true → JS.includes address rskDomain = true.
Proof. apply endsWith_includes. Qed.

Lemma endsWithOrgLiteral_not_external address :
  isExternal address = true → endsWithOrgLiteral address = false.
Proof.
  unfold isExternal. intros H. destruct (endsWithOrgLiteral address) eqn:E; [|done].
  apply endsWithOrgLiteral_includes in E. rewrite E in H. done.
Qed.

Lemma Set_add_elem s x a : a ∈ JS.Set_add s x ↔ a ∈ s ∨ a = x.
Proof.
  unfold JS.Set_add. case_bool_decide as Hx.
  - split; [by left|]. intros [?| ->]; done.
  - rewrite elem_of_app, list_elem_of_singleton. done.
Qed.

Lemma Set_add_NoDup s x : NoDup s → NoDup (JS.Set_add s x).
Proof.
  intros Hs. unfold JS.Set_add. case_bool_decide as Hx; [done|].
  apply NoDup_app. split_and!; [done| |apply NoDup_singleton].
  intros y Hy ->%list_elem_of_singleton. done.
Qed.

Lemma Set_add_length s x : (length (JS.Set_add s x) ≤ S (length s))%nat.
Proof.
  unfold JS.Set_add. case_bool_decide; [lia|]. rewrite length_app. simpl. lia.
Qed.

Lemma Set_add_fresh s x : x ∉ s → JS.Set_add s x = s ++ [x].
Proof. intros Hx. unfold JS.Set_add. by rewrite bool_decide_eq_false_2. Qed.

Lemma foldl_Set_add_elem l s a : a ∈ foldl JS.Set_add s l ↔ a ∈ s ∨ a ∈ l.
Proof.
  revert s. induction l as [|x l IH]; intros s; simpl.
  - rewrite elem_of_nil. tauto.
  - rewrite IH, Set_add_elem, elem_of_cons. tauto.
Qed.

Lemma foldl_Set_add_NoDup l s : NoDup s → NoDup (foldl JS.Set_add s l).
Proof.
  revert s. induction l as [|x l IH]; intros s Hs; simpl; [done|].
  apply IH, Set_add_NoDup, Hs.
Qed.

Lemma foldl_Set_add_fresh l s : NoDup (s ++ l) → foldl JS.Set_add s l = s ++ l.
Proof.
  revert s. induction l as [|x l IH]; intros s Hs; simpl.
  - by rewrite app_nil_r.
  - assert (x ∉ s) as Hx.
    { apply NoDup_app in Hs as (_ & Hs & _). intros Hin. apply (Hs x Hin). by left. }
    rewrite (Set_add_fresh _ _ Hx), IH; rewrite <- app_assoc; done.
Qed.

Lemma Set_new_elem l a : a ∈ JS.Set_new l ↔ a ∈ l.
Proof. unfold JS.Set_new. rewrite foldl_Set_add_elem, elem_of_nil. tauto. Qed.

Lemma Set_new_NoDup l : NoDup (JS.Set_new l).
Proof. apply foldl_Set_add_NoDup, NoDup_nil_2. Qed.

(** A list without repetition is its own [Set]. *)
Lemma Set_new_id l : NoDup l → JS.Set_new l = l.
Proof. intros Hl. unfold JS.Set_new. by rewrite foldl_Set_add_fresh. Qed.

Lemma Set_new_length l : (length (JS.Set_new l) ≤ length l)%nat.
Proof.
  unfold JS.Set_new.
  assert (H : ∀ s, (length (foldl JS.Set_add s l) ≤ length s + length l)%nat).
  { induction l as [|x l IH]; intros s; simpl; [lia|].
    specialize (IH (JS.Set_add s x)). pose proof (Set_add_length s x). lia. }
  apply (H []).
Qed.

(** ** The attendee loops of [cacheOrganizerAndAttendee] *)

Lemma newAttendees_elem attendees a :
  a ∈ newAttendees attendees ↔ a ∈ email <$> attendees ∧ isExternal a = true.
Proof.
  induction attendees as [|att rest IH]; simpl.
  - rewrite elem_of_nil. tauto.
  - destruct (isExternal (email att)) eqn:E; rewrite ?elem_of_cons, IH, ?elem_of_cons.
    + split; [intros [->|[??]]|intros [[->|?] ?]]; auto.
    + split; [intros [??]; auto|intros [[->|?] ?]; [congruence|auto]].
Qed.

Lemma foldl_addAttendee_elem attendees s a :
  a ∈ foldl addAttendee s attendees ↔
  a ∈ s ∨ (a ∈ email <$> attendees ∧ isExternal a = true).
Proof.
  revert s. induction attendees as [|att rest IH]; intros s; simpl.
  - rewrite elem_of_nil. tauto.
  - rewrite IH, elem_of_cons. unfold addAttendee.
    destruct (isExternal (email att)) eqn:E.
    + rewrite Set_add_elem. split; [intros [[?| ->]|[??]]|intros [?|[[->|?] ?]]]; auto.
    + split; [intros [?|[??]]|intros [?|[[->|?] ?]]]; auto. congruence.
Qed.

Lemma foldl_addAttendee_NoDup attendees s :
  NoDup s → NoDup (foldl addAttendee s attendees).
Proof.
  revert s. induction attendees as [|att rest IH]; intros s Hs; simpl; [done|].
  apply IH. unfold addAttendee. destruct (isExternal _); [by apply Set_add_NoDup|done].
Qed.

Lemma foldl_addAttendee_length attendees s :
  (length (foldl addAttendee s attendees) ≤ length s + length attendees)%nat.
Proof.
  revert s. induction attendees as [|att rest IH]; intros s; simpl; [lia|].
  specialize (IH (addAttendee s att)).
  assert (length (addAttendee s att) ≤ S (length s))%nat; [|lia].
  unfold addAttendee. destruct (isExternal _); [apply Set_add_length|lia].
Qed.

(** A batch of distinct external addresses, none of them stored yet, is
    appended whole. *)
Lemma foldl_addAttendee_fresh attendees s :
  Forall (λ att, isExternal (email att) = true) attendees →
  NoDup (s ++ (email <$> attendees)) →
  foldl addAttendee s attendees = s ++ (email <$> attendees).
Proof.
  revert s. induction attendees as [|att rest IH]; intros s Hext Hnd; simpl.
  - by rewrite app_nil_r.
  - inversion Hext as [|?? Hatt Hrest]; subst.
    unfold addAttendee at 2. rewrite Hatt.
    assert (email att ∉ s) as Hx.
    { simpl in Hnd. apply NoDup_app in Hnd as (_ & Hnd & _).
      intros Hin. apply (Hnd _ Hin). by left. }
    rewrite (Set_add_fresh _ _ Hx), IH; [by rewrite <- app_assoc|done|].
    by rewrite <- app_assoc.
Qed.

(** ** Keys *)

Lemma blockKey_poolKey organizer isPrakerja : blockKey organizer ≠ poolKey isPrakerja.
Proof. by destruct isPrakerja. Qed.

Lemma poolKey_inj b1 b2 : poolKey b1 = poolKey b2 → b1 = b2.
Proof. by destruct b1, b2. Qed.

Lemma poolKey_prakerja : gcalMainKey +:+ "-prakerja" = poolKey true.
Proof. reflexivity. Qed.

Lemma poolKey_non_prakerja : gcalMainKey +:+ "-non-prakerja" = poolKey false.
Proof. reflexivity. Qed.

(** ** Running the monad *)

Lemma bind_returned {A B} (m : Async A) (k : A → Async B) c a c' :
  m c = (Returned a, c') → (m ≫= k) c = k a c'.
Proof. intros H. unfold mbind, Async_bind. by rewrite H. Qed.

Lemma bind_thrown {A B} (m : Async A) (k : A → Async B) c e c' :
  m c = (Thrown e, c') → (m ≫= k) c = (Thrown e, c').
Proof. intros H. unfold mbind, Async_bind. by rewrite H. Qed.

(** ** Reading a category's state *)

Lemma fetchCurrentOrganizer_eq isPrakerja (c : Cache) :
  fetchCurrentOrganizer isPrakerja c =
  match value <$> c !! poolKey isPrakerja with
  | None => (Returned None, c)
  | Some (NotJson raw message) =>
      if bool_decide (raw = "") then (Returned None, c) else (Thrown (SyntaxError message), c)
  | Some (DtoJson v) => (Returned (Some (JDto v)), c)
  | Some (DateJson t) => (Returned (Some (JDateString t)), c)
  end.
Proof.
  unfold fetchCurrentOrganizer. run.
  destruct (value <$> c !! poolKey isPrakerja) as [[raw message|v|t]|]; simpl; try done.
  by case_bool_decide.
Qed.

(** A read either returns or throws the parse error of the category's
    entry; it never writes. *)
Lemma fetchCurrentOrganizer_cases isPrakerja (c : Cache) :
  (∃ current, fetchCurrentOrganizer isPrakerja c = (Returned current, c))
  ∨ ∃ message, poolParseError isPrakerja c = Some message
               ∧ fetchCurrentOrganizer isPrakerja c = (Thrown (SyntaxError message), c).
Proof.
  rewrite fetchCurrentOrganizer_eq. unfold poolParseError.
  destruct (value <$> c !! poolKey isPrakerja) as [[raw message|v|t]|]; eauto.
  case_bool_decide; eauto.
Qed.

Lemma fetchCurrentOrganizer_readable isPrakerja (c : Cache) :
  poolReadable isPrakerja c →
  fetchCurrentOrganizer isPrakerja c = (Returned (JDto <$> poolState isPrakerja c), c).
Proof.
  rewrite fetchCurrentOrganizer_eq. unfold poolReadable, poolState.
  by destruct (value <$> c !! poolKey isPrakerja) as [[raw message|v|t]|].
Qed.

Lemma shouldBlockCurrentOrganizer_readable cfg organizer isPrakerja (c c' : Cache) :
  poolReadable isPrakerja c →
  shouldBlockCurrentOrganizer cfg (JDto <$> poolState isPrakerja c) organizer c' =
  (Returned (quotaExhausted cfg organizer isPrakerja c), c').
Proof.
  unfold poolReadable, quotaExhausted, poolState, shouldBlockCurrentOrganizer.
  destruct (value <$> c !! poolKey isPrakerja) as [[raw message|v|t]|]; simpl; try done.
  intros [l Hl]. rewrite Hl. simpl. by case_bool_decide.
Qed.

Lemma optional_organizer_poolState isPrakerja (c : Cache) :
  optional_organizer (JDto <$> poolState isPrakerja c) = currentOrganizer isPrakerja c.
Proof. unfold currentOrganizer. by destruct (poolState isPrakerja c). Qed.

(** ** [cacheOrganizerAndAttendee], branch by branch *)

Section RecordAssignment.

Variable cfg : Config.
Variables (attendees : list GoogleCalendarAttendeeDto) (organizerReq : JS.str)
          (isPrakerja : bool) (c : Cache).

(** No entry: the state is created from the request. *)
Lemma cacheOrganizerAndAttendee_absent :
  c !! poolKey isPrakerja = None →
  cacheOrganizerAndAttendee cfg attendees organizerReq isPrakerja c =
  (Returned (orNull organizerReq),
   persisted isPrakerja
     (fromPayload (orNull organizerReq) (Some (newAttendees attendees))) c).
Proof. intros H. unfold cacheOrganizerAndAttendee. run. by rewrite H. Qed.

(** A text that is not JSON: the parse error leaves the method. *)
Lemma cacheOrganizerAndAttendee_not_json e raw message :
  c !! poolKey isPrakerja = Some e → value e = NotJson raw message →
  cacheOrganizerAndAttendee cfg attendees organizerReq isPrakerja c =
  (Thrown (SyntaxError message), c).
Proof. intros H Hv. unfold cacheOrganizerAndAttendee. run. rewrite H. simpl. by rewrite Hv. Qed.

(** Another organizer is stored, or the stored one is empty: the entry
    is written back as it was. *)
Lemma cacheOrganizerAndAttendee_other e v :
  c !! poolKey isPrakerja = Some e → value e = DtoJson v →
  JS.truthy (organizer v) && looseEq (organizer v) (orNull organizerReq) = false →
  cacheOrganizerAndAttendee cfg attendees organizerReq isPrakerja c =
  (Returned (organizer v), persisted isPrakerja v c).
Proof.
  intros H Hv Hne. unfold cacheOrganizerAndAttendee. run. rewrite H. simpl.
  rewrite Hv. simpl. rewrite Hne. by destruct v.
Qed.

(** The stored list has reached the limit: the entry is written back as
    it was. *)
Lemma cacheOrganizerAndAttendee_full e v l :
  c !! poolKey isPrakerja = Some e → value e = DtoJson v →
  uniqueAttendees v = Some l →
  externalAttendeesLimit cfg ≤ Z.of_nat (length l) →
  cacheOrganizerAndAttendee cfg attendees organizerReq isPrakerja c =
  (Returned (organizer v), persisted isPrakerja v c).
Proof.
  intros H Hv Hl Hfull. unfold cacheOrganizerAndAttendee. run. rewrite H. simpl.
  rewrite Hv. simpl. rewrite Hl.
  destruct (JS.truthy (organizer v) && _); simpl; [|by destruct v; simplify_eq/=].
  destruct (Z.ltb_spec (Z.of_nat (length l)) (externalAttendeesLimit cfg)); [lia|].
  by destruct v; simplify_eq/=.
Qed.

(** The stored organizer is the requested one and there is room: the
    batch is merged into the stored set. *)
Lemma cacheOrganizerAndAttendee_merge e v l :
  c !! poolKey isPrakerja = Some e → value e = DtoJson v →
  JS.truthy (organizer v) && looseEq (organizer v) (orNull organizerReq) = true →
  uniqueAttendees v = Some l →
  Z.of_nat (length l) < externalAttendeesLimit cfg →
  cacheOrganizerAndAttendee cfg attendees organizerReq isPrakerja c =
  (Returned (organizer v),
   persisted isPrakerja
     (fromPayload (organizer v) (Some (foldl addAttendee (JS.Set_new l) attendees))) c).
Proof.
  intros H Hv Heq Hl Hroom. unfold cacheOrganizerAndAttendee. run. rewrite H. simpl.
  rewrite Hv. simpl. rewrite Heq, Hl. simpl.
  destruct (Z.ltb_spec (Z.of_nat (length l)) (externalAttendeesLimit cfg)); [done|lia].
Qed.

(** The stored organizer is the requested one but the entry has no
    attendee list: reading its length throws. *)
Lemma cacheOrganizerAndAttendee_no_list e v :
  c !! poolKey isPrakerja = Some e → value e = DtoJson v →
  JS.truthy (organizer v) && looseEq (organizer v) (orNull organizerReq) = true →
  uniqueAttendees v = None →
  cacheOrganizerAndAttendee cfg attendees organizerReq isPrakerja c =
  (Thrown TypeError, c).
Proof.
  intros H Hv Heq Hl. unfold cacheOrganizerAndAttendee. run. rewrite H. simpl.
  rewrite Hv. simpl. by rewrite Heq, Hl.
Qed.

(** A serialized date under the category's key parses to a string, which
    has neither property. *)
Lemma cacheOrganizerAndAttendee_date e t :
  c !! poolKey isPrakerja = Some e → value e = DateJson t →
  cacheOrganizerAndAttendee cfg attendees organizerReq isPrakerja c =
  (Returned JS.undefined, persisted isPrakerja (fromPayload JS.undefined None) c).
Proof.
  intros H Hv. unfold cacheOrganizerAndAttendee. run. rewrite H. simpl. by rewrite Hv.
Qed.

End RecordAssignment.

(** ** Suspension *)

Lemma poolState_insert_blockKey isPrakerja organizer entry (c : Cache) :
  poolState isPrakerja (<[blockKey organizer := entry]> c) = poolState isPrakerja c.
Proof.
  unfold poolState. rewrite lookup_insert_ne; [done|apply blockKey_poolKey].
Qed.

Lemma poolReadable_insert_blockKey isPrakerja organizer entry (c : Cache) :
  poolReadable isPrakerja c → poolReadable isPrakerja (<[blockKey organizer := entry]> c).
Proof.
  unfold poolReadable. rewrite lookup_insert_ne; [done|apply blockKey_poolKey].
Qed.

Lemma blockOrganizer_readable dateNow organizer (c : Cache) :
  poolReadable true c → poolReadable false c →
  blockOrganizer dateNow organizer c = (Returned (), blocked dateNow organizer c).
Proof.
  intros HP HNP. unfold blockOrganizer, blocked.
  set (entry := {| value := DateJson dateNow; ttl := 24 * 60 * 60 |}).
  set (c' := <[blockKey organizer := entry]> c).
  assert (RskCacheService.put (blockKey organizer)
            (serializeCacheValue (DateData dateNow)) (24 * 60 * 60) c
          = (Returned (), c')) as Hput by done.
  rewrite (bind_returned _ _ _ _ _ Hput).
  rewrite (bind_returned _ _ _ _ _
             (fetchCurrentOrganizer_readable true c' (poolReadable_insert_blockKey _ _ _ _ HP))).
  rewrite (bind_returned _ _ _ _ _
             (fetchCurrentOrganizer_readable false c' (poolReadable_insert_blockKey _ _ _ _ HNP))).
  rewrite !optional_organizer_poolState. unfold currentOrganizer, c'.
  rewrite !poolState_insert_blockKey.
  destruct (_ && _); [done|]. by destruct (_ && _).
Qed.

(** The record written by [blockOrganizer] is there when it returns. *)
Lemma blocked_suspendedAt dateNow organizer (c : Cache) :
  suspendedAt organizer (blocked dateNow organizer c) = Some dateNow.
Proof.
  unfold suspendedAt, blocked.
  destruct (_ && _); [|destruct (_ && _)];
    rewrite ?lookup_delete_ne by (apply not_eq_sym, blockKey_poolKey);
    by rewrite lookup_insert_eq.
Qed.

(** ** The availability decision *)

Section Availability.

Variable cfg : Config.
Variables (dateNow : Z) (organizer : JS.str) (c : Cache).
Hypothesis readable_prakerja : poolReadable true c.
Hypothesis readable_non_prakerja : poolReadable false c.

Lemma isOrganizerAvailable_step :
  isOrganizerAvailable cfg dateNow organizer c =
  let shouldBlockCurrentOrganizerPrakerja := quotaExhausted cfg organizer true c in
  let shouldBlockCurrentOrganizerNonPrakerja := quotaExhausted cfg organizer false c in
  (if shouldBlockCurrentOrganizerPrakerja || shouldBlockCurrentOrganizerNonPrakerja then
     (when (negb shouldBlockCurrentOrganizerPrakerja) (blockOrganizer dateNow organizer);;
      when (negb shouldBlockCurrentOrganizerNonPrakerja) (blockOrganizer dateNow organizer);;
      mret false)
   else
     (cacheValue ← RskCacheService.get (blockKey organizer);
      if text_truthy cacheValue then
        blockedDateStr ← deserializeCacheValue cacheValue;
        if isBlockedTimeFinished dateNow (Date_new blockedDateStr) then
          RskCacheService.delete (blockKey organizer);; mret true
        else mret false
      else mret true)) c.
Proof.
  unfold isOrganizerAvailable.
  rewrite (bind_returned _ _ _ _ _ (fetchCurrentOrganizer_readable true c readable_prakerja)).
  rewrite (bind_returned _ _ _ _ _ (fetchCurrentOrganizer_readable false c readable_non_prakerja)).
  rewrite (bind_returned _ _ _ _ _
             (shouldBlockCurrentOrganizer_readable cfg organizer true c c readable_prakerja)).
  rewrite (bind_returned _ _ _ _ _
             (shouldBlockCurrentOrganizer_readable cfg organizer false c c readable_non_prakerja)).
  done.
Qed.

(** Exhausted in both categories: neither guarded call runs. *)
Lemma isOrganizerAvailable_both_exhausted :
  quotaExhausted cfg organizer true c = true →
  quotaExhausted cfg organizer false c = true →
  isOrganizerAvailable cfg dateNow organizer c = (Returned false, c).
Proof. intros HP HNP. rewrite isOrganizerAvailable_step, HP, HNP. done. Qed.

(** Exhausted in exactly one category: [blockOrganizer] runs once. *)
Lemma isOrganizerAvailable_one_exhausted :
  quotaExhausted cfg organizer true c ≠ quotaExhausted cfg organizer false c →
  isOrganizerAvailable cfg dateNow organizer c =
  (Returned false, blocked dateNow organizer c).
Proof.
  intros Hne. rewrite isOrganizerAvailable_step.
  pose proof (blockOrganizer_readable dateNow organizer c
                readable_prakerja readable_non_prakerja) as Hblock.
  destruct (quotaExhausted cfg organizer true c), (quotaExhausted cfg organizer false c);
    try done; simpl; run; by rewrite Hblock.
Qed.

(** Not exhausted and no record (or an empty text) under the organizer's
    key. *)
Lemma isOrganizerAvailable_not_suspended :
  quotaExhausted cfg organizer true c = false →
  quotaExhausted cfg organizer false c = false →
  text_truthy (value <$> c !! blockKey organizer) = false →
  isOrganizerAvailable cfg dateNow organizer c = (Returned true, c).
Proof.
  intros HP HNP Hkey. rewrite isOrganizerAvailable_step, HP, HNP. simpl. run.
  by rewrite Hkey.
Qed.

(** Not exhausted, a record under the organizer's key. *)
Lemma isOrganizerAvailable_suspended entry t :
  quotaExhausted cfg organizer true c = false →
  quotaExhausted cfg organizer false c = false →
  c !! blockKey organizer = Some entry → value entry = DateJson t →
  isOrganizerAvailable cfg dateNow organizer c =
  if dateNow - t >? twentyFourHoursInMilliseconds
  then (Returned true, delete (blockKey organizer) c)
  else (Returned false, c).
Proof.
  intros HP HNP Hkey Hentry. rewrite isOrganizerAvailable_step, HP, HNP. simpl. run.
  rewrite Hkey. simpl. rewrite Hentry. simpl.
  by destruct (dateNow - t >? twentyFourHoursInMilliseconds).
Qed.

End Availability.

(** ** The state persisted by [cacheOrganizerAndAttendee] *)

Lemma poolState_Some isPrakerja (c : Cache) v :
  poolState isPrakerja c = Some v ↔
  ∃ e, c !! poolKey isPrakerja = Some e ∧ value e = DtoJson v.
Proof.
  unfold poolState. destruct (c !! poolKey isPrakerja) as [e|]; simpl.
  - destruct (value e) eqn:E;
      (split; [intros H; simplify_eq; eauto|intros (e' & ? & ?); simplify_eq; congruence]).
  - split; [done|]. by intros (? & ? & ?).
Qed.

Lemma poolState_persisted isPrakerja isPrakerja' v (c : Cache) :
  poolState isPrakerja' (persisted isPrakerja v c) =
  if bool_decide (isPrakerja' = isPrakerja) then Some v else poolState isPrakerja' c.
Proof.
  unfold poolState, persisted. case_bool_decide as Hb.
  - subst. by rewrite lookup_insert_eq.
  - rewrite lookup_insert_ne; [done|]. intros H. by apply poolKey_inj in H.
Qed.

Lemma truthy_looseEq a b : JS.truthy a && looseEq a b = true → a = b ∧ JS.truthy a = true.
Proof.
  intros [Ha Hab]%andb_true_iff. split; [|done].
  destruct a, b; simpl in *; try done. by apply bool_decide_eq_true in Hab as ->.
Qed.

Lemma truthy_looseEq_Str name :
  name ≠ "" → JS.truthy (JS.Str name) && looseEq (JS.Str name) (JS.Str name) = true.
Proof.
  intros H. simpl. rewrite (bool_decide_eq_false_2 _ H).
  by rewrite bool_decide_eq_true_2.
Qed.

(** Whatever the entry holds, the call either throws and leaves the cache
    as it was, or writes one pool state whose addresses were stored before
    or are external addresses of the batch. *)
Lemma cacheOrganizerAndAttendee_cases cfg attendees organizerReq isPrakerja (c : Cache) :
  (∃ e, cacheOrganizerAndAttendee cfg attendees organizerReq isPrakerja c = (Thrown e, c))
  ∨ (∃ v', cacheOrganizerAndAttendee cfg attendees organizerReq isPrakerja c
           = (Returned (organizer v'), persisted isPrakerja v' c)
         ∧ ∀ l' a, uniqueAttendees v' = Some l' → a ∈ l' →
             (∃ v l, poolState isPrakerja c = Some v ∧ uniqueAttendees v = Some l ∧ a ∈ l)
             ∨ (a ∈ email <$> attendees ∧ isExternal a = true)).
Proof.
  destruct (c !! poolKey isPrakerja) as [e|] eqn:Hkey.
  - destruct (value e) as [raw message|v|t] eqn:Hv.
    + left. eexists. by eapply cacheOrganizerAndAttendee_not_json.
    + assert (poolState isPrakerja c = Some v) as Hstate by (apply poolState_Some; eauto).
      destruct (JS.truthy (organizer v) && looseEq (organizer v) (orNull organizerReq)) eqn:Heq.
      * destruct (uniqueAttendees v) as [l|] eqn:Hl.
        -- destruct (Z.lt_ge_cases (Z.of_nat (length l)) (externalAttendeesLimit cfg)).
           ++ right.
              exists (fromPayload (organizer v)
                        (Some (foldl addAttendee (JS.Set_new l) attendees))).
              split; [exact (cacheOrganizerAndAttendee_merge cfg attendees organizerReq
                               isPrakerja c e v l Hkey Hv Heq Hl H)|].
              simpl. intros l' a [= <-] Ha.
              apply foldl_addAttendee_elem in Ha as [Ha|Ha]; [|by right].
              rewrite Set_new_elem in Ha. left. exists v, l. by split_and!.
           ++ right. exists v. split; [by eapply cacheOrganizerAndAttendee_full|].
              intros l' a Hl' Ha. left. exists v, l'. by split_and!.
        -- left. eexists. by eapply cacheOrganizerAndAttendee_no_list.
      * right. exists v. split; [by eapply cacheOrganizerAndAttendee_other|].
        intros l' a Hl' Ha. left. exists v, l'. by split_and!.
    + right. exists (fromPayload JS.undefined None).
      split; [exact (cacheOrganizerAndAttendee_date cfg attendees organizerReq
                       isPrakerja c e t Hkey Hv)|]. done.
  - right. exists (fromPayload (orNull organizerReq) (Some (newAttendees attendees))).
    split; [exact (cacheOrganizerAndAttendee_absent cfg attendees organizerReq
                     isPrakerja c Hkey)|].
    simpl. intros l' a [= <-] Ha. right. by apply newAttendees_elem.
Qed.

(** One call keeps addresses that end in the literal out. *)
Lemma cacheOrganizerAndAttendee_noOrgLiteralAttendee cfg attendees organizerReq isPrakerja
    (c : Cache) :
  noOrgLiteralAttendee c →
  noOrgLiteralAttendee (cacheOrganizerAndAttendee cfg attendees organizerReq isPrakerja c).2.
Proof.
  intros Hinv.
  destruct (cacheOrganizerAndAttendee_cases cfg attendees organizerReq isPrakerja c)
    as [[e ->]|(v' & -> & Hv')]; [done|].
  simpl. intros b v l a Hstate Hl Ha. rewrite poolState_persisted in Hstate.
  case_bool_decide; [|by eapply Hinv].
  injection Hstate as <-.
  destruct (Hv' _ _ Hl Ha) as [(v0 & l0 & H0 & Hl0 & Ha0)|[_ Hext]].
  - by eapply Hinv.
  - by apply endsWithOrgLiteral_not_external.
Qed.

(** ** Claims about [cacheOrganizerAndAttendee] *)

(** C1, as stated, fails: with a state stored for organizer a, a request
    for organizer b leaves organizer a and its attendee in the entry; and
    with organizer a at the limit, a request for a leaves the stored list
    in place instead of the batch. *)
Lemma replacedWholesale_fails_on_stored_state :
  (currentOrganizer true cacheWithA ≠ JS.Str "b@pool.id"
   ∧ ¬ replacedWholesale sampleConfig [student "y@gmail.com"] (JS.Str "b@pool.id") true
         cacheWithA)
  ∧ (quotaExhausted sampleConfig (JS.Str "a@pool.id") true cacheWithFullA = true
     ∧ ¬ replacedWholesale sampleConfig [student "z@gmail.com"] (JS.Str "a@pool.id") true
           cacheWithFullA).
Proof.
  split; (split; [by vm_compute|]); intros (l & Hstate & Hl); vm_compute in Hstate.
  - discriminate Hstate.
  - injection Hstate as <-.
    assert ("z@gmail.com" ∈ ["x@gmail.com"; "y@gmail.com"]) as Hin.
    { apply Hl. split; [|reflexivity]. simpl. by left. }
    rewrite !elem_of_cons, elem_of_nil in Hin. by destruct Hin as [|[|]].
Qed.

(** C1, amended: the state is replaced by the request (requested organizer,
    external addresses of the batch) when the category has no entry. When
    an entry holds a state whose organizer is not the requested one, or
    whose attendee list has reached [externalAttendeesLimit], the stored
    state is written back unchanged and the stored organizer is returned. *)
Theorem cacheOrganizerAndAttendee_replaces_only_absent cfg attendees organizerReq
    isPrakerja (c : Cache) :
  (c !! poolKey isPrakerja = None →
     (cacheOrganizerAndAttendee cfg attendees organizerReq isPrakerja c).1
     = Returned (orNull organizerReq)
     ∧ replacedWholesale cfg attendees organizerReq isPrakerja c)
  ∧ (∀ v, poolState isPrakerja c = Some v →
       organizer v ≠ orNull organizerReq
       ∨ (∃ l, uniqueAttendees v = Some l
               ∧ externalAttendeesLimit cfg ≤ Z.of_nat (length l)) →
       cacheOrganizerAndAttendee cfg attendees organizerReq isPrakerja c
       = (Returned (organizer v), persisted isPrakerja v c)
       ∧ poolState isPrakerja (persisted isPrakerja v c) = Some v).
Proof.
  split.
  - intros Habsent. unfold replacedWholesale.
    rewrite (cacheOrganizerAndAttendee_absent cfg attendees organizerReq isPrakerja c Habsent).
    split; [done|]. exists (newAttendees attendees). simpl.
    rewrite poolState_persisted, bool_decide_eq_true_2 by done.
    split; [done|]. apply newAttendees_elem.
  - intros v Hstate Hcase. apply poolState_Some in Hstate as (e & Hkey & Hv).
    split; [|by rewrite poolState_persisted, bool_decide_eq_true_2].
    destruct Hcase as [Hne|(l & Hl & Hfull)].
    + eapply cacheOrganizerAndAttendee_other; [done..|].
      destruct (JS.truthy (organizer v) && _) eqn:Heq; [|done].
      by apply truthy_looseEq in Heq as [? _].
    + by eapply cacheOrganizerAndAttendee_full.
Qed.

Lemma cacheOrganizerAndAttendee_replaces_only_absent_witness :
  ((cacheOrganizerAndAttendee sampleConfig [student "y@gmail.com"; student "z@sempurna.com"]
      (JS.Str "b@pool.id") true ∅).1 = Returned (JS.Str "b@pool.id")
   ∧ replacedWholesale sampleConfig [student "y@gmail.com"; student "z@sempurna.com"]
       (JS.Str "b@pool.id") true ∅)
  ∧ (cacheOrganizerAndAttendee sampleConfig [student "y@gmail.com"] (JS.Str "b@pool.id") true
       cacheWithA
     = (Returned (JS.Str "a@pool.id"),
        persisted true (fromPayload (JS.Str "a@pool.id") (Some ["x@gmail.com"])) cacheWithA)
     ∧ poolState true
         (persisted true (fromPayload (JS.Str "a@pool.id") (Some ["x@gmail.com"])) cacheWithA)
       = Some (fromPayload (JS.Str "a@pool.id") (Some ["x@gmail.com"]))).
Proof.
  split.
  - apply (proj1 (cacheOrganizerAndAttendee_replaces_only_absent sampleConfig
                    [student "y@gmail.com"; student "z@sempurna.com"]
                    (JS.Str "b@pool.id") true ∅)).
    reflexivity.
  - apply (proj2 (cacheOrganizerAndAttendee_replaces_only_absent sampleConfig
                    [student "y@gmail.com"] (JS.Str "b@pool.id") true cacheWithA)
             (fromPayload (JS.Str "a@pool.id") (Some ["x@gmail.com"]))).
    + reflexivity.
    + left. simpl. discriminate.
Defined.

Lemma noOrgLiteralAttendee_empty : noOrgLiteralAttendee ∅.
Proof. intros b v l a H. unfold poolState in H. by rewrite lookup_empty in H. Qed.

(** Along every sequence of [cacheOrganizerAndAttendee] calls, started
    from a cache in which no pool state lists an address ending in
    [@sempurna.com] (the empty cache, for one), no persisted pool state of
    any category lists such an address. *)
Lemma recordAssignments_noOrgLiteralAttendee cfg calls (c : Cache) :
  noOrgLiteralAttendee c → noOrgLiteralAttendee (recordAssignments cfg calls c).
Proof.
  revert c. induction calls as [|call calls IH]; intros c Hinv; simpl; [done|].
  apply IH, cacheOrganizerAndAttendee_noOrgLiteralAttendee, Hinv.
Qed.

Lemma noOrgDomainAttendee_empty : noOrgDomainAttendee ∅.
Proof. intros b v l a H. unfold poolState in H. by rewrite lookup_empty in H. Qed.

(** C8 at the input where it breaks: [amy@SEMPURNA.COM] is an address of
    the organization's own domain, and the test for the lower-case text
    [sempurna.com] takes it for an external one. From the empty cache, in
    which no state lists an address of the domain, one recorded assignment
    persists it, in the branch without cached data; with a state stored for
    the organizer the merge branch persists it as well. The lower-case
    address of the same batch is kept out in both. *)
Theorem recordAssignments_lists_own_domain_address :
  belongsToOrgDomain "amy@SEMPURNA.COM" = true
  ∧ isExternal "amy@SEMPURNA.COM" = true
  ∧ noOrgDomainAttendee ∅
  ∧ poolState true (recordAssignments sampleConfig callWithCapitals ∅)
    = Some (fromPayload (JS.Str "a@pool.id") (Some ["amy@SEMPURNA.COM"]))
  ∧ ¬ noOrgDomainAttendee (recordAssignments sampleConfig callWithCapitals ∅)
  ∧ poolState true (recordAssignments sampleConfig callWithCapitals cacheWithA)
    = Some (fromPayload (JS.Str "a@pool.id") (Some ["x@gmail.com"; "amy@SEMPURNA.COM"]))
  ∧ ¬ noOrgDomainAttendee (recordAssignments sampleConfig callWithCapitals cacheWithA).
Proof.
  assert (poolState true (recordAssignments sampleConfig callWithCapitals ∅)
          = Some (fromPayload (JS.Str "a@pool.id") (Some ["amy@SEMPURNA.COM"]))) as Hfresh
    by (vm_compute; reflexivity).
  assert (poolState true (recordAssignments sampleConfig callWithCapitals cacheWithA)
          = Some (fromPayload (JS.Str "a@pool.id") (Some ["x@gmail.com"; "amy@SEMPURNA.COM"])))
    as Hmerge by (vm_compute; reflexivity).
  split_and!; [vm_compute; reflexivity..|exact noOrgDomainAttendee_empty|exact Hfresh
              | |exact Hmerge| ].
  - intros Hinv.
    specialize (Hinv true _ _ "amy@SEMPURNA.COM" Hfresh eq_refl).
    assert (belongsToOrgDomain "amy@SEMPURNA.COM" = false) as Hout.
    { apply Hinv. apply elem_of_cons. by left. }
    vm_compute in Hout. discriminate Hout.
  - intros Hinv.
    specialize (Hinv true _ _ "amy@SEMPURNA.COM" Hmerge eq_refl).
    assert (belongsToOrgDomain "amy@SEMPURNA.COM" = false) as Hout.
    { apply Hinv. apply elem_of_cons. right. apply elem_of_cons. by left. }
    vm_compute in Hout. discriminate Hout.
Qed.

(** C9: the test is substring containment. An address that contains
    [sempurna.com] anywhere is classified internal, and a call never adds
    it: if the persisted list has it afterwards, the stored list had it
    before. This holds for addresses whose domain part is foreign, such as
    [sempurna.com@gmail.com] and [bob@sempurna.com.evil.org]. *)
Theorem substring_match_is_internal cfg attendees organizerReq isPrakerja (c : Cache) address :
  JS.includes address rskDomain = true →
  isExternal address = false
  ∧ (∀ v l,
       poolState isPrakerja
         (cacheOrganizerAndAttendee cfg attendees organizerReq isPrakerja c).2 = Some v →
       uniqueAttendees v = Some l → address ∈ l →
       ∃ v0 l0, poolState isPrakerja c = Some v0 ∧ uniqueAttendees v0 = Some l0 ∧ address ∈ l0)
  ∧ belongsToOrgDomain "sempurna.com@gmail.com" = false
  ∧ JS.includes "sempurna.com@gmail.com" rskDomain = true
  ∧ belongsToOrgDomain "bob@sempurna.com.evil.org" = false
  ∧ JS.includes "bob@sempurna.com.evil.org" rskDomain = true.
Proof.
  intros Hsub. split; [by unfold isExternal; rewrite Hsub|].
  split; [|by vm_compute].
  intros v l Hstate Hl Ha.
  destruct (cacheOrganizerAndAttendee_cases cfg attendees organizerReq isPrakerja c)
    as [[e Hcall]|(v' & Hcall & Hv')]; rewrite Hcall in Hstate; simpl in Hstate.
  - by exists v, l.
  - rewrite poolState_persisted, bool_decide_eq_true_2 in Hstate by done.
    injection Hstate as ->.
    destruct (Hv' _ _ Hl Ha) as [?|[_ Hext]]; [done|].
    unfold isExternal in Hext. by rewrite Hsub in Hext.
Qed.

Lemma substring_match_is_internal_witness :
  JS.includes "sempurna.com@gmail.com" rskDomain = true
  ∧ poolState true
      (cacheOrganizerAndAttendee sampleConfig
         [student "sempurna.com@gmail.com"; student "w@gmail.com"]
         (JS.Str "a@pool.id") true cacheWithA).2
    = Some (fromPayload (JS.Str "a@pool.id") (Some ["x@gmail.com"; "w@gmail.com"]))
  ∧ isExternal "sempurna.com@gmail.com" = false.
Proof.
  split; [reflexivity|]. split; [vm_compute; reflexivity|].
  apply (substring_match_is_internal sampleConfig
           [student "sempurna.com@gmail.com"; student "w@gmail.com"]
           (JS.Str "a@pool.id") true cacheWithA "sempurna.com@gmail.com").
  reflexivity.
Defined.

(** C10, as stated, fails: a first assignment recorded without an
    organizer leaves a state whose organizer is [null]. A second request,
    again without an organizer, matches the stored organizer and finds one
    address counted, below the limit of 2; yet the merge is guarded by the
    truthiness of the stored organizer, the state is written back as it
    was and the address of the batch is dropped. *)
Lemma mergedWholeBatch_fails_without_organizer :
  (cacheOrganizerAndAttendee sampleConfig [student "x@gmail.com"] JS.null true ∅).2
  = cacheWithNoOrganizer
  ∧ poolState true cacheWithNoOrganizer = Some (fromPayload JS.null (Some ["x@gmail.com"]))
  ∧ externalAttendeesLimit sampleConfig = 2
  ∧ cacheOrganizerAndAttendee sampleConfig [student "y@gmail.com"] JS.null true
      cacheWithNoOrganizer
    = (Returned JS.null, cacheWithNoOrganizer)
  ∧ ¬ mergedWholeBatch sampleConfig [student "y@gmail.com"] JS.null true cacheWithNoOrganizer.
Proof.
  assert (cacheOrganizerAndAttendee sampleConfig [student "y@gmail.com"] JS.null true
            cacheWithNoOrganizer
          = (Returned JS.null, cacheWithNoOrganizer)) as Hrun by (vm_compute; reflexivity).
  split_and!; [vm_compute; reflexivity..|exact Hrun|].
  intros Hmerged.
  destruct (Hmerged (fromPayload JS.null (Some ["x@gmail.com"])) ["x@gmail.com"])
    as (merged & Hstate & Hmembers); [reflexivity..| |].
  - simpl. lia.
  - rewrite Hrun in Hstate. vm_compute in Hstate. injection Hstate as <-.
    assert ("y@gmail.com" ∈ ["x@gmail.com"]) as Hin.
    { apply Hmembers. right. split; [|reflexivity]. simpl. by left. }
    rewrite elem_of_cons, elem_of_nil in Hin. by destruct Hin.
Qed.

(** C10, amended: the limit is tested once, before the merge. When the
    stored organizer is a non-empty string, the requested organizer is the
    same and the stored list is shorter than [externalAttendeesLimit], the
    persisted list is the stored set joined with every external address of
    the batch: it has no repetition, at most one entry more per attendee of
    the batch, and exactly that many when the batch brings distinct new
    external addresses, whatever the limit. *)
Theorem cacheOrganizerAndAttendee_merges_whole_batch cfg attendees organizerName isPrakerja
    (c : Cache) l :
  organizerName ≠ "" →
  poolState isPrakerja c = Some (fromPayload (JS.Str organizerName) (Some l)) →
  Z.of_nat (length l) < externalAttendeesLimit cfg →
  ∃ merged,
    cacheOrganizerAndAttendee cfg attendees (JS.Str organizerName) isPrakerja c
    = (Returned (JS.Str organizerName),
       persisted isPrakerja (fromPayload (JS.Str organizerName) (Some merged)) c)
    ∧ (∀ a, a ∈ merged ↔ a ∈ l ∨ (a ∈ email <$> attendees ∧ isExternal a = true))
    ∧ NoDup merged
    ∧ (length merged ≤ length l + length attendees)%nat
    ∧ (Forall (λ att, isExternal (email att) = true) attendees →
       NoDup (l ++ (email <$> attendees)) →
       merged = l ++ (email <$> attendees)
       ∧ length merged = (length l + length attendees)%nat).
Proof.
  intros Hname Hstate Hroom. apply poolState_Some in Hstate as (e & Hkey & Hv).
  exists (foldl addAttendee (JS.Set_new l) attendees). split_and!.
  - exact (cacheOrganizerAndAttendee_merge cfg attendees (JS.Str organizerName) isPrakerja c
             e _ l Hkey Hv (truthy_looseEq_Str _ Hname) eq_refl Hroom).
  - intros a. by rewrite foldl_addAttendee_elem, Set_new_elem.
  - apply foldl_addAttendee_NoDup, Set_new_NoDup.
  - pose proof (foldl_addAttendee_length attendees (JS.Set_new l)).
    pose proof (Set_new_length l). lia.
  - intros Hext Hnd.
    assert (NoDup l) as Hl by (by apply NoDup_app in Hnd as (? & _ & _)).
    rewrite (Set_new_id l Hl), (foldl_addAttendee_fresh _ _ Hext Hnd).
    split; [done|]. by rewrite length_app, length_fmap.
Qed.

Lemma cacheOrganizerAndAttendee_merges_whole_batch_witness :
  ∃ merged,
    poolState true
      (cacheOrganizerAndAttendee sampleConfig
         [student "p@gmail.com"; student "q@gmail.com"; student "r@gmail.com"]
         (JS.Str "a@pool.id") true cacheWithA).2
    = Some (fromPayload (JS.Str "a@pool.id") (Some merged))
    ∧ Z.of_nat (length merged) = 4
    ∧ externalAttendeesLimit sampleConfig = 2.
Proof.
  destruct (cacheOrganizerAndAttendee_merges_whole_batch sampleConfig
              [student "p@gmail.com"; student "q@gmail.com"; student "r@gmail.com"]
              "a@pool.id" true cacheWithA ["x@gmail.com"])
    as (merged & Hcall & _ & _ & _ & Hexact).
  - discriminate.
  - reflexivity.
  - reflexivity.
  - exists merged. rewrite Hcall. simpl.
    rewrite poolState_persisted, bool_decide_eq_true_2 by reflexivity.
    split; [reflexivity|]. split; [|reflexivity].
    destruct Hexact as [_ ->]; [repeat constructor| |reflexivity].
    vm_compute. repeat (constructor; [rewrite ?elem_of_cons, elem_of_nil; intuition discriminate|]).
    constructor.
Defined.

(** ** Claims about suspension *)

(** C2 at the input where it breaks: organizer a is current and at the
    limit in both categories and not suspended. Both flags are true, so
    neither guarded [blockOrganizer] call runs: the answer is [false], the
    cache is untouched and no suspension record exists afterwards. *)
Theorem isOrganizerAvailable_exhausted_in_both_writes_no_record :
  quotaExhausted sampleConfig (JS.Str "a@pool.id") true cacheWithFullAInBoth = true
  ∧ quotaExhausted sampleConfig (JS.Str "a@pool.id") false cacheWithFullAInBoth = true
  ∧ isOrganizerAvailable sampleConfig 5000 (JS.Str "a@pool.id") cacheWithFullAInBoth
    = (Returned false, cacheWithFullAInBoth)
  ∧ suspendedAt (JS.Str "a@pool.id") cacheWithFullAInBoth = None.
Proof.
  split_and!; [by vm_compute..| |by vm_compute].
  apply isOrganizerAvailable_both_exhausted; by vm_compute; eauto.
Qed.

(** That cache is the one two recorded assignments leave. *)
Lemma cacheWithFullAInBoth_reachable :
  recordAssignments sampleConfig callsFillingBoth ∅ = cacheWithFullAInBoth.
Proof. vm_compute. reflexivity. Qed.

(** The sibling path: exhausted in exactly one category, the organizer is
    suspended and the answer is [false]. *)
Lemma isOrganizerAvailable_one_exhausted_suspends cfg dateNow organizer (c : Cache) :
  poolReadable true c → poolReadable false c →
  quotaExhausted cfg organizer true c ≠ quotaExhausted cfg organizer false c →
  ∃ c', isOrganizerAvailable cfg dateNow organizer c = (Returned false, c')
        ∧ suspendedAt organizer c' = Some dateNow.
Proof.
  intros HP HNP Hne. exists (blocked dateNow organizer c).
  split; [by apply isOrganizerAvailable_one_exhausted|apply blocked_suspendedAt].
Qed.

(** C3: for an organizer that is not quota-exhausted in either category and
    has a suspension record, the answer follows from the stored instant
    alone, whatever time-to-live the store holds for the record: more than
    24 hours after it, the record is deleted and the answer is [true]; up
    to 24 hours after it, the answer is [false] and the record stays. *)
Theorem isOrganizerAvailable_lifts_after_24h cfg dateNow organizer (c : Cache) t storeTtl :
  poolReadable true c → poolReadable false c →
  quotaExhausted cfg organizer true c = false →
  quotaExhausted cfg organizer false c = false →
  c !! blockKey organizer = Some {| value := DateJson t; ttl := storeTtl |} →
  (dateNow - t > 24 * 60 * 60 * 1000 →
     isOrganizerAvailable cfg dateNow organizer c
     = (Returned true, delete (blockKey organizer) c)
     ∧ suspendedAt organizer (delete (blockKey organizer) c) = None)
  ∧ (dateNow - t ≤ 24 * 60 * 60 * 1000 →
     isOrganizerAvailable cfg dateNow organizer c = (Returned false, c)
     ∧ suspendedAt organizer c = Some t).
Proof.
  intros HP HNP HexP HexNP Hkey.
  rewrite (isOrganizerAvailable_suspended cfg dateNow organizer c HP HNP _ t HexP HexNP Hkey eq_refl).
  unfold twentyFourHoursInMilliseconds, suspendedAt.
  destruct (Z.gtb_spec (dateNow - t) (24 * 60 * 60 * 1000)); split; intros ?; try lia.
  - by rewrite lookup_delete_eq.
  - by rewrite Hkey.
Qed.

Lemma isOrganizerAvailable_lifts_after_24h_witness :
  (isOrganizerAvailable sampleConfig 86401001 (JS.Str "a@pool.id") cacheWithASuspended
   = (Returned true, delete (blockKey (JS.Str "a@pool.id")) cacheWithASuspended)
   ∧ suspendedAt (JS.Str "a@pool.id")
       (delete (blockKey (JS.Str "a@pool.id")) cacheWithASuspended) = None)
  ∧ (isOrganizerAvailable sampleConfig 86401000 (JS.Str "a@pool.id") cacheWithASuspended
     = (Returned false, cacheWithASuspended)
     ∧ suspendedAt (JS.Str "a@pool.id") cacheWithASuspended = Some 1000).
Proof.
  split.
  - apply (proj1 (isOrganizerAvailable_lifts_after_24h sampleConfig 86401001
                    (JS.Str "a@pool.id") cacheWithASuspended 1000 (24 * 60 * 60)
                    I I eq_refl eq_refl eq_refl)).
    reflexivity.
  - apply (proj2 (isOrganizerAvailable_lifts_after_24h sampleConfig 86401000
                    (JS.Str "a@pool.id") cacheWithASuspended 1000 (24 * 60 * 60)
                    I I eq_refl eq_refl eq_refl)).
    discriminate.
Defined.

(** C5, as stated, fails: with organizer a current in both categories,
    [blockOrganizer] deletes the prakerja entry and, being in the [else]
    branch of that deletion, leaves the non-prakerja entry in place. *)
Lemma deletesEveryMatch_fails_in_both :
  currentOrganizer true cacheWithAInBoth = JS.Str "a@pool.id"
  ∧ currentOrganizer false cacheWithAInBoth = JS.Str "a@pool.id"
  ∧ (blockOrganizer 5000 (JS.Str "a@pool.id") cacheWithAInBoth).2 !! poolKey false
    = Some (poolEntry "a@pool.id" ["z@gmail.com"])
  ∧ ¬ deletesEveryMatch 5000 (JS.Str "a@pool.id") cacheWithAInBoth.
Proof.
  split_and!; [by vm_compute..|].
  intros H. specialize (H false eq_refl). vm_compute in H. discriminate H.
Qed.

(** C5, amended: [blockOrganizer] writes the suspension record and deletes
    at most one pool entry, the one of the first category, prakerja before
    non-prakerja, whose state names the (non-empty) organizer as current;
    the other category's entry stays as it was, also when it names the same
    organizer. *)
Theorem blockOrganizer_deletes_first_match dateNow organizer (c : Cache) :
  poolReadable true c → poolReadable false c →
  JS.truthy organizer = true →
  ∃ c', blockOrganizer dateNow organizer c = (Returned (), c')
    ∧ suspendedAt organizer c' = Some dateNow
    ∧ (currentOrganizer true c = organizer →
         c' !! poolKey true = None ∧ c' !! poolKey false = c !! poolKey false)
    ∧ (currentOrganizer true c ≠ organizer → currentOrganizer false c = organizer →
         c' !! poolKey false = None ∧ c' !! poolKey true = c !! poolKey true)
    ∧ (currentOrganizer true c ≠ organizer → currentOrganizer false c ≠ organizer →
         c' !! poolKey true = c !! poolKey true ∧ c' !! poolKey false = c !! poolKey false).
Proof.
  intros HP HNP Htruthy. exists (blocked dateNow organizer c).
  split; [by apply blockOrganizer_readable|]. split; [apply blocked_suspendedAt|].
  unfold blocked.
  assert (∀ b entry, <[blockKey organizer := entry]> c !! poolKey b = c !! poolKey b) as Hins
    by (intros; apply lookup_insert_ne, blockKey_poolKey).
  split_and!.
  - intros ->. rewrite Htruthy, bool_decide_eq_true_2 by done. simpl.
    rewrite lookup_delete_eq, lookup_delete_ne, Hins; done.
  - intros Hne ->. rewrite (bool_decide_eq_false_2 _ (not_eq_sym Hne)), andb_false_r.
    rewrite Htruthy, bool_decide_eq_true_2 by done. simpl.
    rewrite lookup_delete_eq, lookup_delete_ne, Hins; done.
  - intros HneP HneNP.
    rewrite (bool_decide_eq_false_2 _ (not_eq_sym HneP)), andb_false_r.
    rewrite (bool_decide_eq_false_2 _ (not_eq_sym HneNP)), andb_false_r.
    by rewrite !Hins.
Qed.

Lemma blockOrganizer_deletes_first_match_witness :
  ∃ c', blockOrganizer 5000 (JS.Str "a@pool.id") cacheWithAInBoth = (Returned (), c')
    ∧ c' !! poolKey true = None
    ∧ c' !! poolKey false = Some (poolEntry "a@pool.id" ["z@gmail.com"]).
Proof.
  destruct (blockOrganizer_deletes_first_match 5000 (JS.Str "a@pool.id") cacheWithAInBoth)
    as (c' & Hcall & _ & Hfirst & _).
  - vm_compute. eauto.
  - vm_compute. eauto.
  - reflexivity.
  - exists c'. split; [exact Hcall|].
    destruct Hfirst as [-> ->]; [reflexivity|]. split; reflexivity.
Defined.

(** ** Iterating the candidates *)

Lemma availableOrganizers_loop_acc cfg dateNow organizers acc (c : Cache) :
  availableOrganizers_loop cfg dateNow organizers acc c =
  match availableOrganizers_loop cfg dateNow organizers [] c with
  | (Returned available, c') => (Returned (acc ++ available), c')
  | (Thrown e, c') => (Thrown e, c')
  end.
Proof.
  revert acc c. induction organizers as [|org rest IH]; intros acc c; simpl.
  - run. by rewrite app_nil_r.
  - unfold mbind, Async_bind.
    destruct (isOrganizerAvailable cfg dateNow (JS.Str org) c) as [[isAvailable|e] c1]; [|done].
    rewrite (IH (if isAvailable then acc ++ [org] else acc)).
    rewrite (IH (if isAvailable then [] ++ [org] else [])).
    destruct (availableOrganizers_loop cfg dateNow rest [] c1) as [[available|e] c2]; [|done].
    destruct isAvailable; simpl; by rewrite <- ?app_assoc.
Qed.

(** The list built by the loop keeps the declared order. *)
Lemma availableOrganizers_loop_sublist cfg dateNow organizers (c c' : Cache) available :
  availableOrganizers_loop cfg dateNow organizers [] c = (Returned available, c') →
  available `sublist_of` organizers.
Proof.
  revert c available. induction organizers as [|org rest IH]; intros c available; simpl.
  - run. by intros [= <- _].
  - unfold mbind, Async_bind.
    destruct (isOrganizerAvailable cfg dateNow (JS.Str org) c) as [[isAvailable|e] c1]; [|done].
    rewrite availableOrganizers_loop_acc.
    destruct (availableOrganizers_loop cfg dateNow rest [] c1) as [[tail|e] c2] eqn:Hrest; [|done].
    intros [= <- <-]. specialize (IH _ _ Hrest).
    destruct isAvailable; simpl; [by apply sublist_skip|by apply sublist_cons].
Qed.

(** Its head is what the specification's iteration returns. *)
Lemma availableOrganizers_loop_head cfg dateNow organizers (c c' : Cache) available :
  availableOrganizers_loop cfg dateNow organizers [] c = (Returned available, c') →
  ∃ c'', spec_firstAvailable cfg dateNow organizers c = (Returned (head available), c'').
Proof.
  revert c available. induction organizers as [|org rest IH]; intros c available; simpl.
  - run. intros [= <- _]. by exists c.
  - unfold mbind, Async_bind.
    destruct (isOrganizerAvailable cfg dateNow (JS.Str org) c) as [[isAvailable|e] c1]; [|done].
    rewrite availableOrganizers_loop_acc.
    destruct (availableOrganizers_loop cfg dateNow rest [] c1) as [[tail|e] c2] eqn:Hrest; [|done].
    intros [= <- <-]. destruct isAvailable; simpl.
    + by exists c1.
    + by apply (IH c1).
Qed.

(** When the specification's iteration finds nobody, the loop returns the
    empty list. *)
Lemma spec_firstAvailable_None cfg dateNow organizers (c c' : Cache) :
  spec_firstAvailable cfg dateNow organizers c = (Returned None, c') →
  availableOrganizers_loop cfg dateNow organizers [] c = (Returned [], c').
Proof.
  revert c. induction organizers as [|org rest IH]; intros c; simpl.
  - run. by intros [= <-].
  - unfold mbind, Async_bind.
    destruct (isOrganizerAvailable cfg dateNow (JS.Str org) c) as [[[]|e] c1]; [done| |done].
    apply IH.
Qed.

Lemma fetchAvailableOrganizers_candidates cfg dateNow isPrakerja (c : Cache) :
  fetchAvailableOrganizers cfg dateNow isPrakerja None c =
  availableOrganizers_loop cfg dateNow (candidates cfg isPrakerja) [] c.
Proof. unfold fetchAvailableOrganizers, candidates. by destruct isPrakerja. Qed.

(** The choice made by [createEvent] once it reaches the candidate list. *)
Lemma createEvent_organizer_from_list cfg dateNow organizer isPrakerja (c c1 c2 : Cache)
    current isAvailable organizers :
  JS.truthy organizer = false →
  fetchCurrentOrganizer isPrakerja c = (Returned current, c) →
  isOrganizerAvailable cfg dateNow (optional_organizer current) c = (Returned isAvailable, c1) →
  JS.truthy (optional_organizer current) && isAvailable = false →
  fetchAvailableOrganizers cfg dateNow isPrakerja None c1 = (Returned organizers, c2) →
  createEvent_organizer cfg dateNow organizer isPrakerja c =
  (Returned match organizers with
            | first :: _ => if JS.truthy (JS.Str first) then JS.Str first else organizer
            | [] => organizer
            end, c2).
Proof.
  intros Hreq Hcur Havail Hfall Hlist. unfold createEvent_organizer.
  rewrite (bind_returned _ _ _ _ _ Hcur), (bind_returned _ _ _ _ _ Havail).
  rewrite Hreq, Hfall. simpl. rewrite (bind_returned _ _ _ _ _ Hlist).
  destruct organizers as [|first ?]; [done|]. by destruct (negb _).
Qed.

(** ** [createEvent] before and after the selection *)

(** With a training or a program the description is built and the [try]
    statement runs. *)
Lemma createEvent_with_program cfg events_insert dateNow attendees training program organizer
    (c : Cache) :
  is_Some training ∨ is_Some program →
  createEvent cfg events_insert dateNow attendees training program organizer c
  = createEvent_try cfg events_insert dateNow attendees (isPrakerja_of training program)
      (orNull organizer) c.
Proof. unfold createEvent. intros [[? ->]|[? ->]]; [done|]. by destruct training. Qed.

(** With neither, the read of [program.name] fails before the [try]
    statement: nothing is read from the cache or asked of the provider. *)
Lemma createEvent_without_program cfg events_insert dateNow attendees organizer (c : Cache) :
  createEvent cfg events_insert dateNow attendees None None organizer c = (Thrown TypeError, c).
Proof. reflexivity. Qed.

Lemma createEvent_try_after_selection cfg events_insert dateNow attendees isPrakerja organizer
    (c c1 : Cache) chosen :
  createEvent_organizer cfg dateNow organizer isPrakerja c = (Returned chosen, c1) →
  createEvent_try cfg events_insert dateNow attendees isPrakerja organizer c
  = try_catch (createEvent_insert cfg events_insert attendees isPrakerja chosen)
              (createEvent_catch dateNow chosen) c1.
Proof.
  intros Hchosen. unfold createEvent_try. unfold try_catch at 2.
  unfold mbind at 1, Async_bind at 1. by rewrite (bind_returned _ _ _ _ _ Hchosen).
Qed.

Lemma createEvent_try_selection_fails cfg events_insert dateNow attendees isPrakerja organizer
    (c c1 : Cache) error :
  createEvent_organizer cfg dateNow organizer isPrakerja c = (Thrown error, c1) →
  createEvent_try cfg events_insert dateNow attendees isPrakerja organizer c
  = createEvent_catch dateNow organizer error c1.
Proof.
  intros Hchosen. unfold createEvent_try. unfold try_catch at 2.
  unfold mbind at 1, Async_bind at 1. rewrite (bind_thrown _ _ _ _ _ Hchosen).
  unfold mbind, Async_bind. by destruct (createEvent_catch dateNow organizer error c1) as [[?|?] ?].
Qed.

Lemma createEvent_after_selection cfg events_insert dateNow attendees training program
    organizer (c c1 : Cache) chosen :
  is_Some training ∨ is_Some program →
  createEvent_organizer cfg dateNow (orNull organizer) (isPrakerja_of training program) c
  = (Returned chosen, c1) →
  createEvent cfg events_insert dateNow attendees training program organizer c
  = try_catch (createEvent_insert cfg events_insert attendees (isPrakerja_of training program)
                 chosen)
              (createEvent_catch dateNow chosen) c1.
Proof.
  intros Hgiven Hchosen. rewrite createEvent_with_program by done.
  by apply createEvent_try_after_selection.
Qed.

(** ** Claims about the selection *)

(** C6: once [createEvent] reaches the candidate list, the list it gets
    back keeps the declared order, and the organizer it takes is the one
    the specification's iteration returns: the first candidate, in declared
    order, whose availability check answers [true] (an organizer identity
    being a non-empty string). *)
Theorem createEvent_organizer_first_available cfg dateNow organizer isPrakerja
    (c c1 c2 : Cache) current isAvailable organizers :
  JS.truthy organizer = false →
  fetchCurrentOrganizer isPrakerja c = (Returned current, c) →
  isOrganizerAvailable cfg dateNow (optional_organizer current) c = (Returned isAvailable, c1) →
  JS.truthy (optional_organizer current) && isAvailable = false →
  fetchAvailableOrganizers cfg dateNow isPrakerja None c1 = (Returned organizers, c2) →
  organizers `sublist_of` candidates cfg isPrakerja
  ∧ ∀ first c3,
      spec_firstAvailable cfg dateNow (candidates cfg isPrakerja) c1
      = (Returned (Some first), c3) →
      first ≠ "" →
      head organizers = Some first
      ∧ createEvent_organizer cfg dateNow organizer isPrakerja c = (Returned (JS.Str first), c2).
Proof.
  intros Hreq Hcur Havail Hfall Hlist.
  rewrite (createEvent_organizer_from_list _ _ _ _ _ _ _ _ _ _ Hreq Hcur Havail Hfall Hlist).
  rewrite fetchAvailableOrganizers_candidates in Hlist.
  split; [by eapply availableOrganizers_loop_sublist|].
  intros first c3 Hspec Hfirst.
  destruct (availableOrganizers_loop_head _ _ _ _ _ _ Hlist) as [c3' Hhead].
  rewrite Hspec in Hhead. injection Hhead as Hhead _.
  split; [done|].
  destruct organizers as [|first' ?]; simplify_eq/=.
  by rewrite (bool_decide_eq_false_2 _ Hfirst).
Qed.

Lemma createEvent_organizer_first_available_witness :
  spec_firstAvailable sampleConfig 2000 (candidates sampleConfig true) cacheOnlyCFree
  = (Returned (Some "c@pool.id"), cacheOnlyCFree)
  ∧ head ["c@pool.id"] = Some "c@pool.id"
  ∧ createEvent_organizer sampleConfig 2000 JS.null true cacheOnlyCFree
    = (Returned (JS.Str "c@pool.id"), cacheOnlyCFree).
Proof.
  split; [vm_compute; reflexivity|].
  apply (proj2 (createEvent_organizer_first_available sampleConfig 2000 JS.null true
                  cacheOnlyCFree cacheOnlyCFree cacheOnlyCFree None true ["c@pool.id"]
                  eq_refl eq_refl eq_refl eq_refl eq_refl)
          "c@pool.id" cacheOnlyCFree).
  - vm_compute. reflexivity.
  - discriminate.
Defined.

(** C4, as stated, fails: an event is requested for a prakerja training,
    no organizer is requested, no state names a current one and every
    prakerja candidate is suspended. The selection returns with the
    organizer still [null], the provider is called with [null], the event
    is created, and a pool state with organizer [null] is persisted;
    nothing is signalled. *)
Lemma signalsNoOrganizer_fails_when_all_suspended :
  spec_firstAvailable sampleConfig 2000 (candidates sampleConfig true) cacheAllSuspended
  = (Returned None, cacheAllSuspended)
  ∧ createEvent_organizer sampleConfig 2000 JS.null true cacheAllSuspended
    = (Returned JS.null, cacheAllSuspended)
  ∧ createEvent sampleConfig acceptsNoOrganizer 2000 [student "s@gmail.com"]
      (Some PRAKERJA) None JS.null cacheAllSuspended
    = (Returned (Some {| response_status := 200; result_organizer := JS.null |}),
       persisted true (fromPayload JS.null (Some ["s@gmail.com"])) cacheAllSuspended)
  ∧ ¬ signalsNoOrganizer sampleConfig acceptsNoOrganizer 2000 [student "s@gmail.com"]
        (Some PRAKERJA) None JS.null cacheAllSuspended.
Proof.
  assert (createEvent sampleConfig acceptsNoOrganizer 2000 [student "s@gmail.com"]
            (Some PRAKERJA) None JS.null cacheAllSuspended
          = (Returned (Some {| response_status := 200; result_organizer := JS.null |}),
             persisted true (fromPayload JS.null (Some ["s@gmail.com"])) cacheAllSuspended))
    as Hrun by (vm_compute; reflexivity).
  split_and!; [vm_compute; reflexivity..|exact Hrun|].
  intros (e & c' & Hthrown). rewrite Hrun in Hthrown. discriminate Hthrown.
Qed.

(** C4, amended: for a request that names a training or a program, when
    no organizer is requested, the current organizer is missing or not
    available and the iteration over the candidates finds nobody, the
    selection returns normally with no organizer, and [createEvent] goes on
    to the provider call with that value; no condition is signalled by the
    selection. *)
Theorem createEvent_proceeds_without_organizer cfg events_insert dateNow attendees
    training program organizer (c c1 c2 : Cache) current isAvailable :
  is_Some training ∨ is_Some program →
  JS.truthy (orNull organizer) = false →
  fetchCurrentOrganizer (isPrakerja_of training program) c = (Returned current, c) →
  isOrganizerAvailable cfg dateNow (optional_organizer current) c = (Returned isAvailable, c1) →
  JS.truthy (optional_organizer current) && isAvailable = false →
  spec_firstAvailable cfg dateNow (candidates cfg (isPrakerja_of training program)) c1
  = (Returned None, c2) →
  createEvent_organizer cfg dateNow (orNull organizer) (isPrakerja_of training program) c
  = (Returned (orNull organizer), c2)
  ∧ createEvent cfg events_insert dateNow attendees training program organizer c
    = try_catch (createEvent_insert cfg events_insert attendees
                   (isPrakerja_of training program) (orNull organizer))
                (createEvent_catch dateNow (orNull organizer)) c2.
Proof.
  intros Hgiven Hreq Hcur Havail Hfall Hnone.
  apply spec_firstAvailable_None in Hnone.
  rewrite <- fetchAvailableOrganizers_candidates in Hnone.
  pose proof (createEvent_organizer_from_list _ _ _ _ _ _ _ _ _ _
                Hreq Hcur Havail Hfall Hnone) as Hchosen.
  split; [exact Hchosen|]. by apply createEvent_after_selection.
Qed.

Lemma createEvent_proceeds_without_organizer_witness :
  createEvent_organizer sampleConfig 2000 JS.null true cacheAllSuspended
  = (Returned JS.null, cacheAllSuspended)
  ∧ createEvent sampleConfig acceptsNoOrganizer 2000 [student "s@gmail.com"]
      (Some PRAKERJA) None JS.null cacheAllSuspended
    = try_catch (createEvent_insert sampleConfig acceptsNoOrganizer [student "s@gmail.com"]
                   true JS.null)
                (createEvent_catch 2000 JS.null) cacheAllSuspended.
Proof.
  apply (createEvent_proceeds_without_organizer sampleConfig acceptsNoOrganizer 2000
           [student "s@gmail.com"] (Some PRAKERJA) None JS.null cacheAllSuspended
           cacheAllSuspended cacheAllSuspended None true).
  - left. by eexists.
  - reflexivity.
  - reflexivity.
  - reflexivity.
  - reflexivity.
  - vm_compute. reflexivity.
Defined.

(** ** Claims about malformed entries *)

Lemma poolParseError_not_json isPrakerja (c : Cache) e raw message :
  c !! poolKey isPrakerja = Some e → value e = NotJson raw message → raw ≠ "" →
  poolParseError isPrakerja c = Some message.
Proof.
  intros Hkey Hv Hraw. unfold poolParseError. rewrite Hkey. simpl. rewrite Hv.
  by rewrite bool_decide_eq_false_2.
Qed.

Lemma fetchCurrentOrganizer_not_json isPrakerja (c : Cache) message :
  poolParseError isPrakerja c = Some message →
  fetchCurrentOrganizer isPrakerja c = (Thrown (SyntaxError message), c).
Proof.
  rewrite fetchCurrentOrganizer_eq. unfold poolParseError.
  destruct (value <$> c !! poolKey isPrakerja) as [[raw message'|v|t]|]; try done.
  case_bool_decide; [done|]. by intros [= ->].
Qed.

(** The two categories are read one after the other, prakerja first: with
    a malformed text in one of them, the parse error of the first such
    entry leaves the method. *)
Lemma read_both_not_json {A} (k : option JsonValue → option JsonValue → Async A) (c : Cache)
    message :
  isPoolParseError c message →
  ∃ message',
    isPoolParseError c message'
    ∧ (currentOrganizerPrakerja ← fetchCurrentOrganizer true;
       currentOrganizerNonPrakerja ← fetchCurrentOrganizer false;
       k currentOrganizerPrakerja currentOrganizerNonPrakerja) c
      = (Thrown (SyntaxError message'), c).
Proof.
  intros [isPrakerja Herror].
  destruct (fetchCurrentOrganizer_cases true c) as [[current Hp]|(message' & Herror' & Hp)].
  - rewrite (bind_returned _ _ _ _ _ Hp).
    destruct isPrakerja.
    + rewrite (fetchCurrentOrganizer_not_json _ _ _ Herror) in Hp. discriminate Hp.
    + exists message. split; [by exists false|].
      by rewrite (bind_thrown _ _ _ _ _ (fetchCurrentOrganizer_not_json _ _ _ Herror)).
  - exists message'. split; [by exists true|]. by rewrite (bind_thrown _ _ _ _ _ Hp).
Qed.

Lemma isOrganizerAvailable_not_json cfg dateNow organizer (c : Cache) message :
  isPoolParseError c message →
  ∃ message',
    isPoolParseError c message'
    ∧ isOrganizerAvailable cfg dateNow organizer c = (Thrown (SyntaxError message'), c).
Proof. intros Herror. unfold isOrganizerAvailable. by eapply read_both_not_json. Qed.

Lemma poolParseError_insert_blockKey isPrakerja organizer entry (c : Cache) :
  poolParseError isPrakerja (<[blockKey organizer := entry]> c) = poolParseError isPrakerja c.
Proof.
  unfold poolParseError. rewrite lookup_insert_ne; [done|apply blockKey_poolKey].
Qed.

Lemma isPoolParseError_insert_blockKey organizer entry (c : Cache) message :
  isPoolParseError (<[blockKey organizer := entry]> c) message ↔ isPoolParseError c message.
Proof.
  unfold isPoolParseError. by setoid_rewrite poolParseError_insert_blockKey.
Qed.

Lemma blockOrganizer_not_json dateNow organizer (c : Cache) message :
  isPoolParseError c message →
  ∃ message',
    isPoolParseError c message'
    ∧ blockOrganizer dateNow organizer c
      = (Thrown (SyntaxError message'),
         <[blockKey organizer := {| value := DateJson dateNow; ttl := 24 * 60 * 60 |}]> c).
Proof.
  intros Herror. unfold blockOrganizer.
  set (c' := <[blockKey organizer := {| value := DateJson dateNow; ttl := 24 * 60 * 60 |}]> c).
  assert (RskCacheService.put (blockKey organizer)
            (serializeCacheValue (DateData dateNow)) (24 * 60 * 60) c
          = (Returned (), c')) as Hput by done.
  rewrite (bind_returned _ _ _ _ _ Hput).
  apply (isPoolParseError_insert_blockKey organizer
           {| value := DateJson dateNow; ttl := 24 * 60 * 60 |}) in Herror.
  destruct (read_both_not_json
              (λ currentPrakerja currentNonPrakerja,
                 if JS.truthy (optional_organizer currentPrakerja)
                    && bool_decide (organizer = optional_organizer currentPrakerja)
                 then RskCacheService.delete (gcalMainKey +:+ "-prakerja")
                 else if JS.truthy (optional_organizer currentNonPrakerja)
                         && bool_decide (organizer = optional_organizer currentNonPrakerja)
                 then RskCacheService.delete (gcalMainKey +:+ "-non-prakerja")
                 else mret ())
              _ _ Herror) as (message' & Herror' & Hread).
  exists message'. split; [by apply isPoolParseError_insert_blockKey in Herror'|].
  exact Hread.
Qed.

(** The selection of [createEvent] fails with a parse error before any
    provider call. *)
Lemma createEvent_organizer_not_json cfg dateNow organizer isPrakerja (c : Cache) message :
  isPoolParseError c message →
  ∃ message',
    isPoolParseError c message'
    ∧ createEvent_organizer cfg dateNow organizer isPrakerja c
      = (Thrown (SyntaxError message'), c).
Proof.
  intros Herror. unfold createEvent_organizer.
  destruct (fetchCurrentOrganizer_cases isPrakerja c)
    as [[current Hp]|(message' & Herror' & Hp)].
  - rewrite (bind_returned _ _ _ _ _ Hp).
    destruct (isOrganizerAvailable_not_json cfg dateNow (optional_organizer current) c
                message Herror) as (message' & Herror' & Havail).
    exists message'. split; [done|]. by rewrite (bind_thrown _ _ _ _ _ Havail).
  - exists message'. split; [by exists isPrakerja|]. by rewrite (bind_thrown _ _ _ _ _ Hp).
Qed.

(** [createEvent] catches the parse error of the selection. Its handler
    looks for the usage limit text in the message: without it the method
    returns [undefined]; with it the handler suspends the requested
    organizer, and the suspension fails on the malformed entry after the
    record is written. *)
Lemma createEvent_not_json cfg events_insert dateNow attendees training program organizer
    (c : Cache) message :
  is_Some training ∨ is_Some program →
  isPoolParseError c message →
  ∃ caught,
    isPoolParseError c caught
    ∧ (JS.includes caught "Calendar usage limit" = false →
       createEvent cfg events_insert dateNow attendees training program organizer c
       = (Returned None, c))
    ∧ (JS.includes caught "Calendar usage limit" = true →
       ∃ message',
         isPoolParseError c message'
         ∧ createEvent cfg events_insert dateNow attendees training program organizer c
           = (Thrown (SyntaxError message'),
              <[blockKey (orNull organizer)
                  := {| value := DateJson dateNow; ttl := 24 * 60 * 60 |}]> c)).
Proof.
  intros Hgiven Herror.
  destruct (createEvent_organizer_not_json cfg dateNow (orNull organizer)
              (isPrakerja_of training program) c message Herror)
    as (caught & Hcaught & Hchosen).
  exists caught. split; [done|].
  rewrite (createEvent_with_program _ _ _ _ _ _ _ _ Hgiven).
  rewrite (createEvent_try_selection_fails _ _ _ _ _ _ _ _ _ Hchosen).
  unfold createEvent_catch. simpl. split; intros ->; [done|].
  destruct (blockOrganizer_not_json dateNow (orNull organizer) c message Herror)
    as (message' & Herror' & Hblock).
  exists message'. split; [done|]. by rewrite (bind_thrown _ _ _ _ _ Hblock).
Qed.

(** C7, as stated, fails: with the text [{] under the prakerja key, reading
    the current organizer, recording an assignment and checking
    availability all throw, where they return with the entry absent. *)
Lemma readsAsAbsent_fails_on_malformed_text :
  fetchCurrentOrganizer true cacheWithMalformedPool
  = (Thrown (SyntaxError "Unexpected end of JSON input"), cacheWithMalformedPool)
  ∧ fetchCurrentOrganizer true (delete (poolKey true) cacheWithMalformedPool)
    = (Returned None, delete (poolKey true) cacheWithMalformedPool)
  ∧ cacheOrganizerAndAttendee sampleConfig [student "x@gmail.com"] (JS.Str "a@pool.id") true
      cacheWithMalformedPool
    = (Thrown (SyntaxError "Unexpected end of JSON input"), cacheWithMalformedPool)
  ∧ isOrganizerAvailable sampleConfig 2000 (JS.Str "a@pool.id") cacheWithMalformedPool
    = (Thrown (SyntaxError "Unexpected end of JSON input"), cacheWithMalformedPool)
  ∧ ¬ readsAsAbsent sampleConfig 2000 true cacheWithMalformedPool.
Proof.
  split_and!; [vm_compute; reflexivity..|].
  intros [Hread _]. vm_compute in Hread. discriminate Hread.
Qed.

(** The handler of [createEvent] on a parse error whose message quotes the
    usage limit text: the requested organizer gets a suspension record and
    the parse error leaves [createEvent], thrown again by the suspension. *)
Lemma createEvent_on_quoted_limit_text :
  message_includes
    (SyntaxError ("Unexpected token 'C', " +:+ doubleQuote +:+ "Calendar usage limit"
                  +:+ doubleQuote +:+ " is not valid JSON"))
    "Calendar usage limit" = true
  ∧ createEvent sampleConfig alwaysInserts 2000 [student "x@gmail.com"] (Some PRAKERJA) None
      (JS.Str "a@pool.id") cacheWithQuotedLimit
    = (Thrown (SyntaxError ("Unexpected token 'C', " +:+ doubleQuote +:+ "Calendar usage limit"
                            +:+ doubleQuote +:+ " is not valid JSON")),
       <[blockKey (JS.Str "a@pool.id") := blockEntry 2000]> cacheWithQuotedLimit).
Proof. split; vm_compute; reflexivity. Qed.

(** C7, amended: only an absent entry is read as no state. A non-empty text
    that [JSON.parse] rejects, stored under a category's key, makes
    [fetchCurrentOrganizer] and [cacheOrganizerAndAttendee] throw its parse
    error with the cache unchanged, makes [isOrganizerAvailable] throw the
    parse error of such an entry with the cache unchanged, and makes
    [blockOrganizer] throw it after the suspension record is written.
    [createEvent], for a request that names a training or a program,
    catches the parse error before any provider call: it returns
    [undefined] with the cache unchanged, unless the message of the error
    contains [Calendar usage limit]; then its handler writes a suspension
    record for the requested organizer and the parse error thrown by that
    suspension leaves [createEvent]. *)
Theorem malformed_pool_text_throws cfg events_insert dateNow attendees organizer isPrakerja
    (c : Cache) raw message storeTtl :
  c !! poolKey isPrakerja = Some {| value := NotJson raw message; ttl := storeTtl |} →
  raw ≠ "" →
  fetchCurrentOrganizer isPrakerja c = (Thrown (SyntaxError message), c)
  ∧ fetchCurrentOrganizer isPrakerja (delete (poolKey isPrakerja) c)
    = (Returned None, delete (poolKey isPrakerja) c)
  ∧ cacheOrganizerAndAttendee cfg attendees organizer isPrakerja c
    = (Thrown (SyntaxError message), c)
  ∧ (∃ message',
       isPoolParseError c message'
       ∧ isOrganizerAvailable cfg dateNow organizer c = (Thrown (SyntaxError message'), c))
  ∧ (∃ message' c',
       isPoolParseError c message'
       ∧ blockOrganizer dateNow organizer c = (Thrown (SyntaxError message'), c')
       ∧ suspendedAt organizer c' = Some dateNow)
  ∧ ∀ training program,
      is_Some training ∨ is_Some program →
      ∃ caught,
        isPoolParseError c caught
        ∧ (JS.includes caught "Calendar usage limit" = false →
           createEvent cfg events_insert dateNow attendees training program organizer c
           = (Returned None, c))
        ∧ (JS.includes caught "Calendar usage limit" = true →
           ∃ message',
             isPoolParseError c message'
             ∧ createEvent cfg events_insert dateNow attendees training program organizer c
               = (Thrown (SyntaxError message'),
                  <[blockKey (orNull organizer)
                      := {| value := DateJson dateNow; ttl := 24 * 60 * 60 |}]> c)).
Proof.
  intros Hkey Hraw.
  pose proof (poolParseError_not_json isPrakerja c _ raw message Hkey eq_refl Hraw) as Hown.
  assert (isPoolParseError c message) as Herror by (by exists isPrakerja).
  split_and!.
  - by apply fetchCurrentOrganizer_not_json.
  - by rewrite fetchCurrentOrganizer_eq, lookup_delete_eq.
  - by eapply cacheOrganizerAndAttendee_not_json.
  - by eapply isOrganizerAvailable_not_json.
  - destruct (blockOrganizer_not_json dateNow organizer c message Herror)
      as (message' & Herror' & Hblock).
    eexists message', _. split; [done|]. split; [exact Hblock|].
    unfold suspendedAt. by rewrite lookup_insert_eq.
  - intros training program Hgiven. by eapply createEvent_not_json.
Qed.

Lemma malformed_pool_text_throws_witness :
  fetchCurrentOrganizer true cacheWithMalformedPool
  = (Thrown (SyntaxError "Unexpected end of JSON input"), cacheWithMalformedPool)
  ∧ cacheOrganizerAndAttendee sampleConfig [student "x@gmail.com"] (JS.Str "a@pool.id") true
      cacheWithMalformedPool
    = (Thrown (SyntaxError "Unexpected end of JSON input"), cacheWithMalformedPool)
  ∧ createEvent sampleConfig acceptsNoOrganizer 2000 [student "x@gmail.com"]
      (Some OTHER_PRODUCT) None (JS.Str "a@pool.id") cacheWithMalformedPool
    = (Returned None, cacheWithMalformedPool).
Proof.
  destruct (malformed_pool_text_throws sampleConfig acceptsNoOrganizer 2000
              [student "x@gmail.com"] (JS.Str "a@pool.id") true cacheWithMalformedPool
              "{" "Unexpected end of JSON input" oneMonthInMilliSeconds)
    as (Hread & _ & Hrecord & _ & _ & Hcreate).
  - reflexivity.
  - discriminate.
  - split; [exact Hread|]. split; [exact Hrecord|].
    destruct (Hcreate (Some OTHER_PRODUCT) None) as (caught & [[] Hcaught] & Hreturns & _).
    + left. eexists. reflexivity.
    + apply Hreturns. vm_compute in Hcaught. injection Hcaught as <-. reflexivity.
    + vm_compute in Hcaught. discriminate Hcaught.
Defined.

(** * Further properties *)

(** ** What a run may change in the cache *)

Lemma changes_refl written deleted (c : Cache) : changes written deleted c c.
Proof. intros key. by left. Qed.

Lemma changes_trans written deleted (c1 c2 c3 : Cache) :
  changes written deleted c1 c2 → changes written deleted c2 c3 →
  changes written deleted c1 c3.
Proof.
  intros H12 H23 key. destruct (H23 key) as [Heq|[?|[? ?]]]; [|by auto..].
  rewrite Heq. apply H12.
Qed.

Lemma changes_mono (written deleted written' deleted' : string → Prop) (c c' : Cache) :
  (∀ key, written key → written' key) → (∀ key, deleted key → deleted' key) →
  changes written deleted c c' → changes written' deleted' c c'.
Proof. intros Hw Hd H key. destruct (H key) as [?|[?|[? ?]]]; auto. Qed.

Lemma Changes_mono {A} (written deleted written' deleted' : string → Prop) (m : Async A) :
  (∀ key, written key → written' key) → (∀ key, deleted key → deleted' key) →
  Changes written deleted m → Changes written' deleted' m.
Proof. intros Hw Hd H c. eapply changes_mono; [done..|apply H]. Qed.

Lemma Changes_ret {A} written deleted (a : A) : Changes written deleted (mret a).
Proof. intros c. apply changes_refl. Qed.

Lemma Changes_throw {A} written deleted e : Changes written deleted (throw e : Async A).
Proof. intros c. apply changes_refl. Qed.

Lemma Changes_bind {A B} written deleted (m : Async A) (k : A → Async B) :
  Changes written deleted m → (∀ a, Changes written deleted (k a)) →
  Changes written deleted (m ≫= k).
Proof.
  intros Hm Hk c. unfold mbind, Async_bind. specialize (Hm c).
  destruct (m c) as [[a|e] c1]; [|done].
  eapply changes_trans; [exact Hm|apply Hk].
Qed.

Lemma Changes_try_catch {A} written deleted (m : Async A) handler :
  Changes written deleted m → (∀ e, Changes written deleted (handler e)) →
  Changes written deleted (try_catch m handler).
Proof.
  intros Hm Hh c. unfold try_catch. specialize (Hm c).
  destruct (m c) as [[a|e] c1]; [done|].
  eapply changes_trans; [exact Hm|apply Hh].
Qed.

Lemma Changes_when written deleted (b : bool) m :
  Changes written deleted m → Changes written deleted (when b m).
Proof. intros Hm. destruct b; [done|apply Changes_ret]. Qed.

Lemma Changes_get written deleted key : Changes written deleted (RskCacheService.get key).
Proof. intros c. apply changes_refl. Qed.

Lemma Changes_put (written deleted : string → Prop) key v ttlSeconds :
  written key → Changes written deleted (RskCacheService.put key v ttlSeconds).
Proof.
  intros Hkey c key'. simpl. destruct (decide (key = key')) as [<-|Hne]; [by auto|].
  left. by apply lookup_insert_ne.
Qed.

Lemma Changes_delete (written deleted : string → Prop) key :
  deleted key → Changes written deleted (RskCacheService.delete key).
Proof.
  intros Hkey c key'. simpl. destruct (decide (key = key')) as [<-|Hne].
  - right; right. split; [done|apply lookup_delete_eq].
  - left. by apply lookup_delete_ne.
Qed.

Lemma Changes_deserializeCacheValue written deleted cacheValue :
  Changes written deleted (deserializeCacheValue cacheValue).
Proof.
  destruct cacheValue as [[| |]|]; simpl;
    first [apply Changes_ret|apply Changes_throw].
Qed.

Lemma Changes_length_of written deleted a : Changes written deleted (length_of a).
Proof. destruct a; simpl; first [apply Changes_ret|apply Changes_throw]. Qed.

(** Reading a category's state changes nothing. *)
Lemma Changes_fetchCurrentOrganizer written deleted isPrakerja :
  Changes written deleted (fetchCurrentOrganizer isPrakerja).
Proof.
  unfold fetchCurrentOrganizer. apply Changes_bind; [apply Changes_get|].
  intros v. destruct (text_truthy v);
    [apply Changes_deserializeCacheValue|apply Changes_ret].
Qed.

Lemma Changes_shouldBlockCurrentOrganizer cfg written deleted current organizer :
  Changes written deleted (shouldBlockCurrentOrganizer cfg current organizer).
Proof.
  unfold shouldBlockCurrentOrganizer. destruct current; [|apply Changes_ret].
  case_bool_decide; [|apply Changes_ret].
  apply Changes_bind; [apply Changes_length_of|]. intros ?. apply Changes_ret.
Qed.

(** [cacheOrganizerAndAttendee] writes the entry of its category and
    nothing else. *)
Lemma Changes_cacheOrganizerAndAttendee cfg attendees organizerReq isPrakerja :
  Changes (λ key, key = poolKey isPrakerja) (λ _, False)
    (cacheOrganizerAndAttendee cfg attendees organizerReq isPrakerja).
Proof.
  unfold cacheOrganizerAndAttendee. apply Changes_bind; [apply Changes_get|]. intros data.
  apply Changes_bind; [apply Changes_deserializeCacheValue|]. intros parsed.
  apply Changes_bind.
  - destruct parsed; [|apply Changes_ret].
    destruct (_ && _); [|apply Changes_ret].
    apply Changes_bind; [apply Changes_length_of|]. intros len.
    destruct (len <? _); apply Changes_ret.
  - intros state. apply Changes_bind; [by apply Changes_put|]. intros ?. apply Changes_ret.
Qed.

(** [blockOrganizer] writes the organizer's record and may delete entries
    of the categories. *)
Lemma Changes_blockOrganizer dateNow organizer :
  Changes (λ key, key = blockKey organizer) isPoolKey (blockOrganizer dateNow organizer).
Proof.
  unfold blockOrganizer. apply Changes_bind; [by apply Changes_put|]. intros ?.
  apply Changes_bind; [apply Changes_fetchCurrentOrganizer|]. intros currentPrakerja.
  apply Changes_bind; [apply Changes_fetchCurrentOrganizer|]. intros currentNonPrakerja.
  destruct (_ && _); [apply Changes_delete; by exists true|].
  destruct (_ && _); [apply Changes_delete; by exists false|apply Changes_ret].
Qed.

(** [isOrganizerAvailable] may write or delete the record of the organizer
    it is asked about and may delete entries of the categories; it leaves
    every other key, the records of the other organizers among them, as it
    was, whether it returns or throws. *)
Lemma Changes_isOrganizerAvailable cfg dateNow organizer :
  Changes (λ key, key = blockKey organizer) isPoolKey
    (isOrganizerAvailable cfg dateNow organizer).
Proof.
  unfold isOrganizerAvailable.
  apply Changes_bind; [apply Changes_fetchCurrentOrganizer|]. intros currentPrakerja.
  apply Changes_bind; [apply Changes_fetchCurrentOrganizer|]. intros currentNonPrakerja.
  apply Changes_bind; [apply Changes_shouldBlockCurrentOrganizer|]. intros shouldP.
  apply Changes_bind; [apply Changes_shouldBlockCurrentOrganizer|]. intros shouldNP.
  destruct (shouldP || shouldNP).
  - apply Changes_bind; [apply Changes_when, Changes_blockOrganizer|]. intros ?.
    apply Changes_bind; [apply Changes_when, Changes_blockOrganizer|]. intros ?.
    apply Changes_ret.
  - apply Changes_bind; [apply Changes_get|]. intros cacheValue.
    destruct (text_truthy cacheValue); [|apply Changes_ret].
    apply Changes_bind; [apply Changes_deserializeCacheValue|]. intros blockedDateStr.
    destruct (isBlockedTimeFinished _ _); [|apply Changes_ret].
    apply Changes_bind; [|intros ?; apply Changes_ret].
    intros c key. simpl. destruct (decide (blockKey organizer = key)) as [<-|Hne]; [by auto|].
    left. by apply lookup_delete_ne.
Qed.

(** ** Caches the service can read stay so *)

Lemma wellFormed_empty : wellFormed ∅.
Proof.
  unfold wellFormed, poolReadable. rewrite !lookup_empty. split_and!; [done..|].
  intros organizer e H. by rewrite lookup_empty in H.
Qed.

Lemma wellFormed_persisted isPrakerja v l (c : Cache) :
  uniqueAttendees v = Some l → wellFormed c → wellFormed (persisted isPrakerja v c).
Proof.
  intros Hl (HP & HNP & Hblock).
  assert (∀ b, poolReadable b (persisted isPrakerja v c)) as Hpool.
  { intros b. unfold poolReadable, persisted.
    destruct (decide (b = isPrakerja)) as [->|Hne].
    - rewrite lookup_insert_eq. simpl. by rewrite Hl.
    - rewrite lookup_insert_ne by (intros H; by apply poolKey_inj in H).
      by destruct b. }
  split_and!; [apply Hpool..|].
  intros organizer e. unfold persisted.
  rewrite lookup_insert_ne by apply not_eq_sym, blockKey_poolKey. apply Hblock.
Qed.

Lemma wellFormed_insert_blockKey organizer t storeTtl (c : Cache) :
  wellFormed c → wellFormed (<[blockKey organizer := {| value := DateJson t; ttl := storeTtl |}]> c).
Proof.
  intros (HP & HNP & Hblock). split_and!; [by apply poolReadable_insert_blockKey..|].
  intros organizer' e.
  destruct (decide (blockKey organizer = blockKey organizer')) as [<-|Hne].
  - rewrite lookup_insert_eq. intros [= <-]. by exists t.
  - rewrite lookup_insert_ne by done. apply Hblock.
Qed.

Lemma wellFormed_delete key (c : Cache) : wellFormed c → wellFormed (delete key c).
Proof.
  intros (HP & HNP & Hblock).
  assert (∀ b, poolReadable b c → poolReadable b (delete key c)) as Hpool.
  { intros b. unfold poolReadable. destruct (decide (key = poolKey b)) as [->|Hne].
    - by rewrite lookup_delete_eq.
    - by rewrite lookup_delete_ne. }
  split_and!; [by apply Hpool..|].
  intros organizer e. destruct (decide (key = blockKey organizer)) as [->|Hne].
  - by rewrite lookup_delete_eq.
  - rewrite lookup_delete_ne by done. apply Hblock.
Qed.

Lemma wellFormed_blocked dateNow organizer (c : Cache) :
  wellFormed c → wellFormed (blocked dateNow organizer c).
Proof.
  intros Hc. unfold blocked.
  destruct (_ && _); [by apply wellFormed_delete, wellFormed_insert_blockKey|].
  destruct (_ && _); [by apply wellFormed_delete, wellFormed_insert_blockKey|].
  by apply wellFormed_insert_blockKey.
Qed.

(** With the category's entry readable, [cacheOrganizerAndAttendee] returns
    and persists a state that has its list. *)
Lemma cacheOrganizerAndAttendee_readable cfg attendees organizerReq isPrakerja (c : Cache) :
  poolReadable isPrakerja c →
  ∃ v' l',
    cacheOrganizerAndAttendee cfg attendees organizerReq isPrakerja c
    = (Returned (organizer v'), persisted isPrakerja v' c)
    ∧ uniqueAttendees v' = Some l'.
Proof.
  unfold poolReadable. destruct (c !! poolKey isPrakerja) as [e|] eqn:Hkey; simpl.
  - destruct (value e) as [raw message|v|t] eqn:Hv; [done| |done]. intros [l Hl].
    destruct (JS.truthy (organizer v) && looseEq (organizer v) (orNull organizerReq)) eqn:Heq.
    + destruct (Z.lt_ge_cases (Z.of_nat (length l)) (externalAttendeesLimit cfg)).
      * exists (fromPayload (organizer v) (Some (foldl addAttendee (JS.Set_new l) attendees))).
        eexists. split; [|done].
        exact (cacheOrganizerAndAttendee_merge cfg attendees organizerReq isPrakerja c
                 e v l Hkey Hv Heq Hl H).
      * exists v, l. split; [by eapply cacheOrganizerAndAttendee_full|done].
    + exists v, l. split; [by eapply cacheOrganizerAndAttendee_other|done].
  - intros _. exists (fromPayload (orNull organizerReq) (Some (newAttendees attendees))).
    eexists. split; [|done].
    exact (cacheOrganizerAndAttendee_absent cfg attendees organizerReq isPrakerja c Hkey).
Qed.

Lemma wellFormed_poolReadable isPrakerja (c : Cache) : wellFormed c → poolReadable isPrakerja c.
Proof. intros (HP & HNP & _). by destruct isPrakerja. Qed.

Lemma cacheOrganizerAndAttendee_wellFormed cfg attendees organizerReq isPrakerja (c : Cache) :
  wellFormed c →
  ∃ stored c',
    cacheOrganizerAndAttendee cfg attendees organizerReq isPrakerja c = (Returned stored, c')
    ∧ wellFormed c'.
Proof.
  intros Hc.
  destruct (cacheOrganizerAndAttendee_readable cfg attendees organizerReq isPrakerja c
              (wellFormed_poolReadable _ _ Hc)) as (v' & l' & Hcall & Hl').
  eexists _, _. split; [exact Hcall|]. by eapply wellFormed_persisted.
Qed.

Lemma blockOrganizer_wellFormed dateNow organizer (c : Cache) :
  wellFormed c →
  blockOrganizer dateNow organizer c = (Returned (), blocked dateNow organizer c)
  ∧ wellFormed (blocked dateNow organizer c).
Proof.
  intros Hc. split; [|by apply wellFormed_blocked].
  apply blockOrganizer_readable; by apply wellFormed_poolReadable.
Qed.

Lemma wellFormed_suspendedAt organizer (c : Cache) :
  wellFormed c →
  match suspendedAt organizer c with
  | Some t => ∃ storeTtl, c !! blockKey organizer = Some {| value := DateJson t; ttl := storeTtl |}
  | None => c !! blockKey organizer = None
  end.
Proof.
  intros (_ & _ & Hblock). unfold suspendedAt. specialize (Hblock organizer).
  destruct (c !! blockKey organizer) as [[v storeTtl]|]; simpl; [|done].
  destruct (Hblock _ eq_refl) as [t Ht]. simpl in Ht. subst v. by exists storeTtl.
Qed.

(** The whole decision on a cache the service can read. *)
Lemma isOrganizerAvailable_wellFormed cfg dateNow organizer (c : Cache) :
  wellFormed c →
  isOrganizerAvailable cfg dateNow organizer c =
  if quotaExhausted cfg organizer true c && quotaExhausted cfg organizer false c
  then (Returned false, c)
  else if quotaExhausted cfg organizer true c || quotaExhausted cfg organizer false c
  then (Returned false, blocked dateNow organizer c)
  else match suspendedAt organizer c with
       | None => (Returned true, c)
       | Some t =>
           if dateNow - t >? twentyFourHoursInMilliseconds
           then (Returned true, delete (blockKey organizer) c)
           else (Returned false, c)
       end.
Proof.
  intros Hc. pose proof (wellFormed_poolReadable true c Hc) as HP.
  pose proof (wellFormed_poolReadable false c Hc) as HNP.
  pose proof (wellFormed_suspendedAt organizer c Hc) as Hrecord.
  destruct (quotaExhausted cfg organizer true c) eqn:HexP,
           (quotaExhausted cfg organizer false c) eqn:HexNP; simpl.
  - by apply isOrganizerAvailable_both_exhausted.
  - apply isOrganizerAvailable_one_exhausted; [done..|]. by rewrite HexP, HexNP.
  - apply isOrganizerAvailable_one_exhausted; [done..|]. by rewrite HexP, HexNP.
  - destruct (suspendedAt organizer c) as [t|].
    + destruct Hrecord as [storeTtl Hkey].
      by eapply isOrganizerAvailable_suspended.
    + apply isOrganizerAvailable_not_suspended; [done..|]. by rewrite Hrecord.
Qed.

Lemma isOrganizerAvailable_wellFormed_after cfg dateNow organizer (c : Cache) :
  wellFormed c →
  ∃ isAvailable c',
    isOrganizerAvailable cfg dateNow organizer c = (Returned isAvailable, c')
    ∧ wellFormed c'.
Proof.
  intros Hc. rewrite (isOrganizerAvailable_wellFormed _ _ _ _ Hc).
  destruct (_ && _); [by eauto|].
  destruct (_ || _); [eauto using wellFormed_blocked|].
  destruct (suspendedAt organizer c) as [t|]; [|by eauto].
  destruct (_ >? _); eauto using wellFormed_delete.
Qed.

Lemma availableOrganizers_loop_wellFormed cfg dateNow organizers acc (c : Cache) :
  wellFormed c →
  ∃ available c',
    availableOrganizers_loop cfg dateNow organizers acc c = (Returned available, c')
    ∧ wellFormed c'.
Proof.
  revert acc c. induction organizers as [|org rest IH]; intros acc c Hc; simpl.
  - by exists acc, c.
  - destruct (isOrganizerAvailable_wellFormed_after cfg dateNow (JS.Str org) c Hc)
      as (isAvailable & c1 & Hcheck & Hc1).
    rewrite (bind_returned _ _ _ _ _ Hcheck). by apply IH.
Qed.

Lemma fetchAvailableOrganizers_wellFormed cfg dateNow isPrakerja organizers (c : Cache) :
  wellFormed c →
  ∃ available c',
    fetchAvailableOrganizers cfg dateNow isPrakerja organizers c = (Returned available, c')
    ∧ wellFormed c'.
Proof. intros Hc. unfold fetchAvailableOrganizers. by apply availableOrganizers_loop_wellFormed. Qed.

Lemma createEvent_organizer_wellFormed cfg dateNow organizer isPrakerja (c : Cache) :
  wellFormed c →
  ∃ chosen c',
    createEvent_organizer cfg dateNow organizer isPrakerja c = (Returned chosen, c')
    ∧ wellFormed c'.
Proof.
  intros Hc. unfold createEvent_organizer.
  rewrite (bind_returned _ _ _ _ _
             (fetchCurrentOrganizer_readable isPrakerja c (wellFormed_poolReadable _ _ Hc))).
  destruct (isOrganizerAvailable_wellFormed_after cfg dateNow
              (optional_organizer (JDto <$> poolState isPrakerja c)) c Hc)
    as (isAvailable & c1 & Hcheck & Hc1).
  rewrite (bind_returned _ _ _ _ _ Hcheck).
  destruct (negb (JS.truthy organizer)); [|by eauto].
  destruct (_ && _); [by eauto|].
  destruct (fetchAvailableOrganizers_wellFormed cfg dateNow isPrakerja None c1 Hc1)
    as (available & c2 & Hlist & Hc2).
  rewrite (bind_returned _ _ _ _ _ Hlist).
  destruct available as [|first ?]; [by eauto|]. destruct (JS.truthy _); by eauto.
Qed.

Lemma createEvent_catch_wellFormed dateNow organizer error (c : Cache) :
  wellFormed c →
  ∃ r c', createEvent_catch dateNow organizer error c = (r, c') ∧ wellFormed c'
          ∧ (r = Returned None ∨ r = Thrown (HttpException "Calendar usage limit")).
Proof.
  intros Hc. unfold createEvent_catch. destruct (message_includes _ _).
  - destruct (blockOrganizer_wellFormed dateNow organizer c Hc) as [Hblock Hc'].
    rewrite (bind_returned _ _ _ _ _ Hblock). eexists _, _. split; [done|]. by auto.
  - eexists _, _. split; [done|]. by auto.
Qed.

Lemma createEvent_insert_wellFormed cfg events_insert attendees isPrakerja organizer
    (c : Cache) :
  wellFormed c →
  ∃ r c', createEvent_insert cfg events_insert attendees isPrakerja organizer c = (r, c')
          ∧ wellFormed c'.
Proof.
  intros Hc. unfold createEvent_insert.
  destruct (events_insert organizer) as [status|msg]; [|by eexists _, _].
  unfold mbind at 1, Async_bind at 1, mret at 1, Async_ret at 1.
  case_bool_decide.
  - destruct (cacheOrganizerAndAttendee_wellFormed cfg attendees organizer isPrakerja c Hc)
      as (stored & c1 & Hcall & Hc1).
    rewrite (bind_returned _ _ _ _ _ Hcall). destruct (find _ _); by eexists _, _.
  - unfold mbind, Async_bind, mret, Async_ret. destruct (find _ _); by eexists _, _.
Qed.

Lemma createEvent_try_wellFormed cfg events_insert dateNow attendees isPrakerja organizer
    (c : Cache) :
  wellFormed c →
  ∃ r c',
    createEvent_try cfg events_insert dateNow attendees isPrakerja organizer c = (r, c')
    ∧ wellFormed c'
    ∧ ((∃ result, r = Returned result) ∨ r = Thrown (HttpException "Calendar usage limit")).
Proof.
  intros Hc.
  destruct (createEvent_organizer_wellFormed cfg dateNow organizer isPrakerja c Hc)
    as (chosen & c1 & Hchosen & Hc1).
  rewrite (createEvent_try_after_selection _ _ _ _ _ _ _ _ _ Hchosen).
  unfold try_catch.
  destruct (createEvent_insert_wellFormed cfg events_insert attendees isPrakerja chosen c1 Hc1)
    as (r & c2 & Hinsert & Hc2).
  rewrite Hinsert. destruct r as [result|error]; [by eauto 8|].
  destruct (createEvent_catch_wellFormed dateNow chosen error c2 Hc2)
    as (r' & c3 & Hcatch & Hc3 & [->| ->]); rewrite Hcatch; eauto 8.
Qed.

Lemma createEvent_wellFormed cfg events_insert dateNow attendees training program organizer
    (c : Cache) :
  wellFormed c →
  is_Some training ∨ is_Some program →
  ∃ r c',
    createEvent cfg events_insert dateNow attendees training program organizer c = (r, c')
    ∧ wellFormed c'
    ∧ ((∃ result, r = Returned result) ∨ r = Thrown (HttpException "Calendar usage limit")).
Proof.
  intros Hc Hgiven. rewrite createEvent_with_program by done.
  by apply createEvent_try_wellFormed.
Qed.

Lemma KeepsWellFormed_ret {A} (a : A) : KeepsWellFormed (mret a).
Proof. by intros c Hc. Qed.

Lemma KeepsWellFormed_throw {A} e : KeepsWellFormed (throw e : Async A).
Proof. by intros c Hc. Qed.

Lemma KeepsWellFormed_bind {A B} (m : Async A) (k : A → Async B) :
  KeepsWellFormed m → (∀ a, KeepsWellFormed (k a)) → KeepsWellFormed (m ≫= k).
Proof.
  intros Hm Hk c Hc. unfold mbind, Async_bind. specialize (Hm c Hc).
  destruct (m c) as [[a|e] c1]; [by apply Hk|done].
Qed.

Lemma KeepsWellFormed_cacheOrganizerAndAttendee cfg attendees organizerReq isPrakerja :
  KeepsWellFormed (cacheOrganizerAndAttendee cfg attendees organizerReq isPrakerja).
Proof.
  intros c Hc.
  by destruct (cacheOrganizerAndAttendee_wellFormed cfg attendees organizerReq isPrakerja c Hc)
    as (? & ? & -> & ?).
Qed.

Lemma updateEventAttendee_try_wellFormed cfg events_get events_update eventId newAttendees
    training program organizer :
  KeepsWellFormed (updateEventAttendee_try cfg events_get events_update eventId newAttendees
                     training program organizer).
Proof.
  unfold updateEventAttendee_try.
  apply KeepsWellFormed_bind.
  { destruct (events_get _ _); [apply KeepsWellFormed_ret|apply KeepsWellFormed_throw]. }
  intros event_attendees.
  apply KeepsWellFormed_bind; [|intros ?; apply KeepsWellFormed_ret].
  destruct newAttendees as [|first rest]; [apply KeepsWellFormed_ret|].
  apply KeepsWellFormed_bind.
  { destruct event_attendees; [apply KeepsWellFormed_ret|apply KeepsWellFormed_throw]. }
  intros oldAttendees. destruct (filteredNewAttendees _ _); [apply KeepsWellFormed_ret|].
  apply KeepsWellFormed_bind.
  { destruct (events_update _ _ _); [apply KeepsWellFormed_ret|apply KeepsWellFormed_throw]. }
  intros status. apply KeepsWellFormed_bind.
  { destruct (find _ _); [apply KeepsWellFormed_ret|apply KeepsWellFormed_throw]. }
  intros _. case_bool_decide; [|apply KeepsWellFormed_ret].
  apply KeepsWellFormed_bind.
  { destruct training, program;
      first [apply KeepsWellFormed_ret|apply KeepsWellFormed_throw]. }
  intros _. apply KeepsWellFormed_bind; [apply KeepsWellFormed_cacheOrganizerAndAttendee|].
  intros _. apply KeepsWellFormed_ret.
Qed.

Lemma updateEventAttendee_wellFormed cfg events_get events_update dateNow eventId newAttendees
    training program organizer (c : Cache) :
  wellFormed c →
  ∃ result c',
    updateEventAttendee cfg events_get events_update dateNow eventId newAttendees
      training program organizer c = (Returned result, c')
    ∧ wellFormed c'.
Proof.
  intros Hc. unfold updateEventAttendee, try_catch.
  pose proof (updateEventAttendee_try_wellFormed cfg events_get events_update eventId
                newAttendees training program (orNull organizer) c Hc) as Hc1.
  destruct (updateEventAttendee_try _ _ _ _ _ _ _ _ c) as [[result|error] c1];
    simpl in Hc1; [by eauto|].
  unfold updateEventAttendee_catch. destruct (message_includes _ _); [|by eauto].
  destruct (blockOrganizer_wellFormed dateNow (orNull organizer) c1 Hc1) as [Hblock Hc2].
  rewrite (bind_returned _ _ _ _ _ Hblock). by eauto.
Qed.

Lemma serve_wellFormed cfg request (c : Cache) :
  wellFormed c →
  wellFormed (serve cfg request c).2 ∧ expectedError request (serve cfg request c).1.
Proof.
  intros Hc.
  destruct request as [attendees organizerReq isPrakerja|isPrakerja
                      |dateNow isPrakerja organizers|dateNow organizer|dateNow organizer
                      |events_insert dateNow attendees training program organizer
                      |events_get events_update dateNow eventId newAttendees
                         training program organizer];
    simpl; unfold thrown.
  - destruct (cacheOrganizerAndAttendee_wellFormed cfg attendees organizerReq isPrakerja c Hc)
      as (? & ? & -> & ?). by auto.
  - rewrite (fetchCurrentOrganizer_readable _ _ (wellFormed_poolReadable _ _ Hc)). by auto.
  - destruct (fetchAvailableOrganizers_wellFormed cfg dateNow isPrakerja organizers c Hc)
      as (? & ? & -> & ?). by auto.
  - destruct (isOrganizerAvailable_wellFormed_after cfg dateNow organizer c Hc)
      as (? & ? & -> & ?). by auto.
  - destruct (blockOrganizer_wellFormed dateNow organizer c Hc) as [-> ?]. by auto.
  - assert (is_Some training ∨ is_Some program →
            wellFormed (createEvent cfg events_insert dateNow attendees training program
                          organizer c).2
            ∧ (thrown (createEvent cfg events_insert dateNow attendees training program
                         organizer c) = None
               ∨ thrown (createEvent cfg events_insert dateNow attendees training program
                           organizer c) = Some (HttpException "Calendar usage limit")))
      as Hwith.
    { intros Hgiven.
      destruct (createEvent_wellFormed cfg events_insert dateNow attendees training program
                  organizer c Hc Hgiven) as (r & c' & -> & ? & [[result ->]| ->]);
        unfold thrown; simpl; by auto. }
    unfold thrown in Hwith.
    destruct training as [training|]; [apply Hwith; left; by eexists|].
    destruct program as [program|]; [apply Hwith; right; by eexists|].
    by rewrite createEvent_without_program.
  - destruct (updateEventAttendee_wellFormed cfg events_get events_update dateNow eventId
                newAttendees training program organizer c Hc) as (? & ? & -> & ?). by auto.
Qed.

(** X1: on a cache the service can read, every request leaves a cache the
    service can read. Along any sequence of requests, an event request
    that names neither a training nor a program is rejected with a
    [TypeError]; any other [createEvent] throws nothing or its usage limit
    exception; every other method throws nothing: the texts the service
    writes are texts it can parse and of the shape it expects. *)
Theorem serveAll_errors_on_own_writes cfg requests (c : Cache) :
  wellFormed c →
  wellFormed (serveAll cfg requests c).2
  ∧ Forall2 expectedError requests (serveAll cfg requests c).1.
Proof.
  revert c. induction requests as [|request rest IH]; intros c Hc; simpl.
  - split; [done|constructor].
  - destruct (serve_wellFormed cfg request c Hc) as [Hc' Herror].
    destruct (IH _ Hc') as [Hfinal Herrors]. split; [done|]. by constructor.
Qed.

Lemma serveAll_errors_on_own_writes_witness :
  wellFormed ∅
  ∧ (serveAll sampleConfig sampleRequests ∅).1
    = [None; None; None; Some (HttpException "Calendar usage limit");
       None; None; None; None; None; Some TypeError]
  ∧ wellFormed (serveAll sampleConfig sampleRequests ∅).2
  ∧ Forall2 expectedError sampleRequests (serveAll sampleConfig sampleRequests ∅).1.
Proof.
  split; [exact wellFormed_empty|]. split; [vm_compute; reflexivity|].
  exact (serveAll_errors_on_own_writes sampleConfig sampleRequests ∅ wellFormed_empty).
Defined.

(** X2: whatever the cache holds and whether it returns or throws,
    [isOrganizerAvailable] leaves the suspension record of every other
    organizer as it was, and never writes a category's entry: an entry is
    afterwards as before, or gone. *)
Theorem isOrganizerAvailable_leaves_other_records cfg dateNow organizer (c : Cache) :
  (∀ other, blockKey other ≠ blockKey organizer →
     (isOrganizerAvailable cfg dateNow organizer c).2 !! blockKey other
     = c !! blockKey other)
  ∧ ∀ isPrakerja,
      (isOrganizerAvailable cfg dateNow organizer c).2 !! poolKey isPrakerja
      = c !! poolKey isPrakerja
      ∨ (isOrganizerAvailable cfg dateNow organizer c).2 !! poolKey isPrakerja = None.
Proof.
  pose proof (Changes_isOrganizerAvailable cfg dateNow organizer c) as Hchanges.
  split.
  - intros other Hother. destruct (Hchanges (blockKey other)) as [?|[?|[[b Hb] _]]]; [done..|].
    by apply blockKey_poolKey in Hb.
  - intros isPrakerja. destruct (Hchanges (poolKey isPrakerja)) as [?|[Hb|[_ ?]]]; [by auto| |by auto].
    symmetry in Hb. by apply blockKey_poolKey in Hb.
Qed.

Lemma isOrganizerAvailable_leaves_other_records_witness :
  (isOrganizerAvailable sampleConfig 90000000 (JS.Str "a@pool.id") cacheAllSuspended).1
  = Returned true
  ∧ (isOrganizerAvailable sampleConfig 90000000 (JS.Str "a@pool.id") cacheAllSuspended).2
      !! blockKey (JS.Str "b@pool.id")
    = Some (blockEntry 1000).
Proof.
  split; [vm_compute; reflexivity|].
  rewrite (proj1 (isOrganizerAvailable_leaves_other_records sampleConfig 90000000
                    (JS.Str "a@pool.id") cacheAllSuspended) (JS.Str "b@pool.id")).
  - vm_compute. reflexivity.
  - discriminate.
Defined.

(** X3: the categories are independent for [cacheOrganizerAndAttendee]:
    whatever the cache holds and whether the call returns or throws, the
    other category's entry and every suspension record are left as they
    were. *)
Theorem cacheOrganizerAndAttendee_touches_only_its_category cfg attendees organizerReq
    isPrakerja (c : Cache) :
  (cacheOrganizerAndAttendee cfg attendees organizerReq isPrakerja c).2
    !! poolKey (negb isPrakerja)
  = c !! poolKey (negb isPrakerja)
  ∧ ∀ organizer,
      (cacheOrganizerAndAttendee cfg attendees organizerReq isPrakerja c).2
        !! blockKey organizer
      = c !! blockKey organizer.
Proof.
  pose proof (Changes_cacheOrganizerAndAttendee cfg attendees organizerReq isPrakerja c)
    as Hchanges.
  split.
  - destruct (Hchanges (poolKey (negb isPrakerja))) as [?|[Hb|[[] _]]]; [done|].
    apply poolKey_inj in Hb. by destruct isPrakerja.
  - intros organizer. destruct (Hchanges (blockKey organizer)) as [?|[Hb|[[] _]]]; [done|].
    by apply blockKey_poolKey in Hb.
Qed.

(** X4: [cacheOrganizerAndAttendee] never takes a state away. When the
    category's entry holds a state with its list, the call returns the
    stored organizer, the entry afterwards names the same organizer, and
    every address counted before is still counted, whatever organizer and
    batch are requested. *)
Theorem cacheOrganizerAndAttendee_retains_stored_state cfg attendees organizerReq isPrakerja
    (c : Cache) v l :
  poolState isPrakerja c = Some v →
  uniqueAttendees v = Some l →
  ∃ v' l' c',
    cacheOrganizerAndAttendee cfg attendees organizerReq isPrakerja c
    = (Returned (organizer v), c')
    ∧ poolState isPrakerja c' = Some v'
    ∧ organizer v' = organizer v
    ∧ uniqueAttendees v' = Some l'
    ∧ (∀ a, a ∈ l → a ∈ l')
    ∧ (length (JS.Set_new l) ≤ length l')%nat.
Proof.
  intros Hstate Hl. apply poolState_Some in Hstate as (e & Hkey & Hv).
  assert (∀ v0, poolState isPrakerja (persisted isPrakerja v0 c) = Some v0) as Hread
    by (intros; by rewrite poolState_persisted, bool_decide_eq_true_2).
  destruct (JS.truthy (organizer v) && looseEq (organizer v) (orNull organizerReq)) eqn:Heq.
  - destruct (Z.lt_ge_cases (Z.of_nat (length l)) (externalAttendeesLimit cfg)).
    + eexists _, _, _. split_and!.
      * exact (cacheOrganizerAndAttendee_merge cfg attendees organizerReq isPrakerja c
                 e v l Hkey Hv Heq Hl H).
      * apply Hread.
      * done.
      * done.
      * intros a Ha. apply foldl_addAttendee_elem. left. by apply Set_new_elem.
      * clear. generalize (JS.Set_new l). induction attendees as [|att rest IH]; intros s;
          simpl; [done|].
        etrans; [|apply IH]. unfold addAttendee. destruct (isExternal _); [|done].
        unfold JS.Set_add. case_bool_decide; [done|]. rewrite length_app. lia.
    + exists v, l. eexists. split_and!; [by eapply cacheOrganizerAndAttendee_full|
                                         apply Hread|done..|apply Set_new_length].
  - exists v, l. eexists. split_and!; [by eapply cacheOrganizerAndAttendee_other|
                                       apply Hread|done..|apply Set_new_length].
Qed.

Lemma cacheOrganizerAndAttendee_retains_stored_state_witness :
  ∃ v' l' c',
    cacheOrganizerAndAttendee sampleConfig [student "y@gmail.com"] (JS.Str "b@pool.id") true
      cacheWithA
    = (Returned (JS.Str "a@pool.id"), c')
    ∧ poolState true c' = Some v'
    ∧ organizer v' = JS.Str "a@pool.id"
    ∧ uniqueAttendees v' = Some l'
    ∧ "x@gmail.com" ∈ l'.
Proof.
  destruct (cacheOrganizerAndAttendee_retains_stored_state sampleConfig
              [student "y@gmail.com"] (JS.Str "b@pool.id") true cacheWithA
              (fromPayload (JS.Str "a@pool.id") (Some ["x@gmail.com"])) ["x@gmail.com"]
              eq_refl eq_refl)
    as (v' & l' & c' & Hcall & Hstate & Horg & Hl' & Hkept & _).
  exists v', l', c'. split_and!; [exact Hcall|exact Hstate|exact Horg|exact Hl'|].
  apply Hkept. apply list_elem_of_singleton. reflexivity.
Defined.

(** X5: the organizer [cacheOrganizerAndAttendee] returns is the one a
    following [fetchCurrentOrganizer] reads: whenever the call returns, the
    category's entry parses to a state naming the returned organizer. *)
Theorem cacheOrganizerAndAttendee_returns_stored_organizer cfg attendees organizerReq
    isPrakerja (c c' : Cache) stored :
  cacheOrganizerAndAttendee cfg attendees organizerReq isPrakerja c = (Returned stored, c') →
  ∃ v', fetchCurrentOrganizer isPrakerja c' = (Returned (Some (JDto v')), c')
        ∧ organizer v' = stored
        ∧ optional_organizer (Some (JDto v')) = stored.
Proof.
  intros Hcall.
  destruct (cacheOrganizerAndAttendee_cases cfg attendees organizerReq isPrakerja c)
    as [[e He]|(v' & Hv' & _)]; rewrite Hcall in *; [done|].
  injection Hv' as -> ->. exists v'. split; [|done].
  rewrite fetchCurrentOrganizer_eq. unfold persisted. by rewrite lookup_insert_eq.
Qed.

Lemma cacheOrganizerAndAttendee_returns_stored_organizer_witness :
  ∃ v', fetchCurrentOrganizer true
          (persisted true (fromPayload (JS.Str "a@pool.id") (Some ["x@gmail.com"])) cacheWithA)
        = (Returned (Some (JDto v')),
           persisted true (fromPayload (JS.Str "a@pool.id") (Some ["x@gmail.com"])) cacheWithA)
        ∧ organizer v' = JS.Str "a@pool.id".
Proof.
  destruct (cacheOrganizerAndAttendee_returns_stored_organizer sampleConfig
              [student "y@gmail.com"] (JS.Str "b@pool.id") true cacheWithA
              (persisted true (fromPayload (JS.Str "a@pool.id") (Some ["x@gmail.com"]))
                 cacheWithA)
              (JS.Str "a@pool.id"))
    as (v' & Hread & Horg & _).
  - vm_compute. reflexivity.
  - exists v'. split; [exact Hread|exact Horg].
Defined.

(** ** Suspension and the availability decision together *)

Lemma blockKey_Str_inj a b : blockKey (JS.Str a) = blockKey (JS.Str b) → a = b.
Proof. unfold blockKey. simpl. intros H. by simplify_eq. Qed.

Lemma suspendedAt_blocked dateNow organizer other (c : Cache) :
  suspendedAt other (blocked dateNow organizer c) =
  if decide (blockKey organizer = blockKey other) then Some dateNow else suspendedAt other c.
Proof.
  unfold suspendedAt, blocked.
  assert (∀ b (c0 : Cache), delete (poolKey b) c0 !! blockKey other = c0 !! blockKey other)
    as Hdel by (intros; apply lookup_delete_ne, not_eq_sym, blockKey_poolKey).
  destruct (_ && _); [|destruct (_ && _)]; rewrite ?Hdel;
    (destruct (decide (blockKey organizer = blockKey other)) as [->|Hne];
     [by rewrite lookup_insert_eq|by rewrite lookup_insert_ne]).
Qed.

Lemma poolState_delete_blockKey isPrakerja organizer (c : Cache) :
  poolState isPrakerja (delete (blockKey organizer) c) = poolState isPrakerja c.
Proof. unfold poolState. rewrite lookup_delete_ne; [done|apply blockKey_poolKey]. Qed.

Lemma quotaExhausted_delete_blockKey cfg organizer other isPrakerja (c : Cache) :
  quotaExhausted cfg organizer isPrakerja (delete (blockKey other) c)
  = quotaExhausted cfg organizer isPrakerja c.
Proof. unfold quotaExhausted. by rewrite poolState_delete_blockKey. Qed.

Lemma suspendedAt_delete_blockKey organizer (c : Cache) :
  suspendedAt organizer (delete (blockKey organizer) c) = None.
Proof. unfold suspendedAt. by rewrite lookup_delete_eq. Qed.

(** X6: a suspension blocks at once. On a cache the service can read,
    after [blockOrganizer] at some instant, [isOrganizerAvailable] for the
    same organizer answers [false] at every instant up to 24 hours later. *)
Theorem blockOrganizer_then_unavailable cfg dateNow dateLater organizer (c : Cache) :
  wellFormed c →
  dateLater - dateNow ≤ 24 * 60 * 60 * 1000 →
  ∃ c1 c2,
    blockOrganizer dateNow organizer c = (Returned (), c1)
    ∧ suspendedAt organizer c1 = Some dateNow
    ∧ isOrganizerAvailable cfg dateLater organizer c1 = (Returned false, c2).
Proof.
  intros Hc Hlater. destruct (blockOrganizer_wellFormed dateNow organizer c Hc) as [Hblock Hc1].
  pose proof (blocked_suspendedAt dateNow organizer c) as Hrecord.
  exists (blocked dateNow organizer c).
  rewrite (isOrganizerAvailable_wellFormed cfg dateLater organizer _ Hc1), Hrecord.
  destruct (_ && _); [by eauto|]. destruct (_ || _); [by eauto|].
  unfold twentyFourHoursInMilliseconds.
  destruct (Z.gtb_spec (dateLater - dateNow) (24 * 60 * 60 * 1000)); [lia|by eauto].
Qed.

Lemma blockOrganizer_then_unavailable_witness :
  ∃ c1 c2,
    blockOrganizer 1000 (JS.Str "a@pool.id") cacheWithA = (Returned (), c1)
    ∧ suspendedAt (JS.Str "a@pool.id") c1 = Some 1000
    ∧ isOrganizerAvailable sampleConfig 86401000 (JS.Str "a@pool.id") c1 = (Returned false, c2).
Proof.
  apply (blockOrganizer_then_unavailable sampleConfig 1000 86401000 (JS.Str "a@pool.id")
           cacheWithA).
  - split_and!; [vm_compute; eauto|exact I|]. intros organizer e H.
    unfold cacheWithA in H. rewrite lookup_singleton_ne in H; [discriminate H|].
    apply not_eq_sym, blockKey_poolKey.
  - vm_compute. discriminate.
Defined.

(** X7: lifting an expired suspension is idempotent. For an organizer that
    is not quota-exhausted, on a cache the service can read, the first
    check more than 24 hours after the stored instant deletes the record
    and answers [true]; a second check, at any instant, answers [true]
    again without error and changes nothing. *)
Theorem isOrganizerAvailable_lift_twice cfg dateNow dateLater organizer (c : Cache) t :
  wellFormed c →
  quotaExhausted cfg organizer true c = false →
  quotaExhausted cfg organizer false c = false →
  suspendedAt organizer c = Some t →
  dateNow - t > 24 * 60 * 60 * 1000 →
  isOrganizerAvailable cfg dateNow organizer c
  = (Returned true, delete (blockKey organizer) c)
  ∧ isOrganizerAvailable cfg dateLater organizer (delete (blockKey organizer) c)
    = (Returned true, delete (blockKey organizer) c).
Proof.
  intros Hc HexP HexNP Hrecord Hexpired. split.
  - rewrite (isOrganizerAvailable_wellFormed _ _ _ _ Hc), HexP, HexNP, Hrecord. simpl.
    unfold twentyFourHoursInMilliseconds.
    by destruct (Z.gtb_spec (dateNow - t) (24 * 60 * 60 * 1000)); [|lia].
  - rewrite (isOrganizerAvailable_wellFormed _ _ _ _ (wellFormed_delete _ _ Hc)).
    by rewrite !quotaExhausted_delete_blockKey, HexP, HexNP, suspendedAt_delete_blockKey.
Qed.

Lemma isOrganizerAvailable_lift_twice_witness :
  isOrganizerAvailable sampleConfig 86401001 (JS.Str "a@pool.id") cacheWithASuspended
  = (Returned true, delete (blockKey (JS.Str "a@pool.id")) cacheWithASuspended)
  ∧ isOrganizerAvailable sampleConfig 86401002 (JS.Str "a@pool.id")
      (delete (blockKey (JS.Str "a@pool.id")) cacheWithASuspended)
    = (Returned true, delete (blockKey (JS.Str "a@pool.id")) cacheWithASuspended).
Proof.
  apply (isOrganizerAvailable_lift_twice sampleConfig 86401001 86401002 (JS.Str "a@pool.id")
           cacheWithASuspended 1000).
  - split_and!; [exact I..|]. intros organizer e H. unfold cacheWithASuspended in H.
    apply lookup_singleton_Some in H as [_ <-]. by exists 1000.
  - reflexivity.
  - reflexivity.
  - reflexivity.
  - reflexivity.
Defined.

(** One check keeps a running suspension of any organizer in place, and
    answers [false] when asked about that organizer. *)
Lemma isOrganizerAvailable_keeps_suspension cfg dateNow org name (c : Cache) t :
  wellFormed c →
  suspendedAt (JS.Str name) c = Some t →
  dateNow - t ≤ twentyFourHoursInMilliseconds →
  ∃ isAvailable c' t',
    isOrganizerAvailable cfg dateNow (JS.Str org) c = (Returned isAvailable, c')
    ∧ wellFormed c'
    ∧ suspendedAt (JS.Str name) c' = Some t'
    ∧ dateNow - t' ≤ twentyFourHoursInMilliseconds
    ∧ (org = name → isAvailable = false).
Proof.
  intros Hc Hrecord Hrunning.
  rewrite (isOrganizerAvailable_wellFormed _ _ _ _ Hc).
  destruct (_ && _); [by eexists _, _, t|].
  destruct (_ || _).
  - pose proof (suspendedAt_blocked dateNow (JS.Str org) (JS.Str name) c) as Hafter.
    destruct (decide _).
    + eexists _, _, dateNow. split_and!; [done|by apply wellFormed_blocked|done| |done].
      unfold twentyFourHoursInMilliseconds. lia.
    + eexists _, _, t. rewrite Hrecord in Hafter.
      split_and!; [done|by apply wellFormed_blocked|done..].
  - destruct (decide (org = name)) as [->|Hne].
    + rewrite Hrecord. destruct (Z.gtb_spec (dateNow - t) twentyFourHoursInMilliseconds); [lia|].
      by eexists _, _, t.
    + destruct (suspendedAt (JS.Str org) c) as [t0|]; [|by eexists _, _, t].
      destruct (_ >? _); [|by eexists _, _, t].
      eexists _, _, t. split_and!; [done|by apply wellFormed_delete| |done..].
      unfold suspendedAt. rewrite lookup_delete_ne; [done|].
      intros H. by apply blockKey_Str_inj in H.
Qed.

Lemma availableOrganizers_loop_excludes_suspended cfg dateNow organizers acc (c c' : Cache)
    name t available :
  wellFormed c →
  suspendedAt (JS.Str name) c = Some t →
  dateNow - t ≤ twentyFourHoursInMilliseconds →
  (name ∉ acc) →
  availableOrganizers_loop cfg dateNow organizers acc c = (Returned available, c') →
  (name ∉ available)
  ∧ ∃ t', suspendedAt (JS.Str name) c' = Some t'
          ∧ dateNow - t' ≤ twentyFourHoursInMilliseconds.
Proof.
  revert acc c t. induction organizers as [|org rest IH]; intros acc c t Hc Hrecord Hrunning Hacc;
    simpl.
  - intros [= <- <-]. eauto.
  - destruct (isOrganizerAvailable_keeps_suspension cfg dateNow org name c t Hc Hrecord Hrunning)
      as (isAvailable & c1 & t1 & Hcheck & Hc1 & Hrecord1 & Hrunning1 & Hself).
    rewrite (bind_returned _ _ _ _ _ Hcheck).
    apply (IH _ _ t1); [done..|].
    destruct isAvailable; [|done].
    rewrite elem_of_app, list_elem_of_singleton. intros [?| ->]; [done|].
    by specialize (Hself eq_refl).
Qed.

(** X8: [fetchAvailableOrganizers] never lists an organizer whose
    suspension is running. On a cache the service can read, an organizer
    with a record at most 24 hours old is not in the returned list, however
    often it occurs among the candidates, and is still suspended when the
    call returns. *)
Theorem fetchAvailableOrganizers_excludes_suspended cfg dateNow isPrakerja organizers
    (c : Cache) name t :
  wellFormed c →
  suspendedAt (JS.Str name) c = Some t →
  dateNow - t ≤ 24 * 60 * 60 * 1000 →
  ∃ available c' t',
    fetchAvailableOrganizers cfg dateNow isPrakerja organizers c = (Returned available, c')
    ∧ (name ∉ available)
    ∧ suspendedAt (JS.Str name) c' = Some t'
    ∧ dateNow - t' ≤ 24 * 60 * 60 * 1000.
Proof.
  intros Hc Hrecord Hrunning.
  destruct (fetchAvailableOrganizers_wellFormed cfg dateNow isPrakerja organizers c Hc)
    as (available & c' & Hcall & _).
  unfold fetchAvailableOrganizers in *.
  destruct (availableOrganizers_loop_excludes_suspended _ _ _ _ _ _ name t _
              Hc Hrecord Hrunning (not_elem_of_nil name) Hcall) as (Hnot & t' & Ht' & Hrunning').
  by exists available, c', t'.
Qed.

Lemma fetchAvailableOrganizers_excludes_suspended_witness :
  ∃ available c' t',
    fetchAvailableOrganizers sampleConfig 2000 true
      (Some ["b@pool.id"; "c@pool.id"; "b@pool.id"; "d@pool.id"]) cacheOnlyCFree
    = (Returned available, c')
    ∧ ("b@pool.id" ∉ available)
    ∧ suspendedAt (JS.Str "b@pool.id") c' = Some t'
    ∧ 2000 - t' ≤ 24 * 60 * 60 * 1000.
Proof.
  apply (fetchAvailableOrganizers_excludes_suspended sampleConfig 2000 true
           (Some ["b@pool.id"; "c@pool.id"; "b@pool.id"; "d@pool.id"]) cacheOnlyCFree
           "b@pool.id" 1000).
  - split_and!; [exact I..|]. intros organizer e H. unfold cacheOnlyCFree in H.
    apply lookup_insert_Some in H as [[_ <-]|[_ H]]; [by exists 1000|].
    apply lookup_insert_Some in H as [[_ <-]|[_ H]]; [by exists 1000|].
    by rewrite lookup_empty in H.
  - reflexivity.
  - vm_compute. discriminate.
Defined.

(** Which entry [blocked] removes, for a non-empty organizer. *)
Lemma blockOrganizer_deletes_first_match_aux dateNow organizer (c : Cache) :
  poolReadable true c → poolReadable false c →
  JS.truthy organizer = true →
  (currentOrganizer true c = organizer →
     blocked dateNow organizer c !! poolKey true = None
     ∧ blocked dateNow organizer c !! poolKey false = c !! poolKey false)
  ∧ (currentOrganizer true c ≠ organizer → currentOrganizer false c = organizer →
       blocked dateNow organizer c !! poolKey false = None
       ∧ blocked dateNow organizer c !! poolKey true = c !! poolKey true).
Proof.
  intros HP HNP Htruthy. unfold blocked.
  assert (∀ b entry, <[blockKey organizer := entry]> c !! poolKey b = c !! poolKey b) as Hins
    by (intros; apply lookup_insert_ne, blockKey_poolKey).
  split.
  - intros ->. rewrite Htruthy, bool_decide_eq_true_2 by done. simpl.
    rewrite lookup_delete_eq, lookup_delete_ne, Hins; done.
  - intros Hne ->. rewrite (bool_decide_eq_false_2 _ (not_eq_sym Hne)), andb_false_r.
    rewrite Htruthy, bool_decide_eq_true_2 by done. simpl.
    rewrite lookup_delete_eq, lookup_delete_ne, Hins; done.
Qed.

(** X9: a quota breach in one category suspends the organizer and resets
    that category. On a cache the service can read, when the category's
    state names a (non-empty) organizer with its count at the limit and the
    other category does not name it, [isOrganizerAvailable] answers
    [false], records the suspension, deletes that category's entry and
    leaves the other one; the next [cacheOrganizerAndAttendee] for the
    category then starts from the request alone. *)
Theorem quota_breach_resets_category cfg dateNow name isPrakerja attendees organizerReq
    (c : Cache) :
  wellFormed c →
  name ≠ "" →
  quotaExhausted cfg (JS.Str name) isPrakerja c = true →
  currentOrganizer (negb isPrakerja) c ≠ JS.Str name →
  ∃ c1,
    isOrganizerAvailable cfg dateNow (JS.Str name) c = (Returned false, c1)
    ∧ suspendedAt (JS.Str name) c1 = Some dateNow
    ∧ c1 !! poolKey isPrakerja = None
    ∧ c1 !! poolKey (negb isPrakerja) = c !! poolKey (negb isPrakerja)
    ∧ cacheOrganizerAndAttendee cfg attendees organizerReq isPrakerja c1
      = (Returned (orNull organizerReq),
         persisted isPrakerja
           (fromPayload (orNull organizerReq) (Some (newAttendees attendees))) c1).
Proof.
  intros Hc Hname Hex Hother.
  assert (currentOrganizer isPrakerja c = JS.Str name) as Hcurrent.
  { unfold quotaExhausted, currentOrganizer in *. destruct (poolState isPrakerja c); [|done].
    apply andb_true_iff in Hex as [Hex _]. by apply bool_decide_eq_true in Hex. }
  assert (quotaExhausted cfg (JS.Str name) (negb isPrakerja) c = false) as Hex'.
  { unfold quotaExhausted, currentOrganizer in *.
    destruct (poolState (negb isPrakerja) c); [|done]. simpl.
    by rewrite bool_decide_eq_false_2. }
  assert (JS.truthy (JS.Str name) = true) as Htruthy
    by (simpl; by rewrite bool_decide_eq_false_2).
  destruct (blockOrganizer_deletes_first_match_aux dateNow (JS.Str name) c
              (wellFormed_poolReadable true c Hc) (wellFormed_poolReadable false c Hc) Htruthy)
    as (Hfirst & Hsecond).
  exists (blocked dateNow (JS.Str name) c).
  assert (blocked dateNow (JS.Str name) c !! poolKey isPrakerja = None
          ∧ blocked dateNow (JS.Str name) c !! poolKey (negb isPrakerja)
            = c !! poolKey (negb isPrakerja)) as [Hgone Hkept].
  { destruct isPrakerja; simpl in *; [by apply Hfirst|].
    destruct (Hsecond Hother Hcurrent) as [? ?]. done. }
  split_and!; [|apply blocked_suspendedAt|done|done|].
  - rewrite (isOrganizerAvailable_wellFormed _ _ _ _ Hc).
    destruct isPrakerja; simpl in *; by rewrite Hex, Hex'.
  - exact (cacheOrganizerAndAttendee_absent cfg attendees organizerReq isPrakerja _ Hgone).
Qed.

Lemma wellFormed_pool_singleton isPrakerja organizerName attendees :
  wellFormed {[ poolKey isPrakerja := poolEntry organizerName attendees ]}.
Proof.
  assert (∀ b, poolReadable b
                 ({[ poolKey isPrakerja := poolEntry organizerName attendees ]} : Cache))
    as Hpool.
  { intros b. unfold poolReadable. destruct (decide (poolKey isPrakerja = poolKey b)) as [<-|Hne].
    - rewrite lookup_singleton_eq. simpl. by eexists.
    - by rewrite lookup_singleton_ne. }
  split_and!; [apply Hpool..|]. intros organizer e H.
  rewrite lookup_singleton_ne in H; [done|apply not_eq_sym, blockKey_poolKey].
Qed.

Lemma quota_breach_resets_category_witness :
  ∃ c1,
    isOrganizerAvailable sampleConfig 5000 (JS.Str "a@pool.id") cacheWithFullA
    = (Returned false, c1)
    ∧ suspendedAt (JS.Str "a@pool.id") c1 = Some 5000
    ∧ c1 !! poolKey true = None
    ∧ cacheOrganizerAndAttendee sampleConfig [student "z@gmail.com"] (JS.Str "b@pool.id") true c1
      = (Returned (JS.Str "b@pool.id"),
         persisted true (fromPayload (JS.Str "b@pool.id") (Some ["z@gmail.com"])) c1).
Proof.
  destruct (quota_breach_resets_category sampleConfig 5000 "a@pool.id" true
              [student "z@gmail.com"] (JS.Str "b@pool.id") cacheWithFullA)
    as (c1 & Hcheck & Hrecord & Hgone & _ & Hnext).
  - apply wellFormed_pool_singleton.
  - discriminate.
  - reflexivity.
  - vm_compute. discriminate.
  - exists c1. split_and!; [exact Hcheck|exact Hrecord|exact Hgone|exact Hnext].
Defined.

(** ** Recording the same batch again *)

Lemma foldl_addAttendee_absorb attendees s :
  (∀ att, att ∈ attendees → isExternal (email att) = true → email att ∈ s) →
  foldl addAttendee s attendees = s.
Proof.
  induction attendees as [|att rest IH]; intros Hin; simpl; [done|].
  assert (addAttendee s att = s) as ->.
  { unfold addAttendee. destruct (isExternal (email att)) eqn:Hext; [|done].
    unfold JS.Set_add. rewrite bool_decide_eq_true_2; [done|].
    apply Hin; [by left|done]. }
  apply IH. intros att' Hatt'. apply Hin. by right.
Qed.

Lemma persisted_persisted isPrakerja v (c : Cache) :
  persisted isPrakerja v (persisted isPrakerja v c) = persisted isPrakerja v c.
Proof. unfold persisted. by rewrite insert_insert_eq. Qed.

Lemma persisted_lookup isPrakerja v (c : Cache) :
  persisted isPrakerja v c !! poolKey isPrakerja
  = Some {| value := DtoJson v; ttl := oneMonthInMilliSeconds |}.
Proof. unfold persisted. by rewrite lookup_insert_eq. Qed.

(** X10: recording a batch a second time changes nothing. When the
    category's entry holds a state with its list, a [cacheOrganizerAndAttendee]
    call followed by the same call again leaves the cache the first call
    left, and both return the stored organizer: no address is counted
    twice. *)
Theorem cacheOrganizerAndAttendee_same_batch_twice cfg attendees organizerReq isPrakerja
    (c : Cache) v l :
  poolState isPrakerja c = Some v →
  uniqueAttendees v = Some l →
  ∃ c1,
    cacheOrganizerAndAttendee cfg attendees organizerReq isPrakerja c
    = (Returned (organizer v), c1)
    ∧ cacheOrganizerAndAttendee cfg attendees organizerReq isPrakerja c1
      = (Returned (organizer v), c1).
Proof.
  intros Hstate Hl. apply poolState_Some in Hstate as (e & Hkey & Hv).
  assert (∀ v0 l0,
            uniqueAttendees v0 = Some l0 → organizer v0 = organizer v →
            (JS.truthy (organizer v) && looseEq (organizer v) (orNull organizerReq) = true →
             Z.of_nat (length l0) < externalAttendeesLimit cfg →
             foldl addAttendee (JS.Set_new l0) attendees = l0) →
            cacheOrganizerAndAttendee cfg attendees organizerReq isPrakerja
              (persisted isPrakerja v0 c)
            = (Returned (organizer v), persisted isPrakerja v0 c)) as Hagain.
  { intros v0 l0 Hl0 Horg Hsame.
    rewrite <- (persisted_persisted isPrakerja v0 c) at 2. rewrite <- Horg.
    destruct (JS.truthy (organizer v0) && looseEq (organizer v0) (orNull organizerReq)) eqn:Heq.
    - destruct (Z.lt_ge_cases (Z.of_nat (length l0)) (externalAttendeesLimit cfg)) as [Hroom|?].
      + rewrite (cacheOrganizerAndAttendee_merge cfg attendees organizerReq isPrakerja _
                   _ v0 l0 (persisted_lookup _ _ _) eq_refl Heq Hl0 Hroom).
        rewrite Hsame by (by rewrite <- ?Horg). by destruct v0; simplify_eq/=.
      + by eapply cacheOrganizerAndAttendee_full; [apply persisted_lookup|..].
    - by eapply cacheOrganizerAndAttendee_other; [apply persisted_lookup|..]. }
  destruct (JS.truthy (organizer v) && looseEq (organizer v) (orNull organizerReq)) eqn:Heq.
  - destruct (Z.lt_ge_cases (Z.of_nat (length l)) (externalAttendeesLimit cfg)) as [Hroom|Hfull].
    + eexists. split.
      * exact (cacheOrganizerAndAttendee_merge cfg attendees organizerReq isPrakerja c
                 e v l Hkey Hv Heq Hl Hroom).
      * apply (Hagain (fromPayload (organizer v)
                           (Some (foldl addAttendee (JS.Set_new l) attendees)))
                 (foldl addAttendee (JS.Set_new l) attendees) eq_refl eq_refl).
        intros _ _. rewrite Set_new_id by apply foldl_addAttendee_NoDup, Set_new_NoDup.
        apply foldl_addAttendee_absorb. intros att Hatt Hext.
        apply foldl_addAttendee_elem. right. split; [|done].
        apply list_elem_of_fmap. by exists att.
    + exists (persisted isPrakerja v c). split; [by eapply cacheOrganizerAndAttendee_full|].
      apply (Hagain v l Hl eq_refl). intros _ ?. lia.
  - exists (persisted isPrakerja v c). split; [by eapply cacheOrganizerAndAttendee_other|].
    apply (Hagain v l Hl eq_refl). intros Heq'. congruence.
Qed.

Lemma cacheOrganizerAndAttendee_same_batch_twice_witness :
  ∃ c1,
    cacheOrganizerAndAttendee sampleConfig [student "w@gmail.com"; student "x@gmail.com"]
      (JS.Str "a@pool.id") true cacheWithA
    = (Returned (JS.Str "a@pool.id"), c1)
    ∧ cacheOrganizerAndAttendee sampleConfig [student "w@gmail.com"; student "x@gmail.com"]
        (JS.Str "a@pool.id") true c1
      = (Returned (JS.Str "a@pool.id"), c1).
Proof.
  apply (cacheOrganizerAndAttendee_same_batch_twice sampleConfig
           [student "w@gmail.com"; student "x@gmail.com"] (JS.Str "a@pool.id") true cacheWithA
           (fromPayload (JS.Str "a@pool.id") (Some ["x@gmail.com"])) ["x@gmail.com"]).
  - reflexivity.
  - reflexivity.
Defined.

(** ** [createEvent] and the provider *)

(** X11: what [createEvent] does when the provider rejects the insert, on a
    cache the service can read, for a request that names a training or a
    program. If the message contains [Calendar usage limit], the organizer
    the insert was tried under is suspended at the current instant and an
    [HttpException] with that text is thrown. With any other message
    [createEvent] returns [undefined] and its handler changes nothing: the
    cache is the one the selection of the organizer left, and no attendee
    is recorded. *)
Theorem createEvent_on_provider_error cfg events_insert dateNow attendees training program
    organizer (c c1 : Cache) chosen message :
  wellFormed c →
  is_Some training ∨ is_Some program →
  createEvent_organizer cfg dateNow (orNull organizer) (isPrakerja_of training program) c
  = (Returned chosen, c1) →
  events_insert chosen = Rejects message →
  (JS.includes message "Calendar usage limit" = true →
     createEvent cfg events_insert dateNow attendees training program organizer c
     = (Thrown (HttpException "Calendar usage limit"), blocked dateNow chosen c1)
     ∧ suspendedAt chosen (blocked dateNow chosen c1) = Some dateNow)
  ∧ (JS.includes message "Calendar usage limit" = false →
     createEvent cfg events_insert dateNow attendees training program organizer c
     = (Returned None, c1)).
Proof.
  intros Hc Hgiven Hchosen Hreject.
  destruct (createEvent_organizer_wellFormed cfg dateNow (orNull organizer)
              (isPrakerja_of training program) c Hc)
    as (? & ? & Hsel & Hc1). rewrite Hchosen in Hsel. injection Hsel as <- <-.
  rewrite (createEvent_after_selection _ _ _ _ _ _ _ _ _ _ Hgiven Hchosen).
  unfold try_catch, createEvent_insert. rewrite Hreject. simpl.
  unfold createEvent_catch. simpl. split; intros Hmsg; rewrite Hmsg.
  - destruct (blockOrganizer_wellFormed dateNow chosen c1 Hc1) as [Hblock _].
    rewrite (bind_returned _ _ _ _ _ Hblock). split; [done|apply blocked_suspendedAt].
  - done.
Qed.

Lemma createEvent_on_provider_error_witness :
  createEvent sampleConfig usageLimitReached 4000 [student "w@gmail.com"] (Some PRAKERJA) None
    JS.null ∅
  = (Thrown (HttpException "Calendar usage limit"), blocked 4000 (JS.Str "a@pool.id") ∅)
  ∧ suspendedAt (JS.Str "a@pool.id") (blocked 4000 (JS.Str "a@pool.id") ∅) = Some 4000.
Proof.
  apply (proj1 (createEvent_on_provider_error sampleConfig usageLimitReached 4000
                  [student "w@gmail.com"] (Some PRAKERJA) None JS.null ∅ ∅
                  (JS.Str "a@pool.id") "Calendar usage limits exceeded." wellFormed_empty
                  (or_introl (ex_intro _ PRAKERJA eq_refl)) eq_refl eq_refl)).
  reflexivity.
Defined.

(** X12: [createEvent] reports the organizer stored for the category, not
    the one the event was inserted under. On a cache the service can read,
    for a request that names a training or a program, when a non-empty
    organizer is requested, the category's state names another organizer
    that is not quota-exhausted, the provider answers 200 and an attendee
    is a student, the insert is made under the requested organizer,
    suspended or not, yet the result names the stored organizer and the
    stored state stays as it was: the batch is not counted. *)
Theorem createEvent_reports_stored_organizer cfg events_insert dateNow attendees
    training program requested (c : Cache) v l :
  wellFormed c →
  is_Some training ∨ is_Some program →
  requested ≠ "" →
  poolState (isPrakerja_of training program) c = Some v →
  uniqueAttendees v = Some l →
  organizer v ≠ JS.Str requested →
  quotaExhausted cfg (organizer v) true c = false →
  quotaExhausted cfg (organizer v) false c = false →
  events_insert (JS.Str requested) = Responds 200 →
  is_Some (find (λ attendee, bool_decide (type attendee = STUDENT)) attendees) →
  ∃ c1 c',
    createEvent_organizer cfg dateNow (JS.Str requested) (isPrakerja_of training program) c
    = (Returned (JS.Str requested), c1)
    ∧ createEvent cfg events_insert dateNow attendees training program (JS.Str requested) c
      = (Returned (Some {| response_status := 200; result_organizer := organizer v |}), c')
    ∧ poolState (isPrakerja_of training program) c' = Some v.
Proof.
  intros Hc Hgiven Hrequested Hstate Hl Hother HexP HexNP Hinsert [first Hstudent].
  set (isPrakerja := isPrakerja_of training program) in *.
  assert (JS.truthy (JS.Str requested) = true) as Htruthy
    by (simpl; by rewrite bool_decide_eq_false_2).
  assert (∃ isAvailable c1,
            isOrganizerAvailable cfg dateNow (organizer v) c = (Returned isAvailable, c1)
            ∧ c1 !! poolKey isPrakerja = c !! poolKey isPrakerja) as
    (isAvailable & c1 & Hcheck & Hsame).
  { rewrite (isOrganizerAvailable_wellFormed _ _ _ _ Hc), HexP, HexNP. simpl.
    destruct (suspendedAt (organizer v) c); [|by eauto].
    destruct (_ >? _); [|by eauto]. eexists _, _. split; [done|].
    apply lookup_delete_ne, blockKey_poolKey. }
  assert (createEvent_organizer cfg dateNow (JS.Str requested) isPrakerja c
          = (Returned (JS.Str requested), c1)) as Hchosen.
  { unfold createEvent_organizer.
    rewrite (bind_returned _ _ _ _ _
               (fetchCurrentOrganizer_readable isPrakerja c (wellFormed_poolReadable _ _ Hc))).
    rewrite Hstate. simpl. rewrite (bind_returned _ _ _ _ _ Hcheck).
    simpl in Htruthy. by rewrite Htruthy. }
  exists c1, (persisted isPrakerja v c1). split; [done|].
  split; [|by rewrite poolState_persisted, bool_decide_eq_true_2].
  rewrite (createEvent_after_selection cfg events_insert dateNow attendees training program
             (JS.Str requested) c c1 (JS.Str requested) Hgiven Hchosen).
  fold isPrakerja.
  apply poolState_Some in Hstate as (e & Hkey & Hv). rewrite <- Hsame in Hkey.
  unfold try_catch, createEvent_insert. rewrite Hinsert, Hstudent.
  unfold mbind at 1, Async_bind at 1, mret at 1, Async_ret at 1.
  rewrite bool_decide_eq_true_2 by done.
  assert (cacheOrganizerAndAttendee cfg attendees (JS.Str requested) isPrakerja c1
          = (Returned (organizer v), persisted isPrakerja v c1)) as Hrecord.
  { eapply cacheOrganizerAndAttendee_other; [done..|].
    destruct (JS.truthy (organizer v) && _) eqn:Heq; [|done].
    by apply truthy_looseEq in Heq as [? _]. }
  by rewrite (bind_returned _ _ _ _ _ Hrecord).
Qed.

Lemma createEvent_reports_stored_organizer_witness :
  ∃ c1 c',
    createEvent_organizer sampleConfig 2000 (JS.Str "b@pool.id") true
      (<[blockKey (JS.Str "b@pool.id") := blockEntry 1000]> cacheWithA)
    = (Returned (JS.Str "b@pool.id"), c1)
    ∧ createEvent sampleConfig alwaysInserts 2000 [student "y@gmail.com"] (Some PRAKERJA) None
        (JS.Str "b@pool.id") (<[blockKey (JS.Str "b@pool.id") := blockEntry 1000]> cacheWithA)
      = (Returned (Some {| response_status := 200;
                           result_organizer := JS.Str "a@pool.id" |}), c')
    ∧ poolState true c' = Some (fromPayload (JS.Str "a@pool.id") (Some ["x@gmail.com"])).
Proof.
  apply (createEvent_reports_stored_organizer sampleConfig alwaysInserts 2000
           [student "y@gmail.com"] (Some PRAKERJA) None "b@pool.id"
           (<[blockKey (JS.Str "b@pool.id") := blockEntry 1000]> cacheWithA)
           (fromPayload (JS.Str "a@pool.id") (Some ["x@gmail.com"])) ["x@gmail.com"]).
  - apply wellFormed_insert_blockKey, wellFormed_pool_singleton.
  - left. eexists. reflexivity.
  - discriminate.
  - reflexivity.
  - reflexivity.
  - discriminate.
  - reflexivity.
  - reflexivity.
  - reflexivity.
  - eexists. reflexivity.
Defined.

(** ** [updateEventAttendee] *)

Lemma bind_mret_l {A B} (a : A) (k : A → Async B) : mret a ≫= k = k a.
Proof. reflexivity. Qed.

Lemma filteredNewAttendees_nil oldAttendees newAttendees :
  Forall (λ attendee, email attendee ∈ email <$> oldAttendees) newAttendees →
  filteredNewAttendees oldAttendees newAttendees = [].
Proof.
  unfold filteredNewAttendees. induction 1 as [|att rest Hatt _ IH]; [done|].
  rewrite filter_cons_False; [done|]. intros Hnot. apply Hnot.
  apply list_elem_of_fmap in Hatt as (old & Heq & Hin).
  apply Exists_exists. by exists old.
Qed.

(** X13: with nothing new, [updateEventAttendee] does nothing. When the
    event is found and every attendee passed has the address of an attendee
    the event already has (an empty list among them), no update is sent
    whatever the provider would answer, the cache is left as it was,
    nobody is counted or suspended, and the result reports success. *)
Theorem updateEventAttendee_nothing_new cfg events_get events_update dateNow eventId
    newAttendees training program organizer (c : Cache) oldAttendees :
  events_get (orNull organizer) eventId = Found (Some oldAttendees) →
  Forall (λ attendee, email attendee ∈ email <$> oldAttendees) newAttendees →
  updateEventAttendee cfg events_get events_update dateNow eventId newAttendees
    training program organizer c
  = (Returned (updateResult true noMessage), c).
Proof.
  intros Hget Hold. unfold updateEventAttendee, try_catch, updateEventAttendee_try.
  rewrite Hget, bind_mret_l.
  destruct newAttendees as [|first rest]; [done|].
  by rewrite bind_mret_l, (filteredNewAttendees_nil _ _ Hold).
Qed.

Lemma updateEventAttendee_nothing_new_witness :
  updateEventAttendee sampleConfig
    (λ _ _, Found (Some [student "x@gmail.com"; student "y@gmail.com"]))
    (λ _ _ _, Rejects "Calendar usage limits exceeded.")
    1000 "event-1" [student "y@gmail.com"; student "x@gmail.com"] None None
    (JS.Str "a@pool.id") cacheWithA
  = (Returned (updateResult true noMessage), cacheWithA).
Proof.
  apply (updateEventAttendee_nothing_new sampleConfig
           (λ _ _, Found (Some [student "x@gmail.com"; student "y@gmail.com"]))
           (λ _ _ _, Rejects "Calendar usage limits exceeded.")
           1000 "event-1" [student "y@gmail.com"; student "x@gmail.com"] None None
           (JS.Str "a@pool.id") cacheWithA [student "x@gmail.com"; student "y@gmail.com"]).
  - reflexivity.
  - repeat constructor; simpl; rewrite !elem_of_cons; auto.
Defined.

(** X14: [updateEventAttendee] turns every failure into a result. On a
    cache the service can read it always returns, never throws; when the
    provider rejects reading the event, a message containing [Calendar
    usage limit] suspends the organizer and gives the result
    [(false, 'Calendar usage limit')], and any other message is handed back
    in the result with the cache untouched. *)
Theorem updateEventAttendee_on_provider_error cfg events_get events_update dateNow eventId
    newAttendees training program organizer (c : Cache) :
  wellFormed c →
  (∃ result c',
     updateEventAttendee cfg events_get events_update dateNow eventId newAttendees
       training program organizer c = (Returned result, c'))
  ∧ ∀ message,
      events_get (orNull organizer) eventId = NotFound message →
      (JS.includes message "Calendar usage limit" = true →
         updateEventAttendee cfg events_get events_update dateNow eventId newAttendees
           training program organizer c
         = (Returned (updateResult false (messageText "Calendar usage limit")),
            blocked dateNow (orNull organizer) c)
         ∧ suspendedAt (orNull organizer) (blocked dateNow (orNull organizer) c) = Some dateNow)
      ∧ (JS.includes message "Calendar usage limit" = false →
         updateEventAttendee cfg events_get events_update dateNow eventId newAttendees
           training program organizer c
         = (Returned (updateResult false (messageText message)), c)).
Proof.
  intros Hc. split.
  - destruct (updateEventAttendee_wellFormed cfg events_get events_update dateNow eventId
                newAttendees training program organizer c Hc) as (result & c' & Hcall & _).
    by eauto.
  - intros message Hget.
    unfold updateEventAttendee, try_catch, updateEventAttendee_try. rewrite Hget. simpl.
    unfold updateEventAttendee_catch. simpl. split; intros Hmsg; rewrite Hmsg; [|done].
    destruct (blockOrganizer_wellFormed dateNow (orNull organizer) c Hc) as [Hblock _].
    rewrite (bind_returned _ _ _ _ _ Hblock). split; [done|apply blocked_suspendedAt].
Qed.

Lemma updateEventAttendee_on_provider_error_witness :
  updateEventAttendee sampleConfig (λ _ _, NotFound "Calendar usage limits exceeded.")
    (λ _ _ _, Responds 200) 1000 "event-1" [student "y@gmail.com"] None None
    (JS.Str "a@pool.id") cacheWithA
  = (Returned (updateResult false (messageText "Calendar usage limit")),
     blocked 1000 (JS.Str "a@pool.id") cacheWithA)
  ∧ suspendedAt (JS.Str "a@pool.id") (blocked 1000 (JS.Str "a@pool.id") cacheWithA)
    = Some 1000.
Proof.
  apply (proj1 (proj2 (updateEventAttendee_on_provider_error sampleConfig
                         (λ _ _, NotFound "Calendar usage limits exceeded.")
                         (λ _ _ _, Responds 200) 1000 "event-1" [student "y@gmail.com"]
                         None None (JS.Str "a@pool.id") cacheWithA
                         (wellFormed_pool_singleton true "a@pool.id" ["x@gmail.com"]))
                  "Calendar usage limits exceeded." eq_refl)).
  reflexivity.
Defined.

(** ** The availability criterion *)

(** X15: when an organizer is available. On a cache the service can read,
    [isOrganizerAvailable] returns, and its answer is [true] exactly when
    the organizer is quota-exhausted in neither category and has no
    suspension record or one more than 24 hours old; after a [true] answer
    the organizer has no suspension record and the categories' entries are
    as they were. *)
Theorem isOrganizerAvailable_criterion cfg dateNow organizer (c : Cache) :
  wellFormed c →
  ∃ isAvailable c',
    isOrganizerAvailable cfg dateNow organizer c = (Returned isAvailable, c')
    ∧ (isAvailable = true ↔
       quotaExhausted cfg organizer true c = false
       ∧ quotaExhausted cfg organizer false c = false
       ∧ match suspendedAt organizer c with
         | None => True
         | Some t => dateNow - t > 24 * 60 * 60 * 1000
         end)
    ∧ (isAvailable = true →
       suspendedAt organizer c' = None
       ∧ ∀ isPrakerja, c' !! poolKey isPrakerja = c !! poolKey isPrakerja).
Proof.
  intros Hc. rewrite (isOrganizerAvailable_wellFormed _ _ _ _ Hc).
  destruct (quotaExhausted cfg organizer true c), (quotaExhausted cfg organizer false c); simpl;
    try (eexists _, _; split; [reflexivity|]; split; [split; [done|by intros (? & ? & ?)]|done]).
  destruct (suspendedAt organizer c) as [t|] eqn:Hrecord.
  - unfold twentyFourHoursInMilliseconds.
    destruct (Z.gtb_spec (dateNow - t) (24 * 60 * 60 * 1000)).
    + eexists _, _. split; [reflexivity|]. split; [split; [intros _; split_and!; [done..|lia]|done]|].
      intros _. split; [apply suspendedAt_delete_blockKey|].
      intros b. apply lookup_delete_ne, blockKey_poolKey.
    + eexists _, _. split; [reflexivity|]. split; [|done].
      split; [done|]. intros (_ & _ & ?). lia.
  - eexists _, _. split; [reflexivity|]. by split.
Qed.

Lemma isOrganizerAvailable_criterion_witness :
  ∃ isAvailable c',
    isOrganizerAvailable sampleConfig 86401000 (JS.Str "a@pool.id") cacheWithASuspended
    = (Returned isAvailable, c')
    ∧ (isAvailable = true ↔
       quotaExhausted sampleConfig (JS.Str "a@pool.id") true cacheWithASuspended = false
       ∧ quotaExhausted sampleConfig (JS.Str "a@pool.id") false cacheWithASuspended = false
       ∧ match suspendedAt (JS.Str "a@pool.id") cacheWithASuspended with
         | None => True
         | Some t => 86401000 - t > 24 * 60 * 60 * 1000
         end)
    ∧ isAvailable = false.
Proof.
  destruct (isOrganizerAvailable_criterion sampleConfig 86401000 (JS.Str "a@pool.id")
              cacheWithASuspended)
    as (isAvailable & c' & Hcall & Hiff & _).
  - split_and!; [exact I..|]. intros organizer e H. unfold cacheWithASuspended in H.
    apply lookup_singleton_Some in H as [_ <-]. by exists 1000.
  - exists isAvailable, c'. split; [exact Hcall|]. split; [exact Hiff|].
    vm_compute in Hcall. injection Hcall as <- _. reflexivity.
Defined.

(** ** The list of available organizers *)

Lemma poolState_blocked isPrakerja dateNow organizer (c : Cache) :
  poolState isPrakerja (blocked dateNow organizer c) = poolState isPrakerja c
  ∨ poolState isPrakerja (blocked dateNow organizer c) = None.
Proof.
  unfold blocked.
  assert (∀ b (c0 : Cache),
            poolState isPrakerja (delete (poolKey b) c0) = poolState isPrakerja c0
            ∨ poolState isPrakerja (delete (poolKey b) c0) = None) as Hdel.
  { intros b c0. unfold poolState. destruct (decide (poolKey b = poolKey isPrakerja)) as [->|?].
    - right. by rewrite lookup_delete_eq.
    - left. by rewrite lookup_delete_ne. }
  pose proof (poolState_insert_blockKey isPrakerja organizer
                {| value := DateJson dateNow; ttl := 24 * 60 * 60 |} c) as Hins.
  simpl. destruct (_ && _); [|destruct (_ && _)]; rewrite <- Hins;
    [apply Hdel..|by left].
Qed.

Lemma quotaExhausted_blocked cfg organizer isPrakerja dateNow other (c : Cache) :
  quotaExhausted cfg organizer isPrakerja c = false →
  quotaExhausted cfg organizer isPrakerja (blocked dateNow other c) = false.
Proof.
  unfold quotaExhausted.
  by destruct (poolState_blocked isPrakerja dateNow other c) as [-> | ->].
Qed.

(** The organizer is usable: not exhausted and without a record. *)
Lemma isOrganizerAvailable_keeps_usable cfg dateNow org name (c : Cache) :
  wellFormed c →
  quotaExhausted cfg (JS.Str name) true c = false →
  quotaExhausted cfg (JS.Str name) false c = false →
  ∃ isAvailable c',
    isOrganizerAvailable cfg dateNow (JS.Str org) c = (Returned isAvailable, c')
    ∧ wellFormed c'
    ∧ quotaExhausted cfg (JS.Str name) true c' = false
    ∧ quotaExhausted cfg (JS.Str name) false c' = false
    ∧ (suspendedAt (JS.Str name) c = None ∨ (org = name ∧ isAvailable = true) →
       suspendedAt (JS.Str name) c' = None).
Proof.
  intros Hc HexP HexNP. rewrite (isOrganizerAvailable_wellFormed _ _ _ _ Hc).
  destruct (decide (org = name)) as [->|Hne].
  - rewrite HexP, HexNP. simpl. destruct (suspendedAt (JS.Str name) c) as [t|] eqn:Hrecord.
    + destruct (_ >? _).
      * eexists _, _. split_and!; [done|by apply wellFormed_delete|
                                   by rewrite quotaExhausted_delete_blockKey..|].
        intros _. apply suspendedAt_delete_blockKey.
      * eexists _, _. split_and!; [done..|]. by intros [?|[_ ?]].
    + eexists _, _. by split_and!.
  - assert (blockKey (JS.Str org) ≠ blockKey (JS.Str name)) as Hkeys
      by (intros H; by apply blockKey_Str_inj in H).
    destruct (_ && _); [by eexists _, _; split_and!; [..|intros [?|[? _]]]|].
    destruct (_ || _).
    { eexists _, _. split_and!; [done|by apply wellFormed_blocked|
                                 by apply quotaExhausted_blocked..|].
      intros [Hnone|[? _]]; [|done]. rewrite suspendedAt_blocked.
      by destruct (decide _). }
    destruct (suspendedAt (JS.Str org) c) as [t|];
      [|by eexists _, _; split_and!; [..|intros [?|[? _]]]].
    destruct (_ >? _); [|by eexists _, _; split_and!; [..|intros [?|[? _]]]].
    eexists _, _. split_and!; [done|by apply wellFormed_delete|
                               by rewrite quotaExhausted_delete_blockKey..|].
    intros [Hnone|[? _]]; [|done]. unfold suspendedAt in *. by rewrite lookup_delete_ne.
Qed.

Lemma isOrganizerAvailable_true_usable cfg dateNow organizer (c c' : Cache) :
  wellFormed c →
  isOrganizerAvailable cfg dateNow organizer c = (Returned true, c') →
  quotaExhausted cfg organizer true c = false ∧ quotaExhausted cfg organizer false c = false.
Proof.
  intros Hc. rewrite (isOrganizerAvailable_wellFormed _ _ _ _ Hc).
  by destruct (quotaExhausted cfg organizer true c), (quotaExhausted cfg organizer false c).
Qed.

Lemma availableOrganizers_loop_usable cfg dateNow organizers acc (c c' : Cache) available :
  wellFormed c →
  (∀ name, name ∈ acc → usable_now cfg name c) →
  availableOrganizers_loop cfg dateNow organizers acc c = (Returned available, c') →
  wellFormed c' ∧ ∀ name, name ∈ available → usable_now cfg name c'.
Proof.
  revert acc c. induction organizers as [|org rest IH]; intros acc c Hc Hacc; simpl.
  - by intros [= <- <-].
  - destruct (isOrganizerAvailable_wellFormed_after cfg dateNow (JS.Str org) c Hc)
      as (isAvailable & c1 & Hcheck & Hc1).
    rewrite (bind_returned _ _ _ _ _ Hcheck). apply IH; [done|].
    assert (∀ name, usable_now cfg name c → usable_now cfg name c1) as Hkeep.
    { intros name (HexP & HexNP & Hnone).
      destruct (isOrganizerAvailable_keeps_usable cfg dateNow org name c Hc HexP HexNP)
        as (? & ? & Hcheck' & _ & ? & ? & Hrecord).
      rewrite Hcheck in Hcheck'. injection Hcheck' as <- <-.
      split_and!; [done..|]. apply Hrecord. by left. }
    destruct isAvailable; [|by auto].
    intros name [Hin| ->%list_elem_of_singleton]%elem_of_app; [by auto|].
    destruct (isOrganizerAvailable_true_usable cfg dateNow (JS.Str org) c c1 Hc Hcheck)
      as [HexP HexNP].
    destruct (isOrganizerAvailable_keeps_usable cfg dateNow org org c Hc HexP HexNP)
      as (? & ? & Hcheck' & _ & ? & ? & Hrecord).
    rewrite Hcheck in Hcheck'. injection Hcheck' as <- <-.
    split_and!; [done..|]. apply Hrecord. by right.
Qed.

(** X16: the list of [fetchAvailableOrganizers] can be relied on. On a
    cache the service can read the call returns, and every organizer it
    lists is, in the cache the call leaves, quota-exhausted in neither
    category and without a suspension record, so that a check made right
    after the call answers [true] for it and changes nothing. *)
Theorem fetchAvailableOrganizers_lists_usable cfg dateNow isPrakerja organizers (c : Cache) :
  wellFormed c →
  ∃ available c',
    fetchAvailableOrganizers cfg dateNow isPrakerja organizers c = (Returned available, c')
    ∧ ∀ name, name ∈ available →
        usable_now cfg name c'
        ∧ isOrganizerAvailable cfg dateNow (JS.Str name) c' = (Returned true, c').
Proof.
  intros Hc.
  destruct (fetchAvailableOrganizers_wellFormed cfg dateNow isPrakerja organizers c Hc)
    as (available & c' & Hcall & _).
  exists available, c'. split; [done|]. unfold fetchAvailableOrganizers in Hcall.
  destruct (availableOrganizers_loop_usable _ _ _ _ _ _ _ Hc
              (λ name (H : name ∈ []), False_ind _ (not_elem_of_nil name H)) Hcall)
    as [Hc' Husable].
  intros name Hin. destruct (Husable name Hin) as (HexP & HexNP & Hnone).
  split; [done|].
  by rewrite (isOrganizerAvailable_wellFormed _ _ _ _ Hc'), HexP, HexNP, Hnone.
Qed.

Lemma fetchAvailableOrganizers_lists_usable_witness :
  ∃ available c',
    fetchAvailableOrganizers sampleConfig 90000000 true None cacheOnlyCFree
    = (Returned available, c')
    ∧ available = ["a@pool.id"; "b@pool.id"; "c@pool.id"]
    ∧ isOrganizerAvailable sampleConfig 90000000 (JS.Str "b@pool.id") c' = (Returned true, c').
Proof.
  destruct (fetchAvailableOrganizers_lists_usable sampleConfig 90000000 true None cacheOnlyCFree)
    as (available & c' & Hcall & Husable).
  - split_and!; [exact I..|]. intros organizer e H. unfold cacheOnlyCFree in H.
    apply lookup_insert_Some in H as [[_ <-]|[_ H]]; [by exists 1000|].
    apply lookup_insert_Some in H as [[_ <-]|[_ H]]; [by exists 1000|].
    by rewrite lookup_empty in H.
  - exists available, c'. split; [exact Hcall|].
    assert (available = ["a@pool.id"; "b@pool.id"; "c@pool.id"]) as Hlist.
    { vm_compute in Hcall. injection Hcall as <- _. reflexivity. }
    split; [exact Hlist|]. apply Husable. rewrite Hlist.
    apply elem_of_cons. right. apply elem_of_cons. left. reflexivity.
Defined.

(** ** What the provider's answer does to the quota *)





(** ** The two readers of a category's entry *)

(** X19: [fetchCacheData] and [fetchCurrentOrganizer] read a category's
    entry alike whenever it holds a non-empty text: the same value, or the
    same parse error. They differ on the empty text, where
    [fetchCurrentOrganizer] returns without a state and [fetchCacheData]
    throws the parse error. *)
Theorem fetchCacheData_and_fetchCurrentOrganizer isPrakerja (c : Cache) e :
  c !! poolKey isPrakerja = Some e →
  ((∀ message, value e ≠ NotJson "" message) →
     fetchCacheData (if isPrakerja then "prakerja" else "non-prakerja") c
     = fetchCurrentOrganizer isPrakerja c)
  ∧ (∀ message, value e = NotJson "" message →
     fetchCacheData (if isPrakerja then "prakerja" else "non-prakerja") c
     = (Thrown (SyntaxError message), c)
     ∧ fetchCurrentOrganizer isPrakerja c = (Returned None, c)).
Proof.
  intros Hkey.
  assert (gcalMainKey +:+ "-" +:+ (if isPrakerja then "prakerja" else "non-prakerja")
          = poolKey isPrakerja) as Hsame by done.
  unfold fetchCacheData. rewrite Hsame, fetchCurrentOrganizer_eq. run. rewrite Hkey. simpl.
  split.
  - intros Hne. destruct (value e) as [raw message|v|t]; [|done..].
    rewrite bool_decide_eq_false_2; [done|]. intros ->. by eapply Hne.
  - by intros message ->.
Qed.

Lemma fetchCacheData_and_fetchCurrentOrganizer_witness :
  fetchCacheData "prakerja" cacheWithA = fetchCurrentOrganizer true cacheWithA
  ∧ fetchCacheData "prakerja" cacheWithA
    = (Returned (Some (JDto (fromPayload (JS.Str "a@pool.id") (Some ["x@gmail.com"])))),
       cacheWithA).
Proof.
  split; [|vm_compute; reflexivity].
  apply (proj1 (fetchCacheData_and_fetchCurrentOrganizer true cacheWithA
                  (poolEntry "a@pool.id" ["x@gmail.com"]) eq_refl)).
  intros message. discriminate.
Defined.

(** ** How far the count can pass the limit *)

Lemma newAttendees_length attendees : (length (newAttendees attendees) ≤ length attendees)%nat.
Proof.
  induction attendees as [|att rest IH]; simpl; [done|].
  destruct (isExternal _); simpl; lia.
Qed.

Lemma cacheOrganizerAndAttendee_overshootBounded cfg batch attendees organizerReq isPrakerja
    (c : Cache) :
  (length attendees ≤ batch)%nat →
  overshootBounded cfg batch c →
  overshootBounded cfg batch
    (cacheOrganizerAndAttendee cfg attendees organizerReq isPrakerja c).2.
Proof.
  intros Hbatch Hinv.
  assert (∀ v' l', uniqueAttendees v' = Some l' →
            Z.of_nat (length l') ≤ Z.max 0 (externalAttendeesLimit cfg - 1) + Z.of_nat batch →
            overshootBounded cfg batch (persisted isPrakerja v' c)) as Hpersisted.
  { intros v' l' Hl' Hbound b v l Hstate Hl. rewrite poolState_persisted in Hstate.
    case_bool_decide; [|by eapply Hinv]. by simplify_eq. }
  destruct (c !! poolKey isPrakerja) as [e|] eqn:Hkey.
  - destruct (value e) as [raw message|v|t] eqn:Hv.
    + by rewrite (cacheOrganizerAndAttendee_not_json cfg attendees organizerReq isPrakerja c
                    e raw message Hkey Hv).
    + assert (poolState isPrakerja c = Some v) as Hstate by (apply poolState_Some; eauto).
      destruct (JS.truthy (organizer v) && looseEq (organizer v) (orNull organizerReq)) eqn:Heq.
      * destruct (uniqueAttendees v) as [l|] eqn:Hl.
        -- destruct (Z.lt_ge_cases (Z.of_nat (length l)) (externalAttendeesLimit cfg)).
           ++ rewrite (cacheOrganizerAndAttendee_merge cfg attendees organizerReq isPrakerja c
                         e v l Hkey Hv Heq Hl H).
              eapply Hpersisted; [done|].
              pose proof (foldl_addAttendee_length attendees (JS.Set_new l)).
              pose proof (Set_new_length l). lia.
           ++ rewrite (cacheOrganizerAndAttendee_full cfg attendees organizerReq isPrakerja c
                         e v l Hkey Hv Hl H).
              eapply Hpersisted; [done|]. by eapply Hinv.
        -- by rewrite (cacheOrganizerAndAttendee_no_list cfg attendees organizerReq isPrakerja c
                         e v Hkey Hv Heq Hl).
      * rewrite (cacheOrganizerAndAttendee_other cfg attendees organizerReq isPrakerja c
                   e v Hkey Hv Heq).
        intros b v0 l0 Hstate0 Hl0. simpl in Hstate0. rewrite poolState_persisted in Hstate0.
        case_bool_decide; [|by eapply Hinv]. simplify_eq. by eapply Hinv.
    + rewrite (cacheOrganizerAndAttendee_date cfg attendees organizerReq isPrakerja c
                 e t Hkey Hv).
      intros b v0 l0 Hstate0 Hl0. simpl in Hstate0. rewrite poolState_persisted in Hstate0.
      case_bool_decide; [by simplify_eq|by eapply Hinv].
  - rewrite (cacheOrganizerAndAttendee_absent cfg attendees organizerReq isPrakerja c Hkey).
    eapply Hpersisted; [done|]. pose proof (newAttendees_length attendees). lia.
Qed.

(** X20: the count passes the limit by less than one batch. Along every
    sequence of [cacheOrganizerAndAttendee] calls whose batches have at
    most [batch] attendees, started from a cache where this holds (the
    empty cache, for one), every persisted list has at most
    [max 0 (externalAttendeesLimit - 1) + batch] addresses. *)
Theorem recordAssignments_overshootBounded cfg batch calls (c : Cache) :
  Forall (λ call, (length (assigned_attendees call) ≤ batch)%nat) calls →
  overshootBounded cfg batch c →
  overshootBounded cfg batch (recordAssignments cfg calls c).
Proof.
  intros Hcalls. revert c. induction Hcalls as [|call calls Hcall _ IH]; intros c Hinv; simpl;
    [done|].
  by apply IH, cacheOrganizerAndAttendee_overshootBounded.
Qed.

Lemma recordAssignments_overshootBounded_witness :
  overshootBounded sampleConfig 2 (recordAssignments sampleConfig sampleCalls ∅)
  ∧ poolState true (recordAssignments sampleConfig sampleCalls ∅)
    = Some (fromPayload (JS.Str "a@pool.id") (Some ["x@gmail.com"; "y@gmail.com"])).
Proof.
  split; [|vm_compute; reflexivity].
  apply (recordAssignments_overshootBounded sampleConfig 2 sampleCalls ∅).
  - repeat constructor.
  - intros b v l H. unfold poolState in H. rewrite lookup_empty in H. discriminate H.
Defined.

(** ** Suspending again *)

Lemma currentOrganizer_insert_blockKey isPrakerja organizer entry (c : Cache) :
  currentOrganizer isPrakerja (<[blockKey organizer := entry]> c) = currentOrganizer isPrakerja c.
Proof. unfold currentOrganizer. by rewrite poolState_insert_blockKey. Qed.

Lemma currentOrganizer_delete isPrakerja isPrakerja' (c : Cache) :
  currentOrganizer isPrakerja (delete (poolKey isPrakerja') c)
  = if bool_decide (isPrakerja = isPrakerja') then JS.undefined
    else currentOrganizer isPrakerja c.
Proof.
  unfold currentOrganizer, poolState. case_bool_decide as Hb.
  - subst. by rewrite lookup_delete_eq.
  - rewrite lookup_delete_ne; [done|]. intros H. by apply poolKey_inj in H.
Qed.

(** X21: suspending an organizer again. On a cache the service can read,
    for a non-empty organizer: when it is current in at most one category,
    a second [blockOrganizer] only moves the recorded instant, so that two
    suspensions leave the cache a single one at the later instant leaves;
    when it is current in both categories, the first suspension deletes
    the prakerja entry and the second one the non-prakerja entry. *)
Theorem blockOrganizer_twice dateNow dateLater organizer (c : Cache) :
  wellFormed c →
  JS.truthy organizer = true →
  blockOrganizer dateNow organizer c = (Returned (), blocked dateNow organizer c)
  ∧ blockOrganizer dateLater organizer (blocked dateNow organizer c)
    = (Returned (), blocked dateLater organizer (blocked dateNow organizer c))
  ∧ suspendedAt organizer (blocked dateLater organizer (blocked dateNow organizer c))
    = Some dateLater
  ∧ (¬ (currentOrganizer true c = organizer ∧ currentOrganizer false c = organizer) →
     blocked dateLater organizer (blocked dateNow organizer c) = blocked dateLater organizer c)
  ∧ (currentOrganizer true c = organizer → currentOrganizer false c = organizer →
     blocked dateNow organizer c !! poolKey true = None
     ∧ is_Some (blocked dateNow organizer c !! poolKey false)
     ∧ blocked dateLater organizer (blocked dateNow organizer c) !! poolKey false = None).
Proof.
  intros Hc Htruthy.
  destruct (blockOrganizer_wellFormed dateNow organizer c Hc) as [Hfirst Hc1].
  destruct (blockOrganizer_wellFormed dateLater organizer _ Hc1) as [Hsecond _].
  split; [done|]. split; [done|]. split; [apply blocked_suspendedAt|].
  assert (∀ b (entry : CacheEntry) (c0 : Cache),
            <[blockKey organizer := entry]> (delete (poolKey b) c0)
            = delete (poolKey b) (<[blockKey organizer := entry]> c0)) as Hcomm.
  { intros. symmetry. apply delete_insert_ne, not_eq_sym, blockKey_poolKey. }
  assert (∀ b (b' : bool), b ≠ b' → poolKey b ≠ poolKey b') as Hkeys
    by (intros b b' Hne H; by apply poolKey_inj in H).
  set (record t := {| value := DateJson t; ttl := 24 * 60 * 60 |}).
  assert (∀ t, blocked t organizer c =
               if decide (currentOrganizer true c = organizer)
               then delete (poolKey true) (<[blockKey organizer := record t]> c)
               else if decide (currentOrganizer false c = organizer)
               then delete (poolKey false) (<[blockKey organizer := record t]> c)
               else <[blockKey organizer := record t]> c) as Hblocked.
  { intros t. unfold blocked.
    destruct (decide (currentOrganizer true c = organizer)) as [HP|HP].
    - by rewrite HP, Htruthy, bool_decide_eq_true_2.
    - rewrite (bool_decide_eq_false_2 _ (not_eq_sym HP)), andb_false_r.
      destruct (decide (currentOrganizer false c = organizer)) as [HNP|HNP].
      + by rewrite HNP, Htruthy, bool_decide_eq_true_2.
      + by rewrite (bool_decide_eq_false_2 _ (not_eq_sym HNP)), andb_false_r. }
  rewrite (Hblocked dateLater), (Hblocked dateNow).
  destruct (decide (currentOrganizer true c = organizer)) as [HP|HP];
    [|destruct (decide (currentOrganizer false c = organizer)) as [HNP|HNP]].
  - unfold blocked.
    rewrite !currentOrganizer_delete, !currentOrganizer_insert_blockKey. simpl.
    destruct (decide (currentOrganizer false c = organizer)) as [HNP|HNP].
    + rewrite HNP, Htruthy, bool_decide_eq_true_2 by done. simpl.
      split; [intros Hnot; destruct Hnot; by split|]. intros _ _. split_and!.
      * by rewrite lookup_delete_eq.
      * rewrite lookup_delete_ne, lookup_insert_ne by (by auto using blockKey_poolKey).
        unfold currentOrganizer, poolState in HNP.
        destruct (c !! poolKey false); [done|]. simpl in HNP.
        rewrite <- HNP in Htruthy. discriminate Htruthy.
      * by rewrite lookup_delete_eq.
    + rewrite (bool_decide_eq_false_2 _ (not_eq_sym HNP)), andb_false_r.
      split; [|done]. intros _. by rewrite Hcomm, insert_insert_eq.
  - unfold blocked.
    rewrite !currentOrganizer_delete, !currentOrganizer_insert_blockKey. simpl.
    rewrite (bool_decide_eq_false_2 _ (not_eq_sym HP)), andb_false_r.
    split; [|done]. intros _. by rewrite Hcomm, insert_insert_eq.
  - unfold blocked. rewrite !currentOrganizer_insert_blockKey.
    rewrite (bool_decide_eq_false_2 _ (not_eq_sym HP)), andb_false_r.
    rewrite (bool_decide_eq_false_2 _ (not_eq_sym HNP)), andb_false_r.
    split; [|done]. intros _. by rewrite insert_insert_eq.
Qed.

Lemma blockOrganizer_twice_witness :
  blocked 9000 (JS.Str "a@pool.id") (blocked 5000 (JS.Str "a@pool.id") cacheWithA)
  = blocked 9000 (JS.Str "a@pool.id") cacheWithA
  ∧ suspendedAt (JS.Str "a@pool.id")
      (blocked 9000 (JS.Str "a@pool.id") (blocked 5000 (JS.Str "a@pool.id") cacheWithA))
    = Some 9000.
Proof.
  destruct (blockOrganizer_twice 5000 9000 (JS.Str "a@pool.id") cacheWithA
              (wellFormed_pool_singleton true "a@pool.id" ["x@gmail.com"]) eq_refl)
    as (_ & _ & Hrecord & Honce & _).
  split; [|exact Hrecord]. apply Honce. intros [_ Hnon]. discriminate Hnon.
Defined.
